(** * Spotify trend dashboard: the client-side aggregation core

    A shallow embedding of the pure data logic of the dashboard pages
    (the four page variants under [src/]): date utilities, record
    normalisation, the filter, the grouping and its bucket order, the
    KPI band counts and donut shares, source clustering and the export
    row selection.

    Conventions of the embedding.
    - A JavaScript string is a [string]: one [ascii] per code unit
      (code units above 255 do not occur in the values built here).
    - [week_number] is an integer ([Z]); [relevance_score] is a finite
      number, kept as the rational it denotes ([Q]): the code only
      compares scores, and comparison of finite binary64 values agrees
      with comparison of the rationals they denote.
    - The donut shares are computed in binary64 ([float], the kernel's
      IEEE 754 doubles), as the page computes them.
    - A [Date] is its time value in milliseconds since the epoch; an
      invalid date is [None].
    - What the host runtime supplies ([Date] parsing, the local time
      zone, [Intl] formatting and collation, [URL], Unicode-aware
      [trim] and [toLowerCase]) is the class [Platform]; the theorems
      hold for every instance, and [RefPlatform] is the concrete
      instance the examples run on. *)

From Stdlib Require Import ZArith QArith Qround Qminmax List String Ascii Bool Lia.
From Stdlib Require Import Permutation Sorted DecimalString Decimal DecimalZ.
From Stdlib Require Import PrimFloat Uint63.
Import ListNotations.

Local Open Scope string_scope.
Local Open Scope Z_scope.

(** ** JavaScript built-ins used by the pages *)

Module JS.

(** *** Strings *)

(** [s.startsWith(p)] *)
Fixpoint startsWith (s p : string) : bool :=
  match p, s with
  | EmptyString, _ => true
  | String _ _, EmptyString => false
  | String c p', String d s' => Ascii.eqb c d && startsWith s' p'
  end.

(** [s.endsWith(p)] *)
Fixpoint endsWith (s p : string) : bool :=
  match s with
  | EmptyString => String.eqb p EmptyString
  | String _ s' => String.eqb s p || endsWith s' p
  end.

(** [s.includes(q)] *)
Fixpoint includes (s q : string) : bool :=
  startsWith s q ||
  match s with
  | EmptyString => false
  | String _ s' => includes s' q
  end.

(** [s.split(sep)] for a one-character separator; the result is never
    empty, as in JavaScript. *)
Fixpoint split (sep : ascii) (s : string) : list string :=
  match s with
  | EmptyString => [EmptyString]
  | String c s' =>
      if Ascii.eqb c sep then EmptyString :: split sep s'
      else match split sep s' with
           | [] => [String c EmptyString]
           | w :: ws => String c w :: ws
           end
  end.

(** [a[i] ?? ""] on an array of strings *)
Definition at_or_empty (l : list string) (i : nat) : string :=
  nth i l EmptyString.

Definition isDigit (c : ascii) : bool :=
  let n := N_of_ascii c in (48 <=? n)%N && (n <=? 57)%N.

(** [s.replace(/\D/g, "")] *)
Fixpoint replace_nondigits (s : string) : string :=
  match s with
  | EmptyString => EmptyString
  | String c s' =>
      if isDigit c then String c (replace_nondigits s') else replace_nondigits s'
  end.

(** [s.slice(0, n)] *)
Definition slice0 (n : nat) (s : string) : string := substring 0 n s.

(** [String(n)] for an integer [n] (below 1e21 in absolute value, where
    JavaScript prints plain decimal digits). *)
Definition String_of (n : Z) : string := NilEmpty.string_of_int (Z.to_int n).

(** [Number(s)] for the strings the pages convert: an optional minus
    sign followed by decimal digits; the empty string is 0; anything
    else is [NaN], here [None]. *)
Definition Number (s : string) : option Z :=
  if String.eqb s "-" then None
  else option_map Z.of_int (NilEmpty.int_of_string s).

(** [x || 0] on a number: [NaN] and 0 both give 0. *)
Definition or0 (x : option Z) : Z :=
  match x with Some n => n | None => 0 end.

(** [s.padStart(2, "0")] *)
Definition padStart2 (s : string) : string :=
  match String.length s with
  | O => "00"
  | S O => String "0" s
  | _ => s
  end.

(** *** [Array.prototype.sort] with a comparator

    The sort is stable (ECMAScript 2019).  For a comparator that is a
    consistent total preorder the stable sorted arrangement is unique,
    so the insertion sort below returns what every engine returns. *)

Section Sort.
Context {A : Type} (cmp : A -> A -> Z).

Fixpoint insert (x : A) (l : list A) : list A :=
  match l with
  | [] => [x]
  | y :: l' => if cmp x y <=? 0 then x :: l else y :: insert x l'
  end.

Definition sort (l : list A) : list A := fold_right insert [] l.

End Sort.

(** *** Insertion-ordered [Map<string, V[]>]

    A JavaScript [Map] iterates in insertion order, which the pages
    rely on ([Array.from(map.keys())]); it is kept as an association
    list without repeated keys. *)

Section MapOfArrays.
Context {V : Type}.

Definition MapArr := list (string * list V).

Definition Map_has (m : MapArr) (k : string) : bool :=
  existsb (fun kv => String.eqb (fst kv) k) m.

Definition Map_get (m : MapArr) (k : string) : option (list V) :=
  option_map snd (find (fun kv => String.eqb (fst kv) k) m).

Definition Map_keys (m : MapArr) : list string := map fst m.

(** [if (!m.has(k)) m.set(k, []); m.get(k)!.push(v)] *)
Fixpoint Map_push (m : MapArr) (k : string) (v : V) : MapArr :=
  match m with
  | [] => [(k, [v])]
  | (k', vs) :: m' =>
      if String.eqb k' k then (k', (vs ++ [v])%list) :: m'
      else (k', vs) :: Map_push m' k v
  end.

End MapOfArrays.
Arguments MapArr V : clear implicits.

(** *** Calendar arithmetic of [Date] (ECMAScript 21.4.1) *)

Definition msPerDay : Z := 86400000.

(** [Day(t)] *)
Definition Day (t : Z) : Z := t / msPerDay.

(** Day number of a proleptic Gregorian date, month in 1..12. *)
Definition days_from_civil (y m d : Z) : Z :=
  let y' := if m <=? 2 then y - 1 else y in
  let era := y' / 400 in
  let yoe := y' - era * 400 in
  let mp := if m <=? 2 then m + 9 else m - 3 in
  let doy := (153 * mp + 2) / 5 + d - 1 in
  let doe := yoe * 365 + yoe / 4 - yoe / 100 + doy in
  era * 146097 + doe - 719468.

(** Year, month (1..12) and day of a day number. *)
Definition civil_from_days (z : Z) : Z * Z * Z :=
  let z' := z + 719468 in
  let era := z' / 146097 in
  let doe := z' - era * 146097 in
  let yoe := (doe - doe / 1460 + doe / 36524 - doe / 146096) / 365 in
  let doy := doe - (365 * yoe + yoe / 4 - yoe / 100) in
  let mp := (5 * doy + 2) / 153 in
  let d := doy - (153 * mp + 2) / 5 + 1 in
  let m := if mp <? 10 then mp + 3 else mp - 9 in
  let y := yoe + era * 400 in
  (if m <=? 2 then y + 1 else y, m, d).

(** [MakeDay(year, month, date)], month counted from 0 and free to
    run over. *)
Definition MakeDay (year month date : Z) : Z :=
  let ym := year + month / 12 in
  let mn := month mod 12 in
  days_from_civil ym (mn + 1) 1 + date - 1.

(** [Date.UTC(year, month, date)]: a year in 0..99 means 1900+year. *)
Definition Date_UTC (year month date : Z) : Z :=
  let yr := if (0 <=? year) && (year <=? 99) then 1900 + year else year in
  MakeDay yr month date * msPerDay.

Definition getUTCFullYear (t : Z) : Z := fst (fst (civil_from_days (Day t))).
(** [getUTCMonth], counted from 0 *)
Definition getUTCMonth (t : Z) : Z := snd (fst (civil_from_days (Day t))) - 1.
Definition getUTCDate (t : Z) : Z := snd (civil_from_days (Day t)).
(** [getUTCDay]: 0 is Sunday; the epoch was a Thursday. *)
Definition getUTCDay (t : Z) : Z := (Day t + 4) mod 7.

(** [d.setUTCDate(dt)]: the day of the month replaced, the time within
    the day kept. *)
Definition setUTCDate (t dt : Z) : Z :=
  MakeDay (getUTCFullYear t) (getUTCMonth t) dt * msPerDay + t mod msPerDay.

End JS.

(** ** The host runtime *)

(** What the pages take from the browser.  Time values are in
    milliseconds since the epoch; [None] stands for [NaN], an invalid
    date, or a thrown [TypeError], as noted at each field. *)
Class Platform : Type := {
  (** [s.trim()] *)
  trim : string -> string;
  (** [s.toLowerCase()] *)
  toLowerCase : string -> string;
  (** [new Date(s).getTime()], [None] when it is [NaN] *)
  Date_parse : string -> option Z;
  (** offset of local time from UTC at a time value *)
  LocalTZA : Z -> Z;
  (** [new Date(y, m, 1).getTime()] in local time; the arguments may
      be [NaN], and so may the result *)
  Date_local : option Z -> option Z -> Z -> option Z;
  (** [d.toLocaleDateString("de-DE")] of a valid date *)
  toLocaleDateString : Z -> string;
  (** [d.toLocaleDateString("de-DE", {month: "long", year: "numeric"})] *)
  toLocaleDateString_monthYear : option Z -> string;
  (** [a.localeCompare(b, "de-DE")] *)
  localeCompare : string -> string -> Z;
  (** [new URL(u).hostname], [None] when the constructor throws *)
  URL_hostname : string -> option string
}.

(** ** Records *)

(** [id: number | string] *)
Inductive TrendId : Type :=
| IdNumber (n : Z)
| IdString (s : string).

(** The type [Trend] of the pages; [None] is [null].  The optional
    [newsletter_source] of one page variant is read by none of the
    functions below and is left out. *)
Record Trend : Type := mkTrend {
  id : TrendId;
  topic : option string;
  category : option string;
  relevance_score : option Q;
  summary : option string;
  spotify_impact : option string;
  url : option string;
  published_date : option string;
  week_number : option Z
}.

Inductive GroupBy : Type := ByWeek | ByDay | ByMonth.

Inductive ExportScope : Type := ScopeAll | ScopeMonth | ScopeWeek.

(** One entry of [grouped]: [{ label, items }]. *)
Record Bucket : Type := mkBucket {
  label : string;
  items : list Trend
}.

(** [x ?? ""] *)
Definition orEmpty (x : option string) : string :=
  match x with Some s => s | None => EmptyString end.

(** [Boolean(s)] on a string *)
Definition nonEmpty (s : string) : bool := negb (String.eqb s EmptyString).

(** [a < b] on finite numbers *)
Definition Qlt_bool (a b : Q) : bool := negb (Qle_bool b a).

(** ** Utility functions of the pages *)

Section Pages.
Context {P : Platform}.

Definition clamp01 (n : Q) : Q := Qmax 0 (Qmin 1 n).

Definition safeDate (iso : option string) : option Z :=
  match iso with
  | None => None
  | Some s => if nonEmpty s then Date_parse s else None
  end.

Definition pad2 (n : Z) : string := JS.padStart2 (JS.String_of n).

(** Local-time getters of [Date]. *)
Definition getFullYear (d : Z) : Z := JS.getUTCFullYear (d + LocalTZA d).
Definition getMonth (d : Z) : Z := JS.getUTCMonth (d + LocalTZA d).
Definition getDate (d : Z) : Z := JS.getUTCDate (d + LocalTZA d).

Definition getISOWeek (date : Z) : Z :=
  let d := JS.Date_UTC (getFullYear date) (getMonth date) (getDate date) in
  let d := JS.setUTCDate d
             (JS.getUTCDate d + 4 -
              (if JS.getUTCDay d =? 0 then 7 else JS.getUTCDay d)) in
  let yearStart := JS.Date_UTC (JS.getUTCFullYear d) 0 1 in
  Qceiling ((inject_Z (d - yearStart) / inject_Z 86400000 + 1) / 7)%Q.

Definition isoDayKey (d : Z) : string :=
  JS.String_of (getFullYear d) ++ "-" ++ pad2 (getMonth d + 1) ++ "-" ++ pad2 (getDate d).

Definition monthKey (d : Z) : string :=
  JS.String_of (getFullYear d) ++ "-" ++ pad2 (getMonth d + 1).

(** [t.week_number ? `week:${t.week_number}` : "week:unknown"]: a
    number is truthy unless it is 0 (or [NaN]). *)
Definition slotKeyForTrend (t : Trend) (groupBy : GroupBy) : string :=
  let d := safeDate (published_date t) in
  match groupBy with
  | ByWeek =>
      match week_number t with
      | Some w => if w =? 0 then "week:unknown" else "week:" ++ JS.String_of w
      | None => "week:unknown"
      end
  | ByDay =>
      match d with
      | Some d => "day:" ++ isoDayKey d
      | None => "day:unknown"
      end
  | ByMonth =>
      match d with
      | Some d => "month:" ++ monthKey d
      | None => "month:unknown"
      end
  end.

Definition slotLabelFromKey (key : string) (groupBy : GroupBy) : string :=
  if JS.endsWith key ":unknown" then
    match groupBy with
    | ByWeek => "Ohne KW"
    | ByDay => "Ohne Datum"
    | ByMonth => "Ohne Monat"
    end
  else
    let raw := JS.at_or_empty (JS.split ":" key) 1 in
    match groupBy with
    | ByWeek => "KW " ++ raw
    | ByDay =>
        match safeDate (Some raw) with
        | Some d => toLocaleDateString d
        | None => raw
        end
    | ByMonth =>
        let parts := JS.split "-" raw in
        let y := JS.Number (JS.at_or_empty parts 0) in
        let m := match nth_error parts 1 with
                 | Some m => JS.Number m
                 | None => None
                 end in
        toLocaleDateString_monthYear (Date_local y (option_map (fun n => n - 1) m) 1)
    end.

(** [new URL(url).hostname.replace(/^www\./, "")], and in the [catch]
    branch [url.slice(0, 40) || "Unbekannte Quelle"]. *)
Definition extractDomain (url : string) : string :=
  match URL_hostname url with
  | Some h => if JS.startsWith h "www." then substring 4 (String.length h - 4) h else h
  | None =>
      let s := JS.slice0 40 url in
      if nonEmpty s then s else "Unbekannte Quelle"
  end.

(** ** Normalisation *)

(** The [map] step of [normalizedTrends]:
    [{ ...t, week_number: t.week_number ?? (d ? getISOWeek(d) : null) }] *)
Definition withWeek (t : Trend) : Trend :=
  let d := safeDate (published_date t) in
  mkTrend (id t) (topic t) (category t) (relevance_score t) (summary t)
          (spotify_impact t) (url t) (published_date t)
          (match week_number t with
           | Some w => Some w
           | None => option_map getISOWeek d
           end).

(** The [filter] step of [normalizedTrends]. *)
Definition hasContent (t : Trend) : bool :=
  let hasTopic := nonEmpty (trim (orEmpty (topic t))) in
  let hasSummary := nonEmpty (trim (orEmpty (summary t))) in
  let hasImpact := nonEmpty (trim (orEmpty (spotify_impact t))) in
  let hasUrl := nonEmpty (trim (orEmpty (url t))) in
  let hasScore := match relevance_score t with Some _ => true | None => false end in
  let hasCategory := nonEmpty (trim (orEmpty (category t))) in
  let hasDate := nonEmpty (trim (orEmpty (published_date t))) in
  let hasWeek := match week_number t with Some w => 0 <? w | None => false end in
  hasTopic || hasSummary || hasImpact || hasUrl || hasScore || hasCategory || hasDate || hasWeek.

Definition normalizedTrends (trends : list Trend) : list Trend :=
  filter hasContent (map withWeek trends).

(** ** Filter *)

(** [t.relevance_score ?? 0] *)
Definition scoreOr0 (t : Trend) : Q :=
  match relevance_score t with Some s => s | None => 0%Q end.

(** The callback of [filtered] in the page with a search box. *)
Definition filtered_keep (groupBy : GroupBy) (min : Q)
    (selectedCategory selectedSlot q : string) (t : Trend) : bool :=
  if Qlt_bool (scoreOr0 t) min then false
  else
    let cat := trim (orEmpty (category t)) in
    if negb (String.eqb selectedCategory "all") && negb (String.eqb cat selectedCategory)
    then false
    else if negb (String.eqb selectedSlot "all")
            && negb (String.eqb (slotKeyForTrend t groupBy) selectedSlot)
    then false
    else if nonEmpty q then
      let matches :=
        JS.includes (toLowerCase (orEmpty (topic t))) q
        || JS.includes (toLowerCase (orEmpty (summary t))) q
        || JS.includes (toLowerCase (orEmpty (category t))) q in
      if negb matches then false else true
    else true.

Definition filtered (groupBy : GroupBy) (minScore : Q)
    (selectedCategory selectedSlot searchQuery : string)
    (normalizedTrends : list Trend) : list Trend :=
  let min := clamp01 minScore in
  let q := trim (toLowerCase searchQuery) in
  filter (filtered_keep groupBy min selectedCategory selectedSlot q) normalizedTrends.

(** [filtered] of the pages without a search box. *)
Definition filtered_basic (groupBy : GroupBy) (minScore : Q)
    (selectedCategory selectedSlot : string)
    (normalizedTrends : list Trend) : list Trend :=
  let min := clamp01 minScore in
  filter (fun t =>
    if Qlt_bool (scoreOr0 t) min then false
    else
      let cat := trim (orEmpty (category t)) in
      if negb (String.eqb selectedCategory "all") && negb (String.eqb cat selectedCategory)
      then false
      else if negb (String.eqb selectedSlot "all")
              && negb (String.eqb (slotKeyForTrend t groupBy) selectedSlot)
      then false
      else true) normalizedTrends.

(** ** Grouping *)

(** The comparator of [labels.sort(...)] in [grouped]. *)
Definition compareLabels (groupBy : GroupBy) (a b : string) : Z :=
  let aU := JS.startsWith a "Ohne" in
  let bU := JS.startsWith b "Ohne" in
  if aU && negb bU then 1
  else if negb aU && bU then -1
  else
    match groupBy with
    | ByWeek =>
        JS.or0 (JS.Number (JS.replace_nondigits b))
        - JS.or0 (JS.Number (JS.replace_nondigits a))
    | _ => localeCompare b a
    end.

(** The label a record is grouped under. *)
Definition labelOf (groupBy : GroupBy) (t : Trend) : string :=
  slotLabelFromKey (slotKeyForTrend t groupBy) groupBy.

Definition grouped (filtered : list Trend) (groupBy : GroupBy) : list Bucket :=
  let m := fold_left (fun m t => JS.Map_push m (labelOf groupBy t) t) filtered [] in
  let labels := JS.sort (compareLabels groupBy) (JS.Map_keys m) in
  map (fun label =>
         mkBucket label (match JS.Map_get m label with Some v => v | None => [] end))
      labels.

(** ** KPIs and the donut *)

(** The band counts of [kpis] (its average, top category and bars are
    not read by [donutStyle]). *)
Record Kpis : Type := mkKpis {
  count : nat;
  highPriority : nat;
  distHigh : nat;
  distMid : nat;
  distLow : nat
}.

Definition kpis (filtered : list Trend) : Kpis :=
  let high := fun t => Qle_bool (8 # 10) (scoreOr0 t) in
  let mid := fun t => Qle_bool (6 # 10) (scoreOr0 t) && Qlt_bool (scoreOr0 t) (8 # 10) in
  let low := fun t => Qlt_bool (scoreOr0 t) (6 # 10) in
  mkKpis (List.length filtered)
         (List.length (filter high filtered))
         (List.length (filter high filtered))
         (List.length (filter mid filtered))
         (List.length (filter low filtered)).





(** ** Export rows *)

Definition exportData (exportScope : ExportScope) (exportMonth exportWeek : string)
    (normalizedTrends : list Trend) : list Trend :=
  let rows := normalizedTrends in
  let rows :=
    match exportScope with
    | ScopeMonth =>
        if negb (String.eqb exportMonth "all") then
          filter (fun t =>
                    match safeDate (published_date t) with
                    | Some d => String.eqb (monthKey d) exportMonth
                    | None => false
                    end) rows
        else rows
    | _ => rows
    end in
  let rows :=
    match exportScope with
    | ScopeWeek =>
        if negb (String.eqb exportWeek "all") then
          filter (fun t =>
                    String.eqb
                      (match week_number t with
                       | Some w => JS.String_of w
                       | None => EmptyString
                       end) exportWeek) rows
        else rows
    | _ => rows
    end in
  rows.

(** ** Source clustering *)

(** The cluster key of a record in the source-grouped layout. *)
Definition sourceDomain (t : Trend) : string :=
  let u := trim (orEmpty (url t)) in
  if nonEmpty u then extractDomain u else "Unbekannte Quelle".

Definition bySource (items : list Trend) : JS.MapArr Trend :=
  fold_left (fun m t => JS.Map_push m (sourceDomain t) t) items [].

Definition compareSources (a b : string * list Trend) : Z :=
  Z.of_nat (List.length (snd b)) - Z.of_nat (List.length (snd a)).

Definition sortedSources (items : list Trend) : list (string * list Trend) :=
  JS.sort compareSources (bySource items).

End Pages.

(** ** A reference runtime

    A concrete [Platform]: the time zone is UTC; [Date] parses the
    ECMAScript date-only form [YYYY-MM-DD]; the [de-DE] date formats
    are [D.M.YYYY] and [<month name> YYYY]; [localeCompare] compares
    code units, which agrees with the [de-DE] collation on the labels
    the pages build (digits and full stops for days; a capitalised
    month name, a space and digits for months); [URL] accepts
    [scheme://host...]; [trim] and [toLowerCase] act on ASCII. *)

Module Ref.

Definition isSpace (c : ascii) : bool :=
  let n := N_of_ascii c in ((9 <=? n)%N && (n <=? 13)%N) || (n =? 32)%N.

Fixpoint trimStart (s : string) : string :=
  match s with
  | EmptyString => EmptyString
  | String c s' => if isSpace c then trimStart s' else s
  end.

(** Drops trailing white space. *)
Fixpoint trimEnd (s : string) : string :=
  match s with
  | EmptyString => EmptyString
  | String c s' =>
      match trimEnd s' with
      | EmptyString => if isSpace c then EmptyString else String c EmptyString
      | r => String c r
      end
  end.

Definition trim (s : string) : string := trimEnd (trimStart s).

Definition lowerChar (c : ascii) : ascii :=
  let n := N_of_ascii c in
  if (65 <=? n)%N && (n <=? 90)%N then ascii_of_N (n + 32) else c.

Fixpoint toLowerCase (s : string) : string :=
  match s with
  | EmptyString => EmptyString
  | String c s' => String (lowerChar c) (toLowerCase s')
  end.

Definition allDigits (s : string) : bool :=
  String.eqb (JS.replace_nondigits s) s.

Definition daysInMonth (y m : Z) : Z :=
  JS.days_from_civil (if m =? 12 then y + 1 else y) (if m =? 12 then 1 else m + 1) 1
  - JS.days_from_civil y m 1.

(** [YYYY-MM-DD], read as midnight UTC. *)
Definition Date_parse (s : string) : option Z :=
  match JS.split "-" s with
  | [y; m; d] =>
      if (String.length y =? 4)%nat && (String.length m =? 2)%nat
         && (String.length d =? 2)%nat
         && allDigits y && allDigits m && allDigits d
      then
        let yn := JS.or0 (JS.Number y) in
        let mn := JS.or0 (JS.Number m) in
        let dn := JS.or0 (JS.Number d) in
        if (1 <=? mn) && (mn <=? 12) && (1 <=? dn) && (dn <=? daysInMonth yn mn)
        then Some (JS.days_from_civil yn mn dn * JS.msPerDay)
        else None
      else None
  | _ => None
  end.

Definition LocalTZA (t : Z) : Z := 0.

Definition Date_local (y m : option Z) (d : Z) : option Z :=
  match y, m with
  | Some y, Some m => Some (JS.Date_UTC y m d)
  | _, _ => None
  end.

Definition toLocaleDateString (t : Z) : string :=
  JS.String_of (JS.getUTCDate t) ++ "." ++ JS.String_of (JS.getUTCMonth t + 1)
  ++ "." ++ JS.String_of (JS.getUTCFullYear t).

(** The German month names; the second letter of the third is
    a-umlaut, code unit 228. *)
Definition monthName (m : Z) : string :=
  match m with
  | 0 => "Januar"
  | 1 => "Februar"
  | 2 => String "M" (String (ascii_of_nat 228) "rz")
  | 3 => "April"
  | 4 => "Mai"
  | 5 => "Juni"
  | 6 => "Juli"
  | 7 => "August"
  | 8 => "September"
  | 9 => "Oktober"
  | 10 => "November"
  | _ => "Dezember"
  end.

Definition toLocaleDateString_monthYear (t : option Z) : string :=
  match t with
  | Some t => monthName (JS.getUTCMonth t) ++ " " ++ JS.String_of (JS.getUTCFullYear t)
  | None => "Invalid Date"
  end.

(** Comparison by code units: -1, 0 or 1. *)
Fixpoint localeCompare (a b : string) : Z :=
  match a, b with
  | EmptyString, EmptyString => 0
  | EmptyString, String _ _ => -1
  | String _ _, EmptyString => 1
  | String c a', String d b' =>
      let x := Z.of_N (N_of_ascii c) in
      let y := Z.of_N (N_of_ascii d) in
      if x <? y then -1 else if y <? x then 1 else localeCompare a' b'
  end.

Definition isAlpha (c : ascii) : bool :=
  let n := N_of_ascii (lowerChar c) in (97 <=? n)%N && (n <=? 122)%N.

(** The text before the first of the characters [stops]. *)
Fixpoint takeUntil (stops : list ascii) (s : string) : string :=
  match s with
  | EmptyString => EmptyString
  | String c s' =>
      if existsb (Ascii.eqb c) stops then EmptyString else String c (takeUntil stops s')
  end.

(** The text after the last [c], or all of it when there is none. *)
Fixpoint afterLast (c : ascii) (s : string) : string :=
  match s with
  | EmptyString => EmptyString
  | String d s' =>
      if JS.includes s' (String c EmptyString) then afterLast c s'
      else if Ascii.eqb d c then s' else s
  end.

(** The text after the first occurrence of [sep], if any. *)
Fixpoint afterFirst (sep : string) (s : string) : option string :=
  if JS.startsWith s sep then Some (substring (String.length sep) (String.length s) s)
  else match s with
       | EmptyString => None
       | String _ s' => afterFirst sep s'
       end.

(** Host name of [scheme://user@host:port/path]; a string without a
    scheme (no base URL is given) or with an empty host is refused. *)
Definition URL_hostname (u : string) : option string :=
  match afterFirst "://" u with
  | None => None
  | Some rest =>
      let scheme := takeUntil [":"%char] u in
      match scheme with
      | EmptyString => None
      | String c _ =>
          if isAlpha c then
            let authority := takeUntil ["/"%char; "?"%char; "#"%char] rest in
            let hostport := afterLast "@" authority in
            let host := toLowerCase (takeUntil [":"%char] hostport) in
            if nonEmpty host then Some host else None
          else None
      end
  end.

End Ref.

#[export] Instance RefPlatform : Platform := {
  trim := Ref.trim;
  toLowerCase := Ref.toLowerCase;
  Date_parse := Ref.Date_parse;
  LocalTZA := Ref.LocalTZA;
  Date_local := Ref.Date_local;
  toLocaleDateString := Ref.toLocaleDateString;
  toLocaleDateString_monthYear := Ref.toLocaleDateString_monthYear;
  localeCompare := Ref.localeCompare;
  URL_hostname := Ref.URL_hostname
}.

(** ** The specification's wording, as definitions

    These follow the sentences of the specification, not the code; the
    theorems below compare them with the functions of the pages. *)

(** [l1] is [l2] with some elements left out, the order kept. *)
Inductive subseq {A : Type} : list A -> list A -> Prop :=
| subseq_nil : subseq [] []
| subseq_skip : forall x l1 l2, subseq l1 l2 -> subseq l1 (x :: l2)
| subseq_keep : forall x l1 l2, subseq l1 l2 -> subseq (x :: l1) (x :: l2).

Section SpecWords.
Context {P : Platform}.

(** "blank/absent" *)
Definition blank (x : option string) : bool :=
  String.eqb (trim (orEmpty x)) EmptyString.

(** "a positive integer" *)
Definition positiveWeek (w : option Z) : bool :=
  match w with Some n => 0 <? n | None => false end.

(** "if [week_number] is absent and [published_date] parses, set the
    derived week number; otherwise leave as given" *)
Definition derivedWeek (t : Trend) : option Z :=
  match week_number t, safeDate (published_date t) with
  | None, Some d => Some (getISOWeek d)
  | given, _ => given
  end.

(** The record with only its week number replaced. *)
Definition setWeek (t : Trend) (w : option Z) : Trend :=
  mkTrend (id t) (topic t) (category t) (relevance_score t) (summary t)
          (spotify_impact t) (url t) (published_date t) w.

(** "all of {topic, summary, spotify_impact, url, category,
    published_date} are blank/absent AND relevance_score is absent AND
    derived week_number is not a positive integer" *)
Definition dropped (t : Trend) : bool :=
  blank (topic t) && blank (summary t) && blank (spotify_impact t)
  && blank (url t) && blank (category t) && blank (published_date t)
  && match relevance_score t with None => true | Some _ => false end
  && negb (positiveWeek (week_number t)).

(** "keep if (relevance_score ?? 0) >= clamp(minScore, 0, 1)" *)
Definition scoreFloor (minScore : Q) (t : Trend) : bool :=
  Qle_bool (clamp01 minScore) (scoreOr0 t).

(** "if a specific category is selected (not the sentinel all), keep
    only exact (trimmed) string match" *)
Definition categoryMatch (selectedCategory : string) (t : Trend) : bool :=
  String.eqb selectedCategory "all"
  || String.eqb (trim (orEmpty (category t))) selectedCategory.

(** "keep only if the record's bucket key equals the selected bucket
    key, unless the selection is all" *)
Definition slotMatch (groupBy : GroupBy) (selectedSlot : string) (t : Trend) : bool :=
  String.eqb selectedSlot "all"
  || String.eqb (slotKeyForTrend t groupBy) selectedSlot.

(** "lower-case substring match against topic, summary, and category
    fields; if the query is blank, this filter is a no-op" *)
Definition searchMatch (searchQuery : string) (t : Trend) : bool :=
  let q := trim (toLowerCase searchQuery) in
  String.eqb q EmptyString
  || JS.includes (toLowerCase (orEmpty (topic t))) q
  || JS.includes (toLowerCase (orEmpty (summary t))) q
  || JS.includes (toLowerCase (orEmpty (category t))) q.

(** "stripping a leading www." *)
Definition stripWww (h : string) : string :=
  if JS.startsWith h "www." then substring 4 (String.length h - 4) h else h.

(** "isoWeekday, where Sunday counts as weekday 7", of a day number *)
Definition isoWeekday (D : Z) : Z :=
  if (D + 4) mod 7 =? 0 then 7 else (D + 4) mod 7.

(** "shift the date to the Thursday of its week (date + (4 - isoWeekday))",
    as a time value at midnight UTC, for a local day number *)
Definition thursdayOf (D : Z) : Z := (D + 4 - isoWeekday D) * JS.msPerDay.

End SpecWords.



(** Every character of [s] satisfies [p]. *)
Fixpoint allChars (p : ascii -> bool) (s : string) : bool :=
  match s with
  | EmptyString => true
  | String c s' => p c && allChars p s'
  end.

(** A digit or a minus sign: the characters of a printed integer. *)
Definition isNumeric (c : ascii) : bool := JS.isDigit c || Ascii.eqb c "-".

(** The number the week comparator reads off a label:
    [Number(label.replace(/\D/g, "")) || 0]. *)
Definition labelNumber (label : string) : Z :=
  JS.or0 (JS.Number (JS.replace_nondigits label)).

(** A record has no usable week: [week_number] is absent or 0. *)
Definition unknownWeek (t : Trend) : Prop :=
  week_number t = None \/ week_number t = Some 0.

(** ** Notions used by the proofs *)

(** A comparator is consistent when "not after" is total and
    transitive. *)
Definition consistent {A : Type} (cmp : A -> A -> Z) : Prop :=
  (forall a b, 0 < cmp a b -> cmp b a <= 0)
  /\ (forall a b c, cmp a b <= 0 -> cmp b c <= 0 -> cmp a c <= 0).

(** The loop shared by [grouped] and [bySource]: every record is
    pushed under its key. *)
Definition groupBy_key {V : Type} (key : V -> string) (l : list V) : JS.MapArr V :=
  fold_left (fun m t => JS.Map_push m (key t) t) l [].

(** What the map holds after the records [l] were pushed. *)
Definition grouped_inv {V : Type} (key : V -> string) (m : JS.MapArr V) (l : list V) : Prop :=
  NoDup (JS.Map_keys m)
  /\ (forall k vs, In (k, vs) m -> vs = filter (fun t => String.eqb (key t) k) l)
  /\ (forall k, In k (JS.Map_keys m) <-> exists t, In t l /\ key t = k).

(** The labels of [grouped] in the order the page shows them. *)
Definition sortedLabels {P : Platform} (filtered : list Trend) (groupBy : GroupBy) : list string :=
  JS.sort (compareLabels groupBy) (JS.Map_keys (groupBy_key (labelOf groupBy) filtered)).

(** Linear arithmetic with division and remainder by constants. *)
Ltac div_lia := Z.to_euclidean_division_equations; lia.

(** Case analysis on every [<?] of the goal. *)
Ltac split_ltb :=
  repeat match goal with
         | |- context [Z.ltb ?x ?y] => destruct (Z.ltb_spec x y)
         end.

(** ** Sample records *)

(** A record that carries only a score. *)
Definition scored (n : Z) (s : Q) : Trend :=
  mkTrend (IdNumber n) None None (Some s) None None None None None.

(** One record in each band. *)
Definition sampleThirds : list Trend :=
  [scored 1 (9 # 10); scored 2 (7 # 10); scored 3 (1 # 10)].


(** A record that carries a topic and, if given, a URL. *)
Definition withUrl (n : Z) (u : option string) : Trend :=
  mkTrend (IdNumber n) (Some "topic") None None None None u None None.

(** Two records whose URLs do not parse, and one without a URL. *)
Definition sampleSources : list Trend :=
  [withUrl 1 (Some "foo"); withUrl 2 (Some "bar"); withUrl 3 None].

(** A record with a topic, a publication date and, if given, a week. *)
Definition dated (n : Z) (d : string) (w : option Z) : Trend :=
  mkTrend (IdNumber n) (Some "topic") None None None None None (Some d) w.

(** Two days of one week, the later one first, as the data source
    delivers them. *)
Definition sampleDays : list Trend :=
  [dated 1 "2026-02-10" None; dated 2 "2026-02-09" None].

(** Two months of one year, the later one first. *)
Definition sampleMonths : list Trend :=
  [dated 1 "2026-04-10" None; dated 2 "2026-03-09" None].

(** Scenario B: published on 10 February 2026, no week number. *)
Definition sampleB : Trend := dated 1 "2026-02-10" None.

(** Scenario D: records of weeks 4, 5, 5 and 6. *)
Definition sampleWeeks : list Trend :=
  [dated 1 "2026-01-20" (Some 4); dated 2 "2026-01-27" (Some 5);
   dated 3 "2026-01-28" (Some 5); dated 4 "2026-02-03" (Some 6)].

(** * More of the pages

    The option lists of the controls, the remaining figures of the
    KPI cards and source groups, the open/closed state of cards and
    source groups, and the Basic-auth middleware. *)

(** ** Insertion-ordered [Set] *)

(** [set.add(x)] *)
Definition Set_add {A : Type} (eqb : A -> A -> bool) (s : list A) (x : A) : list A :=
  if existsb (eqb x) s then s else (s ++ [x])%list.

(** [for (const t of l) if (...) set.add(...)], then [Array.from(set)]:
    [f t] is the value added for [t], [None] when the guard skips it. *)
Definition Set_from {A B : Type} (eqb : A -> A -> bool) (f : B -> option A)
    (l : list B) : list A :=
  fold_left (fun s t => match f t with Some x => Set_add eqb s x | None => s end) l [].

(** ** Counting [Map<string, number>] *)

(** [map.set(k, (map.get(k) ?? 0) + 1)]: a key that is present keeps
    its place. *)
Fixpoint Map_increment (m : list (string * nat)) (k : string) : list (string * nat) :=
  match m with
  | [] => [(k, 1%nat)]
  | (k', n) :: m' =>
      if String.eqb k' k then (k', S n) :: m' else (k', n) :: Map_increment m' k
  end.

(** ** [Record<string, boolean>] state *)

Definition OpenState : Type := list (string * bool).

(** [state[k]], [None] when [k] is not in [state] *)
Definition State_get (state : OpenState) (k : string) : option bool :=
  option_map snd (find (fun kv => String.eqb (fst kv) k) state).

(** The property names every plain object inherits from
    [Object.prototype]; their values are functions or, for
    [__proto__], the prototype object. *)
Definition Object_prototype_keys : list string :=
  ["constructor"; "hasOwnProperty"; "isPrototypeOf"; "propertyIsEnumerable";
   "toLocaleString"; "toString"; "valueOf"; "__proto__";
   "__defineGetter__"; "__defineSetter__"; "__lookupGetter__"; "__lookupSetter__"].

Definition inherited (k : string) : bool :=
  existsb (String.eqb k) Object_prototype_keys.

(** [k in state] *)
Definition State_has (state : OpenState) (k : string) : bool :=
  match State_get state k with
  | Some _ => true
  | None => inherited k
  end.

(** [Boolean(state[k])]: an own property holds a boolean, an inherited
    one is truthy, a missing one is [undefined]. *)
Definition State_truthy (state : OpenState) (k : string) : bool :=
  match State_get state k with
  | Some b => b
  | None => inherited k
  end.

(** [{ ...state, [k]: v }] *)
Fixpoint State_set (state : OpenState) (k : string) (v : bool) : OpenState :=
  match state with
  | [] => [(k, v)]
  | (k', v') :: state' =>
      if String.eqb k' k then (k', v) :: state' else (k', v') :: State_set state' k v
  end.

Section MorePages.
Context {P : Platform}.

(** [a.localeCompare(b)] without a locale argument: the collation of
    the browser's default locale. *)
Variable localeCompareDefault : string -> string -> Z.

(** *** Option lists *)

(** The comparator of [keys.sort(...)] in [slotOptions].  A comparator
    result of [NaN] counts as 0 in [Array.prototype.sort]. *)
Definition compareSlotKeys (groupBy : GroupBy) (a b : string) : Z :=
  if JS.endsWith a ":unknown" && negb (JS.endsWith b ":unknown") then 1
  else if negb (JS.endsWith a ":unknown") && JS.endsWith b ":unknown" then -1
  else
    let av := JS.at_or_empty (JS.split ":" a) 1 in
    let bv := JS.at_or_empty (JS.split ":" b) 1 in
    match groupBy with
    | ByWeek =>
        match JS.Number bv, JS.Number av with
        | Some x, Some y => x - y
        | _, _ => 0
        end
    | _ => localeCompareDefault bv av
    end.

(** The keys of [slotOptions], sorted. *)
Definition slotOptionKeys (groupBy : GroupBy) (normalizedTrends : list Trend) : list string :=
  JS.sort (compareSlotKeys groupBy)
          (Set_from String.eqb (fun t => Some (slotKeyForTrend t groupBy)) normalizedTrends).

(** [slotOptions]: [{ key, label }] for every key. *)
Definition slotOptions (groupBy : GroupBy) (normalizedTrends : list Trend)
    : list (string * string) :=
  map (fun key => (key, slotLabelFromKey key groupBy))
      (slotOptionKeys groupBy normalizedTrends).

(** [categories]: [if (t.category && t.category.trim())
    set.add(t.category.trim())], sorted with [a.localeCompare(b)]. *)
Definition categories (normalizedTrends : list Trend) : list string :=
  JS.sort localeCompareDefault
          (Set_from String.eqb
             (fun t => match category t with
                       | Some c => if nonEmpty c && nonEmpty (trim c)
                                   then Some (trim c) else None
                       | None => None
                       end) normalizedTrends).

(** [exportMonths]: the month keys of the dates that parse, sorted with
    [b.localeCompare(a)]. *)
Definition exportMonths (normalizedTrends : list Trend) : list string :=
  JS.sort (fun a b => localeCompareDefault b a)
          (Set_from String.eqb
             (fun t => option_map monthKey (safeDate (published_date t)))
             normalizedTrends).

(** [exportWeeks]: the positive week numbers, sorted with [b - a]. *)
Definition exportWeeks (normalizedTrends : list Trend) : list Z :=
  JS.sort (fun a b => b - a)
          (Set_from Z.eqb
             (fun t => match week_number t with
                       | Some w => if 0 <? w then Some w else None
                       | None => None
                       end) normalizedTrends).

(** *** Top category and bars *)

(** [(t.category ?? "").trim() || "Unkategorisiert"] *)
Definition categoryOrDefault (t : Trend) : string :=
  let c := trim (orEmpty (category t)) in
  if nonEmpty c then c else "Unkategorisiert".

(** The [categoryCount] map of [kpis], and the [map] of [topCat]. *)
Definition categoryCount (items : list Trend) : list (string * nat) :=
  fold_left (fun m t => Map_increment m (categoryOrDefault t)) items [].

(** [(a, b) => b[1] - a[1]] *)
Definition compareCounts (a b : string * nat) : Z :=
  Z.of_nat (snd b) - Z.of_nat (snd a).

(** [topCat] of a source group:
    [Array.from(map.entries()).sort(...)[0]?.[0] ?? ""].  The
    [topCategory] of [kpis] is the same expression with a dash as the
    fallback. *)
Definition topCat (items : list Trend) : string :=
  match JS.sort compareCounts (categoryCount items) with
  | e :: _ => fst e
  | [] => EmptyString
  end.

(** [bars] of [kpis]: [.sort(...).slice(0, 6)], as (name, value). *)
Definition bars (filtered : list Trend) : list (string * nat) :=
  firstn 6 (JS.sort compareCounts (categoryCount filtered)).

(** *** Source groups and cards *)

(** [high] and [mid] of a source group. *)
Definition sourceGroupHigh (items : list Trend) : nat :=
  List.length (filter (fun t => Qle_bool (8 # 10) (scoreOr0 t)) items).

Definition sourceGroupMid (items : list Trend) : nat :=
  List.length (filter (fun t => Qle_bool (6 # 10) (scoreOr0 t)
                                && Qlt_bool (scoreOr0 t) (8 # 10)) items).

(** [scoreColor] of the page with source groups; the score is a finite
    number or [null]. *)
Definition scoreColor (score : option Q) : string :=
  match score with
  | None => "text-muted-foreground"
  | Some score =>
      let s := clamp01 score in
      if Qle_bool (8 # 10) s then "text-score-high"
      else if Qle_bool (6 # 10) s then "text-score-mid"
      else "text-score-low"
  end.

(** [`${label}::${domain}`] *)
Definition groupKey (label domain : string) : string := label ++ "::" ++ domain.

(** [sourceItems.length <= 3] *)
Definition defaultOpen (sourceItems : list Trend) : bool :=
  (List.length sourceItems <=? 3)%nat.

(** [groupKey in sourceGroupOpen ? sourceGroupOpen[groupKey] : defaultOpen],
    as the condition [isOpen ? ... : null] of the group reads it. *)
Definition sourceGroupIsOpen (sourceGroupOpen : OpenState) (key : string)
    (defaultOpen : bool) : bool :=
  if State_has sourceGroupOpen key then State_truthy sourceGroupOpen key
  else defaultOpen.

(** [{ ...prev, [key]: !(key in prev ? prev[key] : defaultOpen) }] *)
Definition toggleSourceGroup (prev : OpenState) (key : string) (defaultOpen : bool)
    : OpenState :=
  State_set prev key
    (negb (if State_has prev key then State_truthy prev key else defaultOpen)).

(** [String(id)] *)
Definition idKey (i : TrendId) : string :=
  match i with
  | IdNumber n => JS.String_of n
  | IdString s => s
  end.

(** [Boolean(expanded[String(t.id)])] *)
Definition cardIsOpen (expanded : OpenState) (t : Trend) : bool :=
  State_truthy expanded (idKey (id t)).

(** [{ ...prev, [key]: !prev[key] }] with [key = String(id)] *)
Definition toggleExpanded (prev : OpenState) (i : TrendId) : OpenState :=
  State_set prev (idKey i) (negb (State_truthy prev (idKey i))).

(** The score badge of a card: [score !== null ? scoreColor(score) : null]
    with [score = t.relevance_score ?? null]. *)
Definition scoreBadge (t : Trend) : option string :=
  match relevance_score t with
  | Some score => Some (scoreColor (Some score))
  | None => None
  end.

End MorePages.

(** ** The Basic-auth middleware *)

Inductive MiddlewareResult : Type :=
| PassThrough   (** [NextResponse.next()] *)
| AuthRequired  (** status 401 with [WWW-Authenticate] *)
| Thrown.       (** [atob] threw *)

(** [Boolean(x)] of a string that may be [undefined] or [null] *)
Definition truthy (x : option string) : bool :=
  match x with
  | Some s => nonEmpty s
  | None => false
  end.

(** [middleware]: [user] and [pass] are the two environment variables,
    [authHeader] is [req.headers.get("authorization")], and [atob] is
    the runtime's base64 decoder ([None] when it throws). *)
Definition middleware (atob : string -> option string)
    (user pass authHeader : option string) : MiddlewareResult :=
  if negb (truthy user) || negb (truthy pass) then PassThrough
  else
    match authHeader with
    | Some h =>
        if nonEmpty h then
          let parts := JS.split " " h in
          let scheme := JS.at_or_empty parts 0 in
          let encoded := nth_error parts 1 in
          if String.eqb scheme "Basic" && truthy encoded then
            match atob (orEmpty encoded) with
            | None => Thrown
            | Some decoded =>
                let fields := JS.split ":" decoded in
                let u := nth_error fields 0 in
                let p := nth_error fields 1 in
                match u, p, user, pass with
                | Some u, Some p, Some user, Some pass =>
                    if String.eqb u user && String.eqb p pass then PassThrough
                    else AuthRequired
                | _, _, _, _ => AuthRequired
                end
            end
          else AuthRequired
        else AuthRequired
    | None => AuthRequired
    end.

(** The number of [items] counted under the category [c]. *)
Definition categoryTally {P : Platform} (items : list Trend) (c : string) : nat :=
  List.length (filter (fun t => String.eqb (categoryOrDefault t) c) items).

(** A string without the character [sep]. *)
Definition freeOf (sep : ascii) (s : string) : bool :=
  allChars (fun c => negb (Ascii.eqb c sep)) s.

(** ** The week before the current one *)

(** [currentWeek > 1 ? currentWeek - 1 : 52] *)
Definition previousWeek (currentWeek : Z) : Z :=
  if 1 <? currentWeek then currentWeek - 1 else 52.

(** The day number of 1 January of the year [y]. *)
Definition newYear (y : Z) : Z := JS.days_from_civil y 1 1.

(** The ISO week of a day number: whole weeks from 1 January of the
    Thursday's year to the Thursday of the week, plus one. *)
Definition weekOfDay (D : Z) : Z :=
  let T := D + 4 - isoWeekday D in
  (T - newYear (fst (fst (JS.civil_from_days T)))) / 7 + 1.

(** [fields.join(sep)] *)
Fixpoint join (sep : ascii) (fields : list string) : string :=
  match fields with
  | [] => EmptyString
  | [f] => f
  | f :: fs => f ++ String sep (join sep fs)
  end.

(** The badge of [t] is [color]. *)
Definition hasBadge (color : string) (t : Trend) : bool :=
  match scoreBadge t with
  | Some c => String.eqb c color
  | None => false
  end.

(** A key of week mode. *)
Inductive weekKey : string -> Prop :=
| weekKey_unknown : weekKey "week:unknown"
| weekKey_known : forall w, weekKey ("week:" ++ JS.String_of w).

(** Records with categories, for the counts. *)
Definition inCategory (n : Z) (c : option string) : Trend :=
  mkTrend (IdNumber n) (Some "topic") c None None None None None None.

(** Two categories with two records each, and one blank. *)
Definition sampleCategories : list Trend :=
  [inCategory 1 (Some "Audio"); inCategory 2 (Some "Markt"); inCategory 3 None;
   inCategory 4 (Some "Markt"); inCategory 5 (Some " Audio ")].

(** * Properties *)

(** ** Lists *)

Lemma subseq_refl {A : Type} (l : list A) : subseq l l.
Proof.
  induction l as [|x l IH]; constructor; exact IH.
Qed.

Lemma filter_subseq {A : Type} (f : A -> bool) (l : list A) :
  subseq (filter f l) l.
Proof.
  induction l as [|x l IH]; simpl.
  - constructor.
  - destruct (f x); constructor; exact IH.
Qed.

Lemma subseq_length {A : Type} (l1 l2 : list A) :
  subseq l1 l2 -> (List.length l1 <= List.length l2)%nat.
Proof.
  induction 1; simpl; lia.
Qed.

Lemma filter_length_le_impl {A : Type} (f g : A -> bool) (l : list A) :
  (forall x, In x l -> f x = true -> g x = true) ->
  (List.length (filter f l) <= List.length (filter g l))%nat.
Proof.
  induction l as [|x l IH]; intros Himp; simpl.
  - lia.
  - assert (IH' : (List.length (filter f l) <= List.length (filter g l))%nat).
    { apply IH. intros y Hy. apply Himp. now right. }
    destruct (f x) eqn:Hf.
    + rewrite (Himp x (or_introl eq_refl) Hf). simpl. lia.
    + destruct (g x); simpl; lia.
Qed.

Lemma filter_filter_same {A : Type} (f : A -> bool) (l : list A) :
  filter f (filter f l) = filter f l.
Proof.
  induction l as [|x l IH]; simpl; [reflexivity|].
  destruct (f x) eqn:Hf; simpl; [rewrite Hf, IH|]; auto.
Qed.

Lemma filter_nil_on {A : Type} (f : A -> bool) (l : list A) :
  (forall x, In x l -> f x = false) -> filter f l = [].
Proof.
  induction l as [|x l IH]; intro H; simpl; [reflexivity|].
  rewrite (H x) by now left. apply IH. intros y Hy. apply H. now right.
Qed.

Lemma flat_map_ext_on {A B : Type} (f g : A -> list B) (l : list A) :
  (forall x, In x l -> f x = g x) -> flat_map f l = flat_map g l.
Proof.
  induction l as [|x l IH]; intro H; simpl; [reflexivity|].
  rewrite (H x) by now left. f_equal. apply IH. intros y Hy. apply H. now right.
Qed.

Lemma map_id_on {A : Type} (f : A -> A) (l : list A) :
  (forall x, In x l -> f x = x) -> map f l = l.
Proof.
  induction l as [|x l IH]; intros H; simpl; [reflexivity|].
  rewrite H by now left. f_equal. apply IH. intros y Hy. apply H. now right.
Qed.

(** ** Normalisation *)

Section NormaliseFacts.
Context {P : Platform}.

Lemma withWeek_setWeek (t : Trend) : withWeek t = setWeek t (derivedWeek t).
Proof.
  unfold withWeek, setWeek, derivedWeek.
  destruct (week_number t); [reflexivity|].
  destruct (safeDate (published_date t)); reflexivity.
Qed.

Lemma hasContent_dropped (t : Trend) : hasContent t = negb (dropped t).
Proof.
  unfold hasContent, dropped, blank, positiveWeek, nonEmpty.
  destruct (trim (orEmpty (topic t)) =? "")%string;
  destruct (trim (orEmpty (summary t)) =? "")%string;
  destruct (trim (orEmpty (spotify_impact t)) =? "")%string;
  destruct (trim (orEmpty (url t)) =? "")%string;
  destruct (trim (orEmpty (category t)) =? "")%string;
  destruct (trim (orEmpty (published_date t)) =? "")%string;
  destruct (relevance_score t); destruct (week_number t) as [w|];
  try destruct (0 <? w); reflexivity.
Qed.

Lemma withWeek_idem (t : Trend) : withWeek (withWeek t) = withWeek t.
Proof.
  unfold withWeek; simpl.
  destruct (week_number t); [reflexivity|].
  destruct (safeDate (published_date t)); reflexivity.
Qed.

End NormaliseFacts.

(** C3. The Normalizer sets [week_number] to the ISO week of the parsed
    [published_date] exactly when the week is absent and the date
    parses, and otherwise leaves it as given; it then drops a record if
    and only if topic, summary, spotify_impact, url, category and
    published_date are all blank or absent, the score is absent and the
    derived week is not a positive integer.  The output keeps the
    relative order of the records it keeps. *)
Theorem normalizedTrends_spec {P : Platform} (trends : list Trend) :
  normalizedTrends trends
  = filter (fun t => negb (dropped t))
           (map (fun t => setWeek t (derivedWeek t)) trends)
  /\ subseq (normalizedTrends trends)
            (map (fun t => setWeek t (derivedWeek t)) trends)
  /\ (forall t', In t' (normalizedTrends trends) <->
        exists t, In t trends /\ t' = setWeek t (derivedWeek t) /\ dropped t' = false).
Proof.
  assert (E : normalizedTrends trends
              = filter (fun t => negb (dropped t))
                       (map (fun t => setWeek t (derivedWeek t)) trends)).
  { unfold normalizedTrends.
    rewrite (map_ext _ _ withWeek_setWeek).
    apply filter_ext. intro t. apply hasContent_dropped. }
  split; [exact E|]. split.
  - rewrite E. apply filter_subseq.
  - intro t'. rewrite E, filter_In, in_map_iff. split.
    + intros [[t [Ht Hin]] Hd]. exists t. repeat split; auto.
      now apply negb_true_iff.
    + intros [t [Hin [Ht Hd]]]. split.
      * exists t. auto.
      * now apply negb_true_iff.
Qed.

(** C4. Normalisation is idempotent:
    [normalize(normalize(records)) = normalize(records)]. *)
Theorem normalizedTrends_idempotent {P : Platform} (records : list Trend) :
  normalizedTrends (normalizedTrends records) = normalizedTrends records.
Proof.
  unfold normalizedTrends.
  assert (Hfix : map withWeek (filter hasContent (map withWeek records))
                 = filter hasContent (map withWeek records)).
  { apply map_id_on. intros t Ht.
    apply filter_In in Ht. destruct Ht as [Ht _].
    apply in_map_iff in Ht. destruct Ht as [t0 [<- _]].
    apply withWeek_idem. }
  rewrite Hfix. apply filter_filter_same.
Qed.

(** ** Filter *)

Section FilterFacts.
Context {P : Platform}.

Lemma filtered_keep_spec groupBy minScore cat slot searchQuery (t : Trend) :
  filtered_keep groupBy (clamp01 minScore) cat slot (trim (toLowerCase searchQuery)) t
  = scoreFloor minScore t && categoryMatch cat t && slotMatch groupBy slot t
    && searchMatch searchQuery t.
Proof.
  unfold filtered_keep, scoreFloor, categoryMatch, slotMatch, searchMatch, Qlt_bool, nonEmpty.
  destruct (Qle_bool (clamp01 minScore) (scoreOr0 t)); simpl; [|reflexivity].
  destruct (cat =? "all")%string; simpl;
    [|destruct (trim (orEmpty (category t)) =? cat)%string; simpl; [|reflexivity]].
  all: destruct (slot =? "all")%string; simpl;
    [|destruct (slotKeyForTrend t groupBy =? slot)%string; simpl; [|reflexivity]].
  all: destruct (trim (toLowerCase searchQuery) =? "")%string; simpl; try reflexivity.
  all: destruct (JS.includes (toLowerCase (orEmpty (topic t))) _
                 || JS.includes (toLowerCase (orEmpty (summary t))) _
                 || JS.includes (toLowerCase (orEmpty (category t))) _); reflexivity.
Qed.

Lemma filtered_as_filter groupBy minScore cat slot searchQuery (l : list Trend) :
  filtered groupBy minScore cat slot searchQuery l
  = filter (fun t => scoreFloor minScore t && categoryMatch cat t
                     && slotMatch groupBy slot t && searchMatch searchQuery t) l.
Proof.
  unfold filtered. apply filter_ext. intro t. apply filtered_keep_spec.
Qed.

Lemma filtered_basic_as_filter groupBy minScore cat slot (l : list Trend) :
  filtered_basic groupBy minScore cat slot l
  = filter (fun t => scoreFloor minScore t && categoryMatch cat t
                     && slotMatch groupBy slot t) l.
Proof.
  unfold filtered_basic. apply filter_ext. intro t.
  unfold scoreFloor, categoryMatch, slotMatch, Qlt_bool.
  destruct (Qle_bool (clamp01 minScore) (scoreOr0 t)); simpl; [|reflexivity].
  destruct (cat =? "all")%string; simpl;
    [|destruct (trim (orEmpty (category t)) =? cat)%string; simpl; [|reflexivity]].
  all: destruct (slot =? "all")%string; simpl; try reflexivity.
  all: destruct (slotKeyForTrend t groupBy =? slot)%string; reflexivity.
Qed.

Lemma clamp01_monotone (m1 m2 : Q) : (m1 <= m2)%Q -> (clamp01 m1 <= clamp01 m2)%Q.
Proof.
  intro H. unfold clamp01.
  apply Q.max_le_compat_l. apply Q.min_le_compat_l. exact H.
Qed.

Lemma scoreFloor_antitone (m1 m2 : Q) (t : Trend) :
  (m1 <= m2)%Q -> scoreFloor m2 t = true -> scoreFloor m1 t = true.
Proof.
  unfold scoreFloor. intros H H2.
  apply Qle_bool_iff. apply Qle_bool_iff in H2.
  eapply Qle_trans; [apply clamp01_monotone; exact H | exact H2].
Qed.

End FilterFacts.


(** C6. The filter is monotone in the score floor: with the category,
    time-bucket and search parameters fixed, raising [minScore] from
    [m1] to [m2] never increases the number of records kept. *)
Theorem filtered_monotone_minScore {P : Platform} groupBy cat slot searchQuery
    (R : list Trend) (m1 m2 : Q) :
  (m1 <= m2)%Q ->
  (List.length (filtered groupBy m2 cat slot searchQuery R)
   <= List.length (filtered groupBy m1 cat slot searchQuery R))%nat
  /\ (List.length (filtered_basic groupBy m2 cat slot R)
      <= List.length (filtered_basic groupBy m1 cat slot R))%nat.
Proof.
  intro Hm.
  rewrite !filtered_as_filter, !filtered_basic_as_filter.
  split; apply filter_length_le_impl; intros t _ Ht;
    rewrite !andb_true_iff in *.
  - destruct Ht as [[[Hs Hc] Hk] Hq].
    repeat split; auto. eapply scoreFloor_antitone; eauto.
  - destruct Ht as [[Hs Hc] Hk].
    repeat split; auto. eapply scoreFloor_antitone; eauto.
Qed.

(** ** Calendar arithmetic *)

Lemma days_from_civil_day (y m d : Z) :
  JS.days_from_civil y m d = JS.days_from_civil y m 1 + d - 1.
Proof.
  unfold JS.days_from_civil. cbv zeta. lia.
Qed.

Lemma civil_from_days_inverse (z : Z) :
  JS.days_from_civil (fst (fst (JS.civil_from_days z)))
                     (snd (fst (JS.civil_from_days z)))
                     (snd (JS.civil_from_days z)) = z.
Proof.
  unfold JS.civil_from_days, JS.days_from_civil.
  cbv zeta. cbn [fst snd].
  set (z' := z + 719468).
  set (era := z' / 146097).
  set (doe := z' - era * 146097).
  assert (Hdoe : 0 <= doe < 146097) by (unfold doe, era; div_lia).
  assert (Hz : z = era * 146097 + doe - 719468) by (unfold doe, z'; lia).
  clearbody doe era. clear z'. subst z.
  set (yoe := (doe - doe / 1460 + doe / 36524 - doe / 146096) / 365).
  assert (Hyoe : 0 <= yoe <= 399) by (unfold yoe; div_lia).
  set (doy := doe - (365 * yoe + yoe / 4 - yoe / 100)).
  assert (Hdoy : 0 <= doy <= 365) by (unfold doy, yoe; div_lia).
  assert (Hdoe' : doe = yoe * 365 + yoe / 4 - yoe / 100 + doy) by (unfold doy; lia).
  clearbody doy. clearbody yoe.
  set (mp := (5 * doy + 2) / 153).
  assert (Hmp : 0 <= mp <= 11) by (unfold mp; div_lia).
  clearbody mp.
  destruct (mp <? 10) eqn:Hlt.
  - apply Z.ltb_lt in Hlt.
    destruct (mp + 3 <=? 2) eqn:H2; [apply Z.leb_le in H2; lia|].
    replace (mp + 3 - 3) with mp by lia.
    replace ((yoe + era * 400) / 400) with era by div_lia.
    replace (yoe + era * 400 - era * 400) with yoe by lia.
    lia.
  - apply Z.ltb_ge in Hlt.
    destruct (mp - 9 <=? 2) eqn:H2; [|apply Z.leb_gt in H2; lia].
    replace (mp - 9 + 9) with mp by lia.
    replace (yoe + era * 400 + 1 - 1) with (yoe + era * 400) by lia.
    replace ((yoe + era * 400) / 400) with era by div_lia.
    replace (yoe + era * 400 - era * 400) with yoe by lia.
    lia.
Qed.

Lemma civil_month_range (z : Z) : 1 <= snd (fst (JS.civil_from_days z)) <= 12.
Proof.
  unfold JS.civil_from_days. cbv zeta. cbn [fst snd].
  match goal with |- context [(5 * ?doy + 2) / 153] => set (d := doy) end.
  assert (0 <= d <= 365) by (unfold d; div_lia).
  clearbody d.
  destruct ((5 * d + 2) / 153 <? 10) eqn:E;
    [apply Z.ltb_lt in E | apply Z.ltb_ge in E]; div_lia.
Qed.

(** From 1 March 1600 on the year is past the range 0..99 that
    [Date.UTC] reads as 1900..1999. *)
Lemma civil_year_lower (z : Z) :
  -3 <= z -> 1600 <= fst (fst (JS.civil_from_days z)).
Proof.
  intro Hz. unfold JS.civil_from_days. cbv zeta. cbn [fst snd].
  set (z' := z + 719468).
  set (era := z' / 146097).
  assert (4 <= era) by (unfold era, z'; div_lia).
  set (doe := z' - era * 146097).
  assert (Hdoe : 0 <= doe < 146097) by (unfold doe, era; div_lia).
  clearbody doe.
  set (yoe := (doe - doe / 1460 + doe / 36524 - doe / 146096) / 365).
  assert (Hyoe : 0 <= yoe <= 399) by (unfold yoe; div_lia).
  clearbody yoe era.
  match goal with |- context [if ?c then _ else _] => destruct c end; lia.
Qed.

Lemma Day_of_midnight (D : Z) : JS.Day (D * JS.msPerDay) = D.
Proof.
  unfold JS.Day, JS.msPerDay. div_lia.
Qed.

(** [Date.UTC] of the calendar fields of a day is that day's midnight. *)
Lemma Date_UTC_of_fields (D : Z) :
  -3 <= D ->
  JS.Date_UTC (fst (fst (JS.civil_from_days D)))
              (snd (fst (JS.civil_from_days D)) - 1)
              (snd (JS.civil_from_days D))
  = D * JS.msPerDay.
Proof.
  intro HD. unfold JS.Date_UTC, JS.MakeDay. cbv zeta.
  pose proof (civil_year_lower D HD) as Hy.
  pose proof (civil_month_range D) as Hm.
  set (y := fst (fst (JS.civil_from_days D))) in *.
  set (m := snd (fst (JS.civil_from_days D))) in *.
  replace ((0 <=? y) && (y <=? 99)) with false
    by (symmetry; apply andb_false_iff; right; apply Z.leb_gt; lia).
  replace ((m - 1) / 12) with 0 by div_lia.
  replace ((m - 1) mod 12 + 1) with m by div_lia.
  rewrite Z.add_0_r.
  rewrite <- days_from_civil_day.
  unfold y, m. rewrite civil_from_days_inverse. reflexivity.
Qed.

(** Moving the day of the month by [k] moves the date by [k] days. *)
Lemma setUTCDate_shift (D k : Z) :
  JS.setUTCDate (D * JS.msPerDay) (JS.getUTCDate (D * JS.msPerDay) + k)
  = (D + k) * JS.msPerDay.
Proof.
  unfold JS.setUTCDate, JS.getUTCFullYear, JS.getUTCMonth, JS.getUTCDate, JS.MakeDay.
  cbv zeta. rewrite Day_of_midnight.
  pose proof (civil_month_range D) as Hm.
  set (m := snd (fst (JS.civil_from_days D))) in *.
  replace ((m - 1) / 12) with 0 by div_lia.
  replace ((m - 1) mod 12 + 1) with m by div_lia.
  rewrite Z.add_0_r.
  pose proof (civil_from_days_inverse D) as Hinv. fold m in Hinv.
  rewrite days_from_civil_day in Hinv.
  replace (D * JS.msPerDay mod JS.msPerDay) with 0
    by (unfold JS.msPerDay; div_lia).
  lia.
Qed.

Lemma isoWeekday_range (D : Z) : 1 <= isoWeekday D <= 7.
Proof.
  unfold isoWeekday.
  destruct ((D + 4) mod 7 =? 0) eqn:E; [lia|].
  apply Z.eqb_neq in E. div_lia.
Qed.

Lemma thursdayOf_is_thursday (D : Z) : JS.getUTCDay (thursdayOf D) = 4.
Proof.
  unfold thursdayOf, JS.getUTCDay. rewrite Day_of_midnight.
  unfold isoWeekday.
  destruct ((D + 4) mod 7 =? 0) eqn:E.
  - apply Z.eqb_eq in E. div_lia.
  - div_lia.
Qed.

(** [Math.ceil((n + 1) / 7)] for a whole number of days [n]. *)
Lemma ceil_weeks (n : Z) :
  Qceiling ((inject_Z (n * 86400000) / inject_Z 86400000 + 1) / 7)%Q = n / 7 + 1.
Proof.
  assert (E : ((inject_Z (n * 86400000) / inject_Z 86400000 + 1) / 7 == (n + 1) # 7)%Q).
  { unfold Qeq, Qdiv, Qmult, Qplus, Qinv, inject_Z. simpl. lia. }
  rewrite (Qceiling_comp _ _ E).
  unfold Qceiling, Qfloor, Qopp. simpl. div_lia.
Qed.

(** ** ISO week *)

Section WeekFacts.
Context {P : Platform}.

(** [Date.UTC] of the local calendar fields is midnight UTC of the
    local day. *)
Lemma Date_UTC_local_fields (date : Z) :
  -3 <= JS.Day (date + LocalTZA date) ->
  JS.Date_UTC (getFullYear date) (getMonth date) (getDate date)
  = JS.Day (date + LocalTZA date) * JS.msPerDay.
Proof.
  intro HD.
  unfold getFullYear, getMonth, getDate,
    JS.getUTCFullYear, JS.getUTCMonth, JS.getUTCDate.
  apply Date_UTC_of_fields. exact HD.
Qed.

(** The week number is the number of whole weeks from 1 January of the
    Thursday's year to the Thursday, plus one. *)
Lemma getISOWeek_by_thursday (date : Z) :
  0 <= date + LocalTZA date ->
  getISOWeek date
  = (JS.Day (thursdayOf (JS.Day (date + LocalTZA date)))
     - JS.Day (JS.Date_UTC
                 (JS.getUTCFullYear (thursdayOf (JS.Day (date + LocalTZA date)))) 0 1)) / 7 + 1
  /\ getISOWeek date
     = Qceiling
         ((inject_Z
             (thursdayOf (JS.Day (date + LocalTZA date))
              - JS.Date_UTC
                  (JS.getUTCFullYear (thursdayOf (JS.Day (date + LocalTZA date)))) 0 1)
           / inject_Z 86400000 + 1) / 7)%Q.
Proof.
  intro Hpos.
  unfold getISOWeek. cbv zeta.
  set (D := JS.Day (date + LocalTZA date)).
  assert (HD : 0 <= D) by (unfold D, JS.Day, JS.msPerDay; div_lia).
  rewrite Date_UTC_local_fields by (fold D; lia).
  fold D. clearbody D.
  assert (Hiso : (if JS.getUTCDay (D * JS.msPerDay) =? 0 then 7
                  else JS.getUTCDay (D * JS.msPerDay)) = isoWeekday D).
  { unfold JS.getUTCDay, isoWeekday. rewrite Day_of_midnight. reflexivity. }
  rewrite Hiso.
  replace (JS.getUTCDate (D * JS.msPerDay) + 4 - isoWeekday D)
    with (JS.getUTCDate (D * JS.msPerDay) + (4 - isoWeekday D)) by lia.
  rewrite setUTCDate_shift.
  replace ((D + (4 - isoWeekday D)) * JS.msPerDay) with (thursdayOf D)
    by (unfold thursdayOf; f_equal; lia).
  pose proof (isoWeekday_range D) as Hr.
  set (T := D + 4 - isoWeekday D).
  assert (HT : thursdayOf D = T * JS.msPerDay) by reflexivity.
  assert (Hy : 1600 <= JS.getUTCFullYear (thursdayOf D)).
  { unfold JS.getUTCFullYear. rewrite HT, Day_of_midnight.
    apply civil_year_lower. unfold T. lia. }
  set (y := JS.getUTCFullYear (thursdayOf D)) in *.
  assert (Hs : JS.Date_UTC y 0 1 = JS.MakeDay y 0 1 * JS.msPerDay).
  { unfold JS.Date_UTC. cbv zeta.
    replace ((0 <=? y) && (y <=? 99)) with false
      by (symmetry; apply andb_false_iff; right; apply Z.leb_gt; lia).
    reflexivity. }
  rewrite Hs, HT, !Day_of_midnight.
  replace (T * JS.msPerDay - JS.MakeDay y 0 1 * JS.msPerDay)
    with ((T - JS.MakeDay y 0 1) * 86400000) by (unfold JS.msPerDay; lia).
  rewrite ceil_weeks. split; reflexivity.
Qed.

(** Midnight UTC of 10 February 2026 is 9 or 10 February in every time
    zone, and both lie in week 7. *)
Lemma getISOWeek_2026_02_10 :
  (forall u, - JS.msPerDay <= LocalTZA u < JS.msPerDay) ->
  getISOWeek (JS.Date_UTC 2026 1 10) = 7.
Proof.
  intro Htz.
  unfold getISOWeek. cbv zeta.
  set (date := JS.Date_UTC 2026 1 10).
  set (D := JS.Day (date + LocalTZA date)).
  assert (HD : D = 20493 \/ D = 20494).
  { specialize (Htz date). unfold D, JS.Day.
    change date with 1770681600000 in *. unfold JS.msPerDay in *. div_lia. }
  rewrite Date_UTC_local_fields by (fold D; lia).
  fold D. clearbody D.
  destruct HD; subst D; vm_compute; reflexivity.
Qed.

End WeekFacts.

(** C5. A record with [published_date = "2026-02-10"] and no
    [week_number] is normalised to week 7, in any time zone; and in
    general (for local dates from 1970 on) [getISOWeek] moves the local
    date to the Thursday of its week, Sunday counting as weekday 7, and
    returns [ceil(((thursday - startOfThursdaysYear)/86400000 + 1)/7)],
    computed on UTC midnights. *)
Theorem getISOWeek_scenario_B {P : Platform} :
  (forall t : Trend,
      Date_parse "2026-02-10" = Some (JS.Date_UTC 2026 1 10) ->
      (forall u, - JS.msPerDay <= LocalTZA u < JS.msPerDay) ->
      published_date t = Some "2026-02-10" ->
      week_number t = None ->
      normalizedTrends [t] = [setWeek t (Some 7)])
  /\ (forall date : Z,
        0 <= date + LocalTZA date ->
        let D := JS.Day (date + LocalTZA date) in
        1 <= isoWeekday D <= 7
        /\ (isoWeekday D = 7 <-> JS.getUTCDay (D * JS.msPerDay) = 0)
        /\ thursdayOf D = (D + (4 - isoWeekday D)) * JS.msPerDay
        /\ JS.getUTCDay (thursdayOf D) = 4
        /\ getISOWeek date
           = Qceiling
               ((inject_Z
                   (thursdayOf D - JS.Date_UTC (JS.getUTCFullYear (thursdayOf D)) 0 1)
                 / inject_Z 86400000 + 1) / 7)%Q).
Proof.
  split.
  - intros t Hparse Htz Hdate Hweek.
    unfold normalizedTrends. simpl.
    assert (Hw : withWeek t = setWeek t (Some 7)).
    { unfold withWeek, setWeek, safeDate. rewrite Hdate, Hweek. simpl.
      rewrite Hparse. simpl. rewrite getISOWeek_2026_02_10 by exact Htz.
      reflexivity. }
    rewrite Hw.
    assert (Hc : hasContent (setWeek t (Some 7)) = true).
    { unfold hasContent. simpl. rewrite !orb_true_r. reflexivity. }
    rewrite Hc. reflexivity.
  - intros date Hpos D.
    split; [apply isoWeekday_range|].
    split.
    { unfold isoWeekday, JS.getUTCDay. rewrite Day_of_midnight.
      destruct ((D + 4) mod 7 =? 0) eqn:E.
      - apply Z.eqb_eq in E. tauto.
      - apply Z.eqb_neq in E. split; [div_lia | tauto]. }
    split; [unfold thursdayOf; f_equal; lia|].
    split; [apply thursdayOf_is_thursday|].
    apply (getISOWeek_by_thursday date Hpos).
Qed.

(** ** Printing and reading integers *)

Lemma Number_String_of (n : Z) : JS.Number (JS.String_of n) = Some n.
Proof.
  unfold JS.Number, JS.String_of.
  destruct (String.eqb_spec (NilEmpty.string_of_int (Z.to_int n)) "-") as [E|_].
  - exfalso.
    pose proof (NilEmpty.isi (Z.to_int n)) as H. rewrite E in H. simpl in H.
    injection H as H.
    pose proof (DecimalZ.of_to n) as Hn. rewrite <- H in Hn. simpl in Hn.
    subst n. discriminate H.
  - rewrite NilEmpty.isi. simpl. now rewrite DecimalZ.of_to.
Qed.

Lemma String_of_injective (a b : Z) : JS.String_of a = JS.String_of b -> a = b.
Proof.
  intro H. apply (f_equal JS.Number) in H.
  rewrite !Number_String_of in H. now injection H.
Qed.

Lemma String_of_not_all (n : Z) : JS.String_of n <> "all".
Proof.
  intro H. apply (f_equal JS.Number) in H.
  rewrite Number_String_of in H. discriminate H.
Qed.

Lemma String_of_not_empty (n : Z) : JS.String_of n <> EmptyString.
Proof.
  intro H. unfold JS.String_of in H.
  destruct (Z.to_int n) as [u|u] eqn:E; simpl in H; [|discriminate].
  destruct u; try discriminate.
  destruct n as [|p|p]; simpl in E; try discriminate.
  injection E as E. apply (f_equal Pos.of_uint) in E.
  rewrite DecimalPos.Unsigned.of_to in E. discriminate E.
Qed.

(** ** Export rows *)

(** C8. The export subset is computed from the normalised records
    handed to it (the display filters are no input of [exportData]):
    scope [all] selects everything, as does the target [all] inside a
    scope; scope [week] with a target week selects the records whose
    week number equals it, scope [month] those whose derived month key
    equals the target, always in their original relative order.  In
    particular, with target week 5 and records of weeks 4, 5, 5, 6 the
    result is exactly the two week-5 records in their order. *)
Theorem exportData_selects {P : Platform} :
  (forall m w l, exportData ScopeAll m w l = l)
  /\ (forall m l, exportData ScopeWeek m "all" l = l)
  /\ (forall w l, exportData ScopeMonth "all" w l = l)
  /\ (forall m (w : Z) l,
        exportData ScopeWeek m (JS.String_of w) l
        = filter (fun t => match week_number t with
                           | Some n => n =? w
                           | None => false
                           end) l)
  /\ (forall mk w l,
        mk <> "all" ->
        exportData ScopeMonth mk w l
        = filter (fun t => match safeDate (published_date t) with
                           | Some d => String.eqb (monthKey d) mk
                           | None => false
                           end) l)
  /\ (forall scope m w l, subseq (exportData scope m w l) l)
  /\ (forall m a b c d,
        week_number a = Some 4 -> week_number b = Some 5 ->
        week_number c = Some 5 -> week_number d = Some 6 ->
        exportData ScopeWeek m "5" [a; b; c; d] = [b; c]).
Proof.
  assert (Hweek : forall m (w : Z) l,
             exportData ScopeWeek m (JS.String_of w) l
             = filter (fun t => match week_number t with
                                | Some n => n =? w
                                | None => false
                                end) l).
  { intros m w l. unfold exportData.
    destruct (String.eqb_spec (JS.String_of w) "all") as [E|_];
      [now apply String_of_not_all in E|].
    simpl. apply filter_ext. intro t.
    destruct (week_number t) as [n|].
    - destruct (String.eqb_spec (JS.String_of n) (JS.String_of w)) as [E|E].
      + apply String_of_injective in E. subst. symmetry. apply Z.eqb_refl.
      + symmetry. apply Z.eqb_neq. intro; subst; now apply E.
    - destruct (String.eqb_spec EmptyString (JS.String_of w)) as [E|_]; [|reflexivity].
      symmetry in E. now apply String_of_not_empty in E. }
  split; [intros m w l; reflexivity|].
  split; [intros m l; reflexivity|].
  split; [intros w l; reflexivity|].
  split; [exact Hweek|].
  split; [|split].
  - intros mk w l Hmk. unfold exportData.
    destruct (String.eqb_spec mk "all") as [E|_]; [contradiction|]. reflexivity.
  - intros scope m w l. unfold exportData.
    destruct scope; try apply subseq_refl.
    + destruct (negb (m =? "all")%string); [apply filter_subseq | apply subseq_refl].
    + destruct (negb (w =? "all")%string); [apply filter_subseq | apply subseq_refl].
  - intros m a b c d Ha Hb Hc Hd.
    change "5" with (JS.String_of 5). rewrite Hweek. simpl.
    rewrite Ha, Hb, Hc, Hd. reflexivity.
Qed.

(** ** Bands and donut *)






(** ** Sorting with a comparator *)

Section SortFacts.
Context {A : Type} (cmp : A -> A -> Z).

Lemma insert_perm (x : A) (l : list A) : Permutation (JS.insert cmp x l) (x :: l).
Proof.
  induction l as [|y l IH]; simpl; [reflexivity|].
  destruct (cmp x y <=? 0); [reflexivity|].
  rewrite IH. apply perm_swap.
Qed.

Lemma sort_perm (l : list A) : Permutation (JS.sort cmp l) l.
Proof.
  induction l as [|x l IH]; simpl; [reflexivity|].
  rewrite insert_perm. now constructor.
Qed.

Lemma sort_In (l : list A) (x : A) : In x (JS.sort cmp l) <-> In x l.
Proof.
  split; apply Permutation_in; [|symmetry]; apply sort_perm.
Qed.

Lemma insert_sorted (x : A) (l : list A) :
  consistent cmp ->
  StronglySorted (fun a b => cmp a b <= 0) l ->
  StronglySorted (fun a b => cmp a b <= 0) (JS.insert cmp x l).
Proof.
  intros [Htot Htrans] Hs.
  induction l as [|y l IH]; simpl.
  - constructor; constructor.
  - inversion Hs as [|? ? Hl Hy]; subst.
    destruct (cmp x y <=? 0) eqn:E.
    + apply Z.leb_le in E. constructor; [exact Hs|].
      constructor; [exact E|].
      rewrite Forall_forall in *. intros z Hz.
      eapply Htrans; [exact E|]. now apply Hy.
    + apply Z.leb_gt in E. constructor; [now apply IH|].
      rewrite Forall_forall in *. intros z Hz.
      apply (Permutation_in _ (insert_perm x l)) in Hz.
      destruct Hz as [<-|Hz]; [now apply Htot | now apply Hy].
Qed.

Lemma sort_sorted (l : list A) :
  consistent cmp -> StronglySorted (fun a b => cmp a b <= 0) (JS.sort cmp l).
Proof.
  intro Hc. induction l as [|x l IH]; simpl.
  - constructor.
  - now apply insert_sorted.
Qed.

End SortFacts.

(** [x] stands before [y] in [l]. *)
Lemma sorted_before {A : Type} (R : A -> A -> Prop) (l l1 l2 l3 : list A) (x y : A) :
  StronglySorted R l -> l = (l1 ++ x :: l2 ++ y :: l3)%list -> R x y.
Proof.
  intros Hs ->. revert Hs. induction l1 as [|z l1 IH]; simpl; intro Hs.
  - inversion Hs as [|? ? _ Hall]; subst.
    rewrite Forall_forall in Hall. apply Hall.
    apply in_or_app. right. now left.
  - inversion Hs; subst. now apply IH.
Qed.

Lemma sorted_weaken {A : Type} (R R' : A -> A -> Prop) (l : list A) :
  (forall a b, R a b -> R' a b) -> StronglySorted R l -> StronglySorted R' l.
Proof.
  intros Himp. induction 1 as [|x l Hs IH Hall]; constructor; auto.
  eapply Forall_impl; [|exact Hall]. intros y. apply Himp.
Qed.

Lemma sorted_map {A B : Type} (f : A -> B) (R : B -> B -> Prop) (l : list A) :
  StronglySorted (fun a b => R (f a) (f b)) l -> StronglySorted R (map f l).
Proof.
  induction 1 as [|x l Hs IH Hall]; simpl; constructor; auto.
  rewrite Forall_forall in *. intros y Hy.
  apply in_map_iff in Hy. destruct Hy as [z [<- Hz]]. now apply Hall.
Qed.

(** ** Grouping into an insertion-ordered map *)

Section GroupFacts.
Context {V : Type} (key : V -> string).

Lemma Map_push_keys_In (m : JS.MapArr V) (k : string) (v : V) (k' : string) :
  In k' (JS.Map_keys (JS.Map_push m k v)) <-> k' = k \/ In k' (JS.Map_keys m).
Proof.
  unfold JS.Map_keys. induction m as [|[k0 vs] m IH]; simpl.
  - intuition.
  - destruct (String.eqb_spec k0 k) as [->|Hne]; simpl.
    + intuition.
    + rewrite IH. intuition.
Qed.

Lemma Map_push_NoDup (m : JS.MapArr V) (k : string) (v : V) :
  NoDup (JS.Map_keys m) -> NoDup (JS.Map_keys (JS.Map_push m k v)).
Proof.
  induction m as [|[k0 vs] m IH]; simpl; intro Hnd.
  - constructor; [intros []|constructor].
  - destruct (String.eqb_spec k0 k) as [->|Hne]; simpl; [exact Hnd|].
    inversion Hnd as [|? ? Hnin Hnd']; subst.
    constructor; [|now apply IH].
    intro Hin. apply Map_push_keys_In in Hin.
    destruct Hin as [->|Hin]; [now apply Hne | now apply Hnin].
Qed.

Lemma Map_push_entries (m : JS.MapArr V) (k : string) (v : V) (k' : string) (vs' : list V) :
  NoDup (JS.Map_keys m) ->
  In (k', vs') (JS.Map_push m k v) ->
  (k' <> k /\ In (k', vs') m)
  \/ (k' = k /\ ((exists vs, In (k, vs) m /\ vs' = (vs ++ [v])%list)
                 \/ (~ In k (JS.Map_keys m) /\ vs' = [v]))).
Proof.
  unfold JS.Map_keys. induction m as [|[k0 vs] m IH]; simpl; intros Hnd Hin.
  - destruct Hin as [Hin|[]]. injection Hin as <- <-.
    right. split; [reflexivity|]. right. split; [tauto | reflexivity].
  - inversion Hnd as [|? ? Hnin Hnd']; subst.
    destruct (String.eqb_spec k0 k) as [->|Hne]; simpl in Hin.
    + destruct Hin as [Hin|Hin].
      * injection Hin as <- <-. right. split; [reflexivity|].
        left. exists vs. split; [now left | reflexivity].
      * left. split; [|now right].
        intros ->. apply Hnin. apply in_map_iff. now exists (k, vs').
    + destruct Hin as [Hin|Hin].
      * injection Hin as <- <-. left. split; [exact Hne | now left].
      * destruct (IH Hnd' Hin) as [[Hk Hi]|[-> [[vs0 [Hi ->]]|[Hni ->]]]].
        -- left. split; [exact Hk | now right].
        -- right. split; [reflexivity|]. left. exists vs0. split; [now right | reflexivity].
        -- right. split; [reflexivity|]. right. split; [|reflexivity].
           intros [E|Hi]; [now apply Hne | now apply Hni].
Qed.

Lemma grouped_inv_step (m : JS.MapArr V) (l : list V) (t : V) :
  grouped_inv key m l -> grouped_inv key (JS.Map_push m (key t) t) (l ++ [t]).
Proof.
  intros (Hnd & Hent & Hkeys). split; [|split].
  - now apply Map_push_NoDup.
  - intros k vs Hin. rewrite filter_app. simpl.
    destruct (Map_push_entries _ _ _ _ _ Hnd Hin)
      as [[Hk Hi]|[-> [[vs0 [Hi ->]]|[Hni ->]]]].
    + destruct (String.eqb_spec (key t) k) as [E|_]; [now symmetry in E|].
      rewrite app_nil_r. now apply Hent.
    + rewrite String.eqb_refl. f_equal. now apply Hent.
    + rewrite String.eqb_refl.
      rewrite filter_nil_on; [reflexivity|].
      intros x Hx. apply String.eqb_neq. intro E.
      apply Hni. apply Hkeys. now exists x.
  - intro k. rewrite Map_push_keys_In, Hkeys. split.
    + intros [->|[t0 [Hi <-]]].
      * exists t. split; [apply in_or_app; right; now left | reflexivity].
      * exists t0. split; [apply in_or_app; now left | reflexivity].
    + intros [t0 [Hi <-]]. apply in_app_or in Hi.
      destruct Hi as [Hi|[<-|[]]]; [right; now exists t0 | now left].
Qed.

Lemma grouped_inv_fold (l pre : list V) (m : JS.MapArr V) :
  grouped_inv key m pre ->
  grouped_inv key (fold_left (fun m t => JS.Map_push m (key t) t) l m) (pre ++ l).
Proof.
  revert pre m. induction l as [|t l IH]; intros pre m Hinv; simpl.
  - now rewrite app_nil_r.
  - replace (pre ++ t :: l)%list with ((pre ++ [t]) ++ l)%list
      by (rewrite <- app_assoc; reflexivity).
    apply IH. now apply grouped_inv_step.
Qed.

Lemma groupBy_key_inv (l : list V) : grouped_inv key (groupBy_key key l) l.
Proof.
  unfold groupBy_key. apply (grouped_inv_fold l [] []).
  split; [constructor|]. split.
  - intros k vs [].
  - intro k. simpl. split; [intros [] | intros [t [[] _]]].
Qed.

(** Reading a key of the map gives the records with that key, in
    their order. *)
Lemma groupBy_key_get (l : list V) (k : string) :
  In k (JS.Map_keys (groupBy_key key l)) ->
  JS.Map_get (groupBy_key key l) k = Some (filter (fun t => String.eqb (key t) k) l).
Proof.
  destruct (groupBy_key_inv l) as (_ & Hent & _).
  unfold JS.Map_get, JS.Map_keys. intro Hin.
  destruct (find (fun kv => (fst kv =? k)%string) (groupBy_key key l)) as [[k0 vs]|] eqn:Hf.
  - apply find_some in Hf. destruct Hf as [Hi Hk]. simpl in Hk.
    apply String.eqb_eq in Hk. subst k0. simpl. f_equal. now apply Hent.
  - exfalso. apply in_map_iff in Hin. destruct Hin as [[k0 vs] [E Hi]].
    simpl in E. subst k0.
    apply (find_none _ _ Hf) in Hi. simpl in Hi. now rewrite String.eqb_refl in Hi.
Qed.

(** The groups, read in any order of the keys, hold the records
    exactly once each. *)
Lemma groups_permutation (keys : list string) (l : list V) :
  NoDup keys ->
  (forall t, In t l -> In (key t) keys) ->
  Permutation (flat_map (fun k => filter (fun t => String.eqb (key t) k) l) keys) l.
Proof.
  revert l. induction keys as [|k ks IH]; intros l Hnd Hcov; simpl.
  - destruct l as [|t l]; [reflexivity|]. destruct (Hcov t (or_introl eq_refl)).
  - inversion Hnd as [|? ? Hnin Hnd']; subst.
    set (rest := filter (fun t => negb (String.eqb (key t) k)) l).
    assert (Hsame : flat_map (fun k' => filter (fun t => String.eqb (key t) k') l) ks
                    = flat_map (fun k' => filter (fun t => String.eqb (key t) k') rest) ks).
    { apply flat_map_ext_on. intros k' Hk'. unfold rest.
      clear IH Hcov. induction l as [|x l IHl]; [reflexivity|]. simpl.
      destruct (String.eqb_spec (key x) k') as [E|E].
      - destruct (String.eqb_spec (key x) k) as [E'|_].
        + exfalso. apply Hnin. now rewrite <- E', E.
        + simpl. destruct (String.eqb_spec (key x) k'); [|contradiction].
          now rewrite IHl.
      - destruct (negb (key x =? k)%string); [simpl|exact IHl].
        destruct (String.eqb_spec (key x) k'); [contradiction|exact IHl]. }
    rewrite Hsame, IH; [| exact Hnd' |].
    + unfold rest. clear. induction l as [|x l IHl]; [reflexivity|]. simpl.
      destruct (key x =? k)%string; simpl.
      * now constructor.
      * rewrite <- Permutation_middle. now constructor.
    + intros t Ht. unfold rest in Ht. apply filter_In in Ht. destruct Ht as [Ht Hk].
      destruct (Hcov t Ht) as [E|Hin]; [|exact Hin].
      rewrite E, String.eqb_refl in Hk. discriminate.
Qed.

End GroupFacts.

(** ** Buckets of [grouped] *)

Section GroupedFacts.
Context {P : Platform}.

Lemma sortedLabels_In (filtered : list Trend) (groupBy : GroupBy) (k : string) :
  In k (sortedLabels filtered groupBy) <-> exists t, In t filtered /\ labelOf groupBy t = k.
Proof.
  unfold sortedLabels. rewrite sort_In.
  destruct (groupBy_key_inv (labelOf groupBy) filtered) as (_ & _ & Hkeys).
  apply Hkeys.
Qed.

Lemma sortedLabels_NoDup (filtered : list Trend) (groupBy : GroupBy) :
  NoDup (sortedLabels filtered groupBy).
Proof.
  unfold sortedLabels.
  destruct (groupBy_key_inv (labelOf groupBy) filtered) as (Hnd & _ & _).
  eapply Permutation_NoDup; [symmetry; apply sort_perm | exact Hnd].
Qed.

Lemma grouped_buckets (filtered : list Trend) (groupBy : GroupBy) :
  grouped filtered groupBy
  = map (fun k => mkBucket k (filter (fun t => String.eqb (labelOf groupBy t) k) filtered))
        (sortedLabels filtered groupBy).
Proof.
  unfold grouped, sortedLabels.
  change (fold_left (fun m t => JS.Map_push m (labelOf groupBy t) t) filtered [])
    with (groupBy_key (labelOf groupBy) filtered).
  apply map_ext_in. intros k Hk.
  apply sort_In in Hk. now rewrite groupBy_key_get.
Qed.

Lemma grouped_labels (filtered : list Trend) (groupBy : GroupBy) :
  map label (grouped filtered groupBy) = sortedLabels filtered groupBy.
Proof.
  rewrite grouped_buckets, map_map. simpl. apply map_id.
Qed.

End GroupedFacts.

(** C2. The buckets of the Grouping/Sort Engine partition the filtered
    list: the concatenation of all bucket items is a rearrangement of
    the filtered list (nothing lost, nothing duplicated), every record
    lies in exactly one bucket, and each bucket holds its records in
    the relative order they had in the filtered list. *)
Theorem grouped_partition {P : Platform} (filtered : list Trend) (groupBy : GroupBy) :
  Permutation (List.concat (map items (grouped filtered groupBy))) filtered
  /\ NoDup (map label (grouped filtered groupBy))
  /\ (forall b, In b (grouped filtered groupBy) ->
        items b = filter (fun t => String.eqb (labelOf groupBy t) (label b)) filtered
        /\ subseq (items b) filtered)
  /\ (forall t, In t filtered ->
        exists b, In b (grouped filtered groupBy) /\ In t (items b)
                  /\ forall b', In b' (grouped filtered groupBy) ->
                                In t (items b') -> b' = b).
Proof.
  pose proof (sortedLabels_NoDup filtered groupBy) as Hnd.
  assert (Hitems : forall b, In b (grouped filtered groupBy) ->
            items b = filter (fun t => String.eqb (labelOf groupBy t) (label b)) filtered).
  { intros b Hb. rewrite grouped_buckets in Hb.
    apply in_map_iff in Hb. destruct Hb as [k [<- _]]. reflexivity. }
  split; [|split; [|split]].
  - rewrite grouped_buckets, map_map. simpl. rewrite <- flat_map_concat_map.
    apply groups_permutation; [exact Hnd|].
    intros t Ht. apply sortedLabels_In. now exists t.
  - now rewrite grouped_labels.
  - intros b Hb. split; [now apply Hitems|].
    rewrite (Hitems b Hb). apply filter_subseq.
  - intros t Ht.
    exists (mkBucket (labelOf groupBy t)
              (filter (fun t' => String.eqb (labelOf groupBy t') (labelOf groupBy t)) filtered)).
    split; [|split].
    + rewrite grouped_buckets. apply in_map_iff. exists (labelOf groupBy t).
      split; [reflexivity|]. apply sortedLabels_In. now exists t.
    + simpl. apply filter_In. split; [exact Ht | apply String.eqb_refl].
    + intros b' Hb' Hin. rewrite (Hitems b' Hb') in Hin.
      apply filter_In in Hin. destruct Hin as [_ E]. apply String.eqb_eq in E.
      destruct b' as [lb it]. simpl in *.
      pose proof (Hitems _ Hb') as Hi. simpl in Hi. subst lb. now rewrite Hi.
Qed.

(** Raising the floor from 0.2 to 0.6 on one record per band. *)
Lemma filtered_monotone_minScore_witness :
  ((2 # 10) <= (6 # 10))%Q
  /\ (List.length (filtered ByWeek (6 # 10) "all" "all" "" sampleThirds)
      <= List.length (filtered ByWeek (2 # 10) "all" "all" "" sampleThirds))%nat
  /\ (List.length (filtered_basic ByWeek (6 # 10) "all" "all" sampleThirds)
      <= List.length (filtered_basic ByWeek (2 # 10) "all" "all" sampleThirds))%nat.
Proof.
  split.
  - unfold Qle. simpl. lia.
  - apply (@filtered_monotone_minScore RefPlatform ByWeek "all" "all" "" sampleThirds
             (2 # 10) (6 # 10)).
    unfold Qle. simpl. lia.
Defined.

(** ** Source clusters *)

Section SourceFacts.
Context {P : Platform}.

Lemma slice0_nonempty (n : nat) (u : string) :
  u <> EmptyString -> JS.slice0 (S n) u <> EmptyString.
Proof.
  destruct u as [|c u]; [contradiction|]. intros _. simpl. discriminate.
Qed.

Lemma compareSources_consistent : consistent compareSources.
Proof.
  unfold consistent, compareSources. split; intros; lia.
Qed.

Lemma bySource_entries (items : list Trend) (c : string * list Trend) :
  In c (bySource items) ->
  snd c = filter (fun t => String.eqb (sourceDomain t) (fst c)) items
  /\ snd c <> [].
Proof.
  intro Hc. destruct c as [k vs]. simpl.
  destruct (groupBy_key_inv sourceDomain items) as (_ & Hent & Hkeys).
  change (bySource items) with (groupBy_key sourceDomain items) in Hc.
  pose proof (Hent k vs Hc) as E. split; [exact E|].
  assert (Hk : In k (JS.Map_keys (groupBy_key sourceDomain items))).
  { unfold JS.Map_keys. apply in_map_iff. now exists (k, vs). }
  apply Hkeys in Hk. destruct Hk as [t [Ht Hkt]].
  intro Hnil. rewrite Hnil in E.
  assert (Hin : In t (filter (fun t => String.eqb (sourceDomain t) k) items)).
  { apply filter_In. split; [exact Ht|]. subst k. apply String.eqb_refl. }
  rewrite <- E in Hin. destruct Hin.
Qed.

Lemma bySource_permutation (items : list Trend) :
  Permutation (List.concat (map snd (bySource items))) items.
Proof.
  destruct (groupBy_key_inv sourceDomain items) as (Hnd & Hent & Hkeys).
  change (bySource items) with (groupBy_key sourceDomain items).
  rewrite <- flat_map_concat_map.
  rewrite (flat_map_ext_on snd
             (fun kv => filter (fun t => String.eqb (sourceDomain t) (fst kv)) items)).
  - rewrite flat_map_concat_map.
    rewrite <- (map_map fst (fun k => filter (fun t => String.eqb (sourceDomain t) k) items)).
    rewrite <- flat_map_concat_map.
    apply groups_permutation; [exact Hnd|].
    intros t Ht. apply Hkeys. now exists t.
  - intros [k vs] Hin. simpl. now apply Hent.
Qed.

End SourceFacts.

(** C7, as amended.  The Source-Clustering Engine keys a record by the
    host name of its trimmed URL without a leading "www."; a record
    whose URL is absent or blank is keyed "Unbekannte Quelle", and one
    whose URL does not parse is keyed by the first 40 characters of the
    URL itself.  The clusters are the records of each key in their
    order, every record lies in one cluster, and the clusters are
    ordered by descending member count. *)
Theorem sortedSources_clusters {P : Platform} (items : list Trend) :
  (forall t,
      (trim (orEmpty (url t)) = EmptyString -> sourceDomain t = "Unbekannte Quelle")
      /\ (forall h, trim (orEmpty (url t)) <> EmptyString ->
                    URL_hostname (trim (orEmpty (url t))) = Some h ->
                    sourceDomain t = stripWww h)
      /\ (trim (orEmpty (url t)) <> EmptyString ->
          URL_hostname (trim (orEmpty (url t))) = None ->
          sourceDomain t = JS.slice0 40 (trim (orEmpty (url t)))
          /\ sourceDomain t <> EmptyString))
  /\ NoDup (map fst (sortedSources items))
  /\ (forall c, In c (sortedSources items) ->
        snd c = filter (fun t => String.eqb (sourceDomain t) (fst c)) items
        /\ snd c <> [])
  /\ Permutation (List.concat (map snd (sortedSources items))) items
  /\ StronglySorted
       (fun a b => (List.length (snd b) <= List.length (snd a))%nat)
       (sortedSources items).
Proof.
  split; [|split; [|split; [|split]]].
  - intro t. unfold sourceDomain, extractDomain, nonEmpty, stripWww.
    split; [|split].
    + intros ->. reflexivity.
    + intros h Hne Hh.
      destruct (String.eqb_spec (trim (orEmpty (url t))) "") as [E|_]; [contradiction|].
      simpl. now rewrite Hh.
    + intros Hne Hh.
      destruct (String.eqb_spec (trim (orEmpty (url t))) "") as [E|_]; [contradiction|].
      simpl. rewrite Hh.
      pose proof (slice0_nonempty 39 _ Hne) as Hs.
      destruct (String.eqb_spec (JS.slice0 40 (trim (orEmpty (url t)))) "") as [E|_];
        [contradiction|].
      simpl. split; [reflexivity | exact Hs].
  - unfold sortedSources.
    eapply Permutation_NoDup.
    + apply Permutation_map. symmetry. apply sort_perm.
    + change (bySource items) with (groupBy_key sourceDomain items).
      now destruct (groupBy_key_inv sourceDomain items) as (Hnd & _ & _).
  - intros c Hc. unfold sortedSources in Hc. apply sort_In in Hc.
    now apply bySource_entries.
  - unfold sortedSources. rewrite <- flat_map_concat_map.
    rewrite (Permutation_flat_map snd (sort_perm compareSources (bySource items))).
    rewrite flat_map_concat_map. apply bySource_permutation.
  - unfold sortedSources.
    pose proof (sort_sorted compareSources (bySource items) compareSources_consistent) as Hs.
    eapply sorted_weaken; [|exact Hs].
    intros a b. unfold compareSources. lia.
Qed.

(** C7 as stated fails for URLs that do not parse: "foo" and "bar"
    are no URLs, and their records get a cluster each, named after the
    text, beside the "Unbekannte Quelle" cluster of the record without
    a URL. *)
Lemma sortedSources_counterexample :
  URL_hostname "foo" = None
  /\ URL_hostname "bar" = None
  /\ map (fun c => (fst c, map id (snd c))) (sortedSources sampleSources)
     = [("foo", [IdNumber 1]); ("bar", [IdNumber 2]);
        ("Unbekannte Quelle", [IdNumber 3])].
Proof.
  repeat split.
Qed.

(** ** Characters of printed integers *)

Lemma allChars_impl (p q : ascii -> bool) (s : string) :
  (forall c, p c = true -> q c = true) -> allChars p s = true -> allChars q s = true.
Proof.
  intro Himp. induction s as [|c s IH]; simpl; [reflexivity|].
  rewrite !andb_true_iff. intros [Hc Hs]. split; [now apply Himp | now apply IH].
Qed.

Lemma string_of_uint_digits (u : Decimal.uint) :
  allChars JS.isDigit (NilEmpty.string_of_uint u) = true.
Proof.
  induction u; simpl; try reflexivity; exact IHu.
Qed.

Lemma String_of_numeric (w : Z) : allChars isNumeric (JS.String_of w) = true.
Proof.
  unfold JS.String_of.
  assert (Hd : forall u, allChars isNumeric (NilEmpty.string_of_uint u) = true).
  { intro u. apply (allChars_impl JS.isDigit); [|apply string_of_uint_digits].
    intros c Hc. unfold isNumeric. now rewrite Hc. }
  destruct (Z.to_int w) as [u|u]; simpl; [apply Hd|].
  apply Hd.
Qed.

Lemma replace_nondigits_digits (s : string) :
  allChars JS.isDigit s = true -> JS.replace_nondigits s = s.
Proof.
  induction s as [|c s IH]; simpl; [reflexivity|].
  rewrite andb_true_iff. intros [Hc Hs]. rewrite Hc. f_equal. now apply IH.
Qed.

Lemma replace_nondigits_String_of (w : Z) :
  JS.replace_nondigits (JS.String_of w) = JS.String_of (Z.abs w).
Proof.
  unfold JS.String_of. destruct w as [|p|p]; simpl.
  - reflexivity.
  - apply replace_nondigits_digits. apply string_of_uint_digits.
  - apply replace_nondigits_digits. apply string_of_uint_digits.
Qed.

Lemma split_without_separator (sep : ascii) (s : string) :
  allChars (fun c => negb (Ascii.eqb c sep)) s = true -> JS.split sep s = [s].
Proof.
  induction s as [|c s IH]; simpl; [reflexivity|].
  rewrite andb_true_iff. intros [Hc Hs].
  apply negb_true_iff in Hc. rewrite Hc, (IH Hs). reflexivity.
Qed.

Lemma numeric_no_colon (s : string) :
  allChars isNumeric s = true -> allChars (fun c => negb (Ascii.eqb c ":")) s = true.
Proof.
  apply allChars_impl. intros c. unfold isNumeric, JS.isDigit.
  destruct (Ascii.eqb_spec c ":") as [->|_]; [discriminate|reflexivity].
Qed.

Lemma numeric_not_endsWith_unknown (s : string) :
  allChars isNumeric s = true -> JS.endsWith s ":unknown" = false.
Proof.
  induction s as [|c s IH]; simpl; [reflexivity|].
  rewrite andb_true_iff. intros [Hc Hs]. rewrite (IH Hs), orb_false_r.
  destruct (Ascii.eqb_spec c ":") as [->|Hne]; [discriminate|].
  destruct (Ascii.eqb_spec c ":"); [contradiction|]. reflexivity.
Qed.

Lemma numeric_not_unknown (s : string) :
  allChars isNumeric s = true -> String.eqb s "unknown" = false.
Proof.
  destruct s as [|c s]; [reflexivity|]. simpl.
  rewrite andb_true_iff. intros [Hc _].
  destruct (Ascii.eqb_spec c "u") as [->|_]; [discriminate|reflexivity].
Qed.

(** ** Keys, labels and the order of buckets *)

Lemma endsWith_week_key (s : string) :
  allChars isNumeric s = true -> JS.endsWith ("week:" ++ s) ":unknown" = false.
Proof.
  intro Hs. simpl.
  rewrite (numeric_not_unknown s Hs), (numeric_not_endsWith_unknown s Hs). reflexivity.
Qed.

Lemma split_week_key (s : string) :
  allChars isNumeric s = true -> JS.split ":" ("week:" ++ s) = ["week"; s].
Proof.
  intro Hs. simpl.
  rewrite (split_without_separator ":" s (numeric_no_colon s Hs)). reflexivity.
Qed.

Lemma labelNumber_week (w : Z) : labelNumber ("KW " ++ JS.String_of w) = Z.abs w.
Proof.
  unfold labelNumber. simpl.
  rewrite replace_nondigits_String_of, Number_String_of. reflexivity.
Qed.

Lemma nodup_before {A : Type} (l l1 l2 l3 : list A) (x y : A) :
  NoDup l -> l = (l1 ++ x :: l2 ++ y :: l3)%list -> x <> y.
Proof.
  intros Hnd -> E. subst y.
  apply NoDup_remove_2 in Hnd. apply Hnd.
  apply in_or_app. right. apply in_or_app. right. now left.
Qed.

Lemma Ref_localeCompare_consistent : consistent Ref.localeCompare.
Proof.
  split.
  - intros a. induction a as [|c a IH]; intros [|d b]; simpl;
      split_ltb; try lia. apply IH.
  - intros a. induction a as [|c a IH]; intros [|d b] [|e x]; simpl;
      split_ltb; try lia. apply IH.
Qed.

Section OrderFacts.
Context {P : Platform}.

Lemma labelOf_week_known (t : Trend) (w : Z) :
  week_number t = Some w -> w <> 0 -> labelOf ByWeek t = "KW " ++ JS.String_of w.
Proof.
  intros Hw Hnz. unfold labelOf, slotKeyForTrend, slotLabelFromKey. rewrite Hw.
  destruct (Z.eqb_spec w 0) as [E|_]; [contradiction|].
  rewrite (endsWith_week_key _ (String_of_numeric w)).
  rewrite (split_week_key _ (String_of_numeric w)). reflexivity.
Qed.

Lemma labelOf_week_unknown (t : Trend) :
  unknownWeek t -> labelOf ByWeek t = "Ohne KW".
Proof.
  unfold labelOf, slotKeyForTrend. intros [-> | ->]; reflexivity.
Qed.

Lemma labelOf_date_unknown (t : Trend) :
  safeDate (published_date t) = None ->
  labelOf ByDay t = "Ohne Datum" /\ labelOf ByMonth t = "Ohne Monat".
Proof.
  unfold labelOf, slotKeyForTrend. intros ->. split; reflexivity.
Qed.

Lemma compareLabels_consistent (groupBy : GroupBy) :
  groupBy = ByWeek \/ consistent localeCompare -> consistent (compareLabels groupBy).
Proof.
  intro H. unfold consistent, compareLabels. split.
  - intros a b.
    destruct (JS.startsWith a "Ohne"), (JS.startsWith b "Ohne"); simpl; try lia.
    all: destruct groupBy; try lia;
      destruct H as [H|[Htot _]]; try discriminate; apply Htot.
  - intros a b c.
    destruct (JS.startsWith a "Ohne"), (JS.startsWith b "Ohne"),
             (JS.startsWith c "Ohne"); simpl; try lia.
    all: destruct groupBy; try lia;
      destruct H as [H|[_ Htrans]]; try discriminate;
      intros H1 H2; eapply Htrans; eauto.
Qed.

Lemma grouped_bucket_items (filtered : list Trend) (groupBy : GroupBy) (b : Bucket) :
  In b (grouped filtered groupBy) ->
  items b = filter (fun t => String.eqb (labelOf groupBy t) (label b)) filtered.
Proof.
  intro Hb. rewrite grouped_buckets in Hb.
  apply in_map_iff in Hb. destruct Hb as [k [<- _]]. reflexivity.
Qed.

Lemma grouped_bucket_label (filtered : list Trend) (groupBy : GroupBy) (b : Bucket) (t : Trend) :
  In b (grouped filtered groupBy) -> In t (items b) -> labelOf groupBy t = label b.
Proof.
  intros Hb Ht. rewrite (grouped_bucket_items _ _ _ Hb) in Ht.
  apply filter_In in Ht. destruct Ht as [_ E]. now apply String.eqb_eq.
Qed.

Lemma grouped_sorted (filtered : list Trend) (groupBy : GroupBy) :
  groupBy = ByWeek \/ consistent localeCompare ->
  StronglySorted (fun a b => compareLabels groupBy a b <= 0)
                 (map label (grouped filtered groupBy)).
Proof.
  intro H. rewrite grouped_labels. unfold sortedLabels.
  apply sort_sorted. now apply compareLabels_consistent.
Qed.

End OrderFacts.

(** C1, as amended.  The bucket key of a record is [week:<n>] when
    its week number is present and not 0 (else [week:unknown]), and
    [day:]/[month:] with the day or month key of the parsed date (else
    [day:unknown]/[month:unknown]).  Provided [localeCompare] is a
    consistent order (needed in day and month mode only): a bucket
    whose label begins with "Ohne" (the unknown bucket) is followed
    only by such buckets; in week mode the buckets are in descending
    order of the number formed by the digits of the label, which for
    positive weeks is strictly descending numeric week; in day and
    month mode the buckets are in descending [localeCompare] order of
    their localised labels. *)
Theorem grouped_order {P : Platform} (filtered : list Trend) (groupBy : GroupBy) :
  groupBy = ByWeek \/ consistent localeCompare ->
  (forall t,
      (forall w, week_number t = Some w -> w <> 0 ->
                 slotKeyForTrend t ByWeek = "week:" ++ JS.String_of w
                 /\ labelOf ByWeek t = "KW " ++ JS.String_of w)
      /\ (unknownWeek t ->
          slotKeyForTrend t ByWeek = "week:unknown" /\ labelOf ByWeek t = "Ohne KW")
      /\ (forall d, safeDate (published_date t) = Some d ->
                    slotKeyForTrend t ByDay = "day:" ++ isoDayKey d
                    /\ slotKeyForTrend t ByMonth = "month:" ++ monthKey d)
      /\ (safeDate (published_date t) = None ->
          slotKeyForTrend t ByDay = "day:unknown"
          /\ slotKeyForTrend t ByMonth = "month:unknown"
          /\ labelOf ByDay t = "Ohne Datum" /\ labelOf ByMonth t = "Ohne Monat"))
  /\ (forall l1 b1 l2 b2 l3,
        grouped filtered groupBy = (l1 ++ b1 :: l2 ++ b2 :: l3)%list ->
        (JS.startsWith (label b1) "Ohne" = true -> JS.startsWith (label b2) "Ohne" = true)
        /\ (JS.startsWith (label b1) "Ohne" = JS.startsWith (label b2) "Ohne" ->
            match groupBy with
            | ByWeek => labelNumber (label b2) <= labelNumber (label b1)
            | _ => localeCompare (label b2) (label b1) <= 0
            end)
        /\ (groupBy = ByWeek ->
            forall t1 t2, In t1 (items b1) -> In t2 (items b2) ->
              (unknownWeek t1 -> unknownWeek t2)
              /\ (forall w1 w2,
                     week_number t1 = Some w1 -> week_number t2 = Some w2 ->
                     w1 <> 0 -> w2 <> 0 ->
                     Z.abs w2 <= Z.abs w1 /\ (0 < w1 -> 0 < w2 -> w2 < w1)))).
Proof.
  intro Hcons. split.
  - intro t. split; [|split; [|split]].
    + intros w Hw Hnz. split; [|now apply labelOf_week_known].
      unfold slotKeyForTrend. rewrite Hw.
      destruct (Z.eqb_spec w 0); [contradiction | reflexivity].
    + intro Hu. split; [|now apply labelOf_week_unknown].
      unfold slotKeyForTrend. destruct Hu as [-> | ->]; reflexivity.
    + intros d Hd. unfold slotKeyForTrend. rewrite Hd. split; reflexivity.
    + intro Hd. destruct (labelOf_date_unknown t Hd) as [H1 H2].
      unfold slotKeyForTrend. rewrite Hd. repeat split; assumption.
  - intros l1 b1 l2 b2 l3 Hsplit.
    assert (Hle : compareLabels groupBy (label b1) (label b2) <= 0).
    { apply (sorted_before (fun a b => compareLabels groupBy a b <= 0)
               (map label (grouped filtered groupBy))
               (map label l1) (map label l2) (map label l3)).
      - now apply grouped_sorted.
      - rewrite Hsplit, map_app. simpl. rewrite map_app. reflexivity. }
    assert (Hb1 : In b1 (grouped filtered groupBy)).
    { rewrite Hsplit. apply in_or_app. right. now left. }
    assert (Hb2 : In b2 (grouped filtered groupBy)).
    { rewrite Hsplit. apply in_or_app. right. right. apply in_or_app. right. now left. }
    assert (Hne : label b1 <> label b2).
    { apply (nodup_before (map label (grouped filtered groupBy))
               (map label l1) (map label l2) (map label l3)).
      - rewrite grouped_labels. apply sortedLabels_NoDup.
      - rewrite Hsplit, map_app. simpl. rewrite map_app. reflexivity. }
    assert (Hlast : JS.startsWith (label b1) "Ohne" = true ->
                    JS.startsWith (label b2) "Ohne" = true).
    { unfold compareLabels in Hle. intro H1. rewrite H1 in Hle.
      destruct (JS.startsWith (label b2) "Ohne"); [reflexivity|]. simpl in Hle. lia. }
    assert (Hsame : JS.startsWith (label b1) "Ohne" = JS.startsWith (label b2) "Ohne" ->
                    match groupBy with
                    | ByWeek => labelNumber (label b2) <= labelNumber (label b1)
                    | _ => localeCompare (label b2) (label b1) <= 0
                    end).
    { unfold compareLabels in Hle. intro E. rewrite E in Hle.
      destruct (JS.startsWith (label b2) "Ohne"); simpl in Hle;
        destruct groupBy; unfold labelNumber; lia. }
    split; [exact Hlast|]. split; [exact Hsame|].
    intros -> t1 t2 Ht1 Ht2.
    pose proof (grouped_bucket_label _ _ _ _ Hb1 Ht1) as L1.
    pose proof (grouped_bucket_label _ _ _ _ Hb2 Ht2) as L2.
    split.
    + intro Hu. rewrite (labelOf_week_unknown t1 Hu) in L1.
      rewrite <- L1 in Hlast. specialize (Hlast eq_refl).
      destruct (week_number t2) as [w2|] eqn:Hw2; [|now left].
      destruct (Z.eq_dec w2 0) as [->|Hnz]; [now right|].
      rewrite <- L2, (labelOf_week_known t2 w2 Hw2 Hnz) in Hlast. discriminate Hlast.
    + intros w1 w2 Hw1 Hw2 Hn1 Hn2.
      rewrite (labelOf_week_known t1 w1 Hw1 Hn1) in L1.
      rewrite (labelOf_week_known t2 w2 Hw2 Hn2) in L2.
      rewrite <- L1, <- L2 in Hsame, Hne.
      specialize (Hsame eq_refl). rewrite !labelNumber_week in Hsame.
      split; [exact Hsame|].
      intros Hp1 Hp2.
      assert (w1 <> w2) by (intro; subst; now apply Hne).
      lia.
Qed.

(** C1 as stated fails in three ways.  A negative week number is
    present and not positive, yet its key is not [week:unknown].  In
    day mode the bucket of 9 February precedes that of 10 February, and
    in month mode March precedes April: the labels, not the keys, are
    compared. *)
Lemma grouped_order_counterexample :
  slotKeyForTrend (P := RefPlatform) (dated 1 "2026-02-10" (Some (-3))) ByWeek = "week:-3"
  /\ map (fun b => (label b, map published_date (items b)))
         (grouped (P := RefPlatform) sampleDays ByDay)
     = [("9.2.2026", [Some "2026-02-09"]); ("10.2.2026", [Some "2026-02-10"])]
  /\ map (fun b => (label b, map published_date (items b)))
         (grouped (P := RefPlatform) sampleMonths ByMonth)
     = [(Ref.monthName 2 ++ " 2026", [Some "2026-03-09"]);
        ("April 2026", [Some "2026-04-10"])].
Proof.
  repeat split.
Qed.

(** The order of the day buckets of [sampleDays] on the reference
    runtime. *)
Lemma grouped_order_witness :
  (ByDay = ByWeek \/ consistent (localeCompare (Platform := RefPlatform)))
  /\ (forall l1 b1 l2 b2 l3,
        grouped (P := RefPlatform) sampleDays ByDay = (l1 ++ b1 :: l2 ++ b2 :: l3)%list ->
        localeCompare (label b2) (label b1) <= 0).
Proof.
  split.
  - right. exact Ref_localeCompare_consistent.
  - intros l1 b1 l2 b2 l3 Hsplit.
    destruct (proj2 (@grouped_order RefPlatform sampleDays ByDay
                       (or_intror Ref_localeCompare_consistent))
                    l1 b1 l2 b2 l3 Hsplit) as (Hlast & Hsame & _).
    apply Hsame.
    assert (Hall : Forall (fun b => JS.startsWith (label b) "Ohne" = false)
                          (grouped (P := RefPlatform) sampleDays ByDay)).
    { set (g := grouped (P := RefPlatform) sampleDays ByDay).
      vm_compute in g. subst g. repeat constructor. }
    rewrite Hsplit in Hall. rewrite Forall_forall in Hall.
    rewrite (Hall b1) by (apply in_or_app; right; now left).
    rewrite (Hall b2)
      by (apply in_or_app; right; right; apply in_or_app; right; now left).
    reflexivity.
Defined.

(** ** The scenarios on the reference runtime *)

(** Scenario B on the reference runtime; 10 February 2026 is a
    Tuesday, and its Thursday is found. *)
Lemma getISOWeek_scenario_B_witness :
  normalizedTrends (P := RefPlatform) [sampleB] = [setWeek sampleB (Some 7)]
  /\ JS.getUTCDay (thursdayOf (JS.Day (JS.Date_UTC 2026 1 10))) = 4.
Proof.
  split.
  - apply (proj1 (@getISOWeek_scenario_B RefPlatform) sampleB).
    + reflexivity.
    + intro u. simpl. unfold Ref.LocalTZA, JS.msPerDay. lia.
    + reflexivity.
    + reflexivity.
  - assert (Hpos : 0 <= JS.Date_UTC 2026 1 10
                        + LocalTZA (Platform := RefPlatform) (JS.Date_UTC 2026 1 10))
      by (vm_compute; discriminate).
    exact (proj1 (proj2 (proj2 (proj2
             (proj2 (@getISOWeek_scenario_B RefPlatform) (JS.Date_UTC 2026 1 10) Hpos))))).
Defined.

(** Scenario D on the reference runtime. *)
Lemma exportData_selects_witness :
  exportData (P := RefPlatform) ScopeWeek "all" "5" sampleWeeks
  = [dated 2 "2026-01-27" (Some 5); dated 3 "2026-01-28" (Some 5)].
Proof.
  destruct (@exportData_selects RefPlatform) as (_ & _ & _ & _ & _ & _ & H).
  apply (H "all" (dated 1 "2026-01-20" (Some 4)) (dated 2 "2026-01-27" (Some 5))
           (dated 3 "2026-01-28" (Some 5)) (dated 4 "2026-02-03" (Some 6)));
    reflexivity.
Defined.


(** ** Further properties of the pages *)

Lemma civil_day_range (z : Z) : 1 <= snd (JS.civil_from_days z) <= 31.
Proof.
  unfold JS.civil_from_days. cbv zeta. cbn [fst snd].
  match goal with |- context [(5 * ?doy + 2) / 153] => set (d := doy) end.
  assert (0 <= d <= 365) by (unfold d; div_lia).
  clearbody d. div_lia.
Qed.

(** A date lies at most 365 days after 1 January of its year. *)
Lemma day_of_year_range (y m d : Z) :
  1 <= m <= 12 -> 1 <= d <= 31 ->
  0 <= JS.days_from_civil y m d - JS.days_from_civil y 1 1 <= 365.
Proof.
  intros Hm Hd. unfold JS.days_from_civil. cbv zeta.
  replace (1 <=? 2) with true by reflexivity.
  destruct (m <=? 2) eqn:E; [apply Z.leb_le in E | apply Z.leb_gt in E]; div_lia.
Qed.

(** X1. The week number of [getISOWeek] lies between 1 and 53, for local
    dates from 1970 on, whatever the time zone. *)
Theorem getISOWeek_range {P : Platform} (date : Z) :
  0 <= date + LocalTZA date -> 1 <= getISOWeek date <= 53.
Proof.
  intro Hpos.
  destruct (getISOWeek_by_thursday date Hpos) as [E _]. rewrite E. clear E.
  set (D := JS.Day (date + LocalTZA date)).
  assert (HD : 0 <= D) by (unfold D, JS.Day, JS.msPerDay; div_lia).
  clearbody D.
  pose proof (isoWeekday_range D) as Hr.
  set (T := D + 4 - isoWeekday D).
  assert (HT : thursdayOf D = T * JS.msPerDay) by reflexivity.
  rewrite HT. unfold JS.getUTCFullYear. rewrite !Day_of_midnight.
  assert (Hy : 1600 <= fst (fst (JS.civil_from_days T)))
    by (apply civil_year_lower; unfold T; lia).
  pose proof (civil_month_range T) as Hm.
  pose proof (civil_day_range T) as Hd.
  pose proof (civil_from_days_inverse T) as Hinv.
  set (y := fst (fst (JS.civil_from_days T))) in *.
  set (m := snd (fst (JS.civil_from_days T))) in *.
  set (d := snd (JS.civil_from_days T)) in *.
  pose proof (day_of_year_range y m d Hm Hd) as Hdoy.
  assert (Hs : JS.Day (JS.Date_UTC y 0 1) = JS.days_from_civil y 1 1).
  { unfold JS.Date_UTC, JS.MakeDay. cbv zeta.
    replace ((0 <=? y) && (y <=? 99)) with false
      by (symmetry; apply andb_false_iff; right; apply Z.leb_gt; lia).
    rewrite Day_of_midnight. simpl.
    replace (y + 0 / 12) with y by (rewrite Z.div_0_l; lia). lia. }
  rewrite Hs. clearbody y m d. div_lia.
Qed.

(** The week of noon UTC on 31 December 2024, on the reference
    runtime. *)
Lemma getISOWeek_range_witness :
  0 <= 1735646400000 + LocalTZA (Platform := RefPlatform) 1735646400000
  /\ 1 <= getISOWeek (P := RefPlatform) 1735646400000 <= 53.
Proof.
  assert (H : 0 <= 1735646400000 + LocalTZA (Platform := RefPlatform) 1735646400000)
    by (vm_compute; discriminate).
  split; [exact H|].
  exact (@getISOWeek_range RefPlatform 1735646400000 H).
Defined.


(** X3. With a blank search query the page with a search box keeps exactly
    the records the pages without one keep. *)
Theorem filtered_blank_query {P : Platform} groupBy minScore cat slot searchQuery
    (l : list Trend) :
  trim (toLowerCase searchQuery) = EmptyString ->
  filtered groupBy minScore cat slot searchQuery l
  = filtered_basic groupBy minScore cat slot l.
Proof.
  intro Hq. rewrite filtered_as_filter, filtered_basic_as_filter.
  apply filter_ext. intro t. unfold searchMatch. rewrite Hq. simpl.
  apply andb_true_r.
Qed.

(** A query of two spaces on the reference runtime. *)
Lemma filtered_blank_query_witness :
  trim (Platform := RefPlatform) (toLowerCase "  ") = EmptyString
  /\ filtered (P := RefPlatform) ByWeek (6 # 10) "all" "all" "  " sampleThirds
     = filtered_basic (P := RefPlatform) ByWeek (6 # 10) "all" "all" sampleThirds.
Proof.
  split; [reflexivity|].
  apply (@filtered_blank_query RefPlatform). reflexivity.
Defined.

(** * Properties of the option lists, counts, state and middleware *)

(** ** Sets built in a loop *)

Section SetFacts.
Context {A B : Type} (eqb : A -> A -> bool) (f : B -> option A).
Hypothesis eqb_eq : forall a b, eqb a b = true <-> a = b.

Lemma existsb_eqb (s : list A) (x : A) : existsb (eqb x) s = true <-> In x s.
Proof.
  rewrite existsb_exists. split.
  - intros [y [Hy E]]. apply eqb_eq in E. now subst.
  - intro H. exists x. split; [exact H | now apply eqb_eq].
Qed.

Lemma Set_add_In (s : list A) (x y : A) : In y (Set_add eqb s x) <-> y = x \/ In y s.
Proof.
  unfold Set_add. destruct (existsb (eqb x) s) eqn:E.
  - apply existsb_eqb in E. split; [now right | intros [->|H]; assumption].
  - rewrite in_app_iff. simpl. intuition.
Qed.

Lemma Set_add_NoDup (s : list A) (x : A) : NoDup s -> NoDup (Set_add eqb s x).
Proof.
  intro Hnd. unfold Set_add. destruct (existsb (eqb x) s) eqn:E; [exact Hnd|].
  assert (Hnin : ~ In x s).
  { intro H. apply existsb_eqb in H. congruence. }
  clear E. induction s as [|a s IH]; simpl.
  - constructor; [intros []|constructor].
  - inversion Hnd as [|? ? Ha Hs]; subst. constructor.
    + rewrite in_app_iff. simpl. intros [H|[H|[]]]; [now apply Ha|].
      subst. apply Hnin. now left.
    + apply IH; [exact Hs|]. intro H. apply Hnin. now right.
Qed.

Lemma Set_from_fold (l : list B) (s : list A) :
  NoDup s ->
  NoDup (fold_left (fun s t => match f t with Some x => Set_add eqb s x | None => s end) l s)
  /\ (forall x,
         In x (fold_left (fun s t => match f t with Some x => Set_add eqb s x | None => s end) l s)
         <-> In x s \/ exists t, In t l /\ f t = Some x).
Proof.
  revert s. induction l as [|t l IH]; intros s Hnd; simpl.
  - split; [exact Hnd|]. intro x. split; [now left | intros [H|[t [[] _]]]; exact H].
  - destruct (f t) as [y|] eqn:Hf.
    + destruct (IH (Set_add eqb s y) (Set_add_NoDup s y Hnd)) as [H1 H2].
      split; [exact H1|]. intro x. rewrite H2, Set_add_In. split.
      * intros [[->|H]|[u [Hu E]]].
        -- right. exists t. split; [now left | exact Hf].
        -- now left.
        -- right. exists u. split; [now right | exact E].
      * intros [H|[u [[<-|Hu] E]]].
        -- left. now right.
        -- left. left. congruence.
        -- right. now exists u.
    + destruct (IH s Hnd) as [H1 H2]. split; [exact H1|].
      intro x. rewrite H2. split.
      * intros [H|[u [Hu E]]]; [now left | right; exists u; split; [now right | exact E]].
      * intros [H|[u [[<-|Hu] E]]]; [now left | congruence | right; now exists u].
Qed.

Lemma Set_from_NoDup (l : list B) : NoDup (Set_from eqb f l).
Proof.
  apply (Set_from_fold l []). constructor.
Qed.

Lemma Set_from_In (l : list B) (x : A) :
  In x (Set_from eqb f l) <-> exists t, In t l /\ f t = Some x.
Proof.
  unfold Set_from. rewrite (proj2 (Set_from_fold l [] (NoDup_nil A))).
  simpl. tauto.
Qed.

End SetFacts.

Lemma String_eqb_eq (a b : string) : String.eqb a b = true <-> a = b.
Proof.
  apply String.eqb_eq.
Qed.

(** ** Sorting a list on which the comparator is consistent *)

Section SortOnFacts.
Context {A : Type} (cmp : A -> A -> Z).

Lemma insert_sorted_on (dom : A -> Prop) (x : A) (l : list A) :
  (forall a b, dom a -> dom b -> 0 < cmp a b -> cmp b a <= 0) ->
  (forall a b c, dom a -> dom b -> dom c -> cmp a b <= 0 -> cmp b c <= 0 -> cmp a c <= 0) ->
  dom x -> Forall dom l ->
  StronglySorted (fun a b => cmp a b <= 0) l ->
  StronglySorted (fun a b => cmp a b <= 0) (JS.insert cmp x l).
Proof.
  intros Htot Htrans Hx Hdom Hs.
  induction l as [|y l IH]; simpl.
  - constructor; constructor.
  - inversion Hs as [|? ? Hl Hy]; subst.
    inversion Hdom as [|? ? Hdy Hdl]; subst.
    destruct (cmp x y <=? 0) eqn:E.
    + apply Z.leb_le in E. constructor; [exact Hs|].
      constructor; [exact E|].
      rewrite Forall_forall in *. intros z Hz.
      apply (Htrans x y z); auto.
    + apply Z.leb_gt in E. constructor; [now apply IH|].
      rewrite Forall_forall in *. intros z Hz.
      apply (Permutation_in _ (insert_perm cmp x l)) in Hz.
      destruct Hz as [<-|Hz]; [apply Htot; auto; lia | now apply Hy].
Qed.

Lemma sort_sorted_on (dom : A -> Prop) (l : list A) :
  (forall a b, dom a -> dom b -> 0 < cmp a b -> cmp b a <= 0) ->
  (forall a b c, dom a -> dom b -> dom c -> cmp a b <= 0 -> cmp b c <= 0 -> cmp a c <= 0) ->
  Forall dom l ->
  StronglySorted (fun a b => cmp a b <= 0) (JS.sort cmp l).
Proof.
  intros Htot Htrans Hdom. induction l as [|x l IH]; simpl.
  - constructor.
  - inversion Hdom; subst.
    apply (insert_sorted_on dom); auto.
    rewrite Forall_forall in *. intros z Hz. apply sort_In in Hz. auto.
Qed.

(** The first element of a sorted list: nothing sorts before it, and
    what stood before it in the input sorts strictly after it. *)
Lemma sort_head (l : list A) (h : A) (rest : list A) :
  consistent cmp ->
  JS.sort cmp l = h :: rest ->
  exists pre post,
    l = (pre ++ h :: post)%list
    /\ (forall y, In y pre -> 0 < cmp y h)
    /\ (forall y, In y l -> cmp h y <= 0).
Proof.
  intros [Htot Htrans]. revert h rest.
  induction l as [|x l IH]; intros h rest Hs; simpl in Hs; [discriminate|].
  destruct (JS.sort cmp l) as [|h' rest'] eqn:Hl.
  - simpl in Hs. injection Hs as <- <-.
    assert (l = []).
    { destruct l as [|z l']; [reflexivity|]. exfalso.
      assert (Hin : In z (JS.sort cmp (z :: l'))) by (apply sort_In; now left).
      rewrite Hl in Hin. destruct Hin. }
    subst l. exists [], []. repeat split.
    + intros y [].
    + intros y [<-|[]]. destruct (Z.le_gt_cases (cmp x x) 0) as [H|H]; [exact H|].
      apply Htot. lia.
  - destruct (IH h' rest' eq_refl) as (pre & post & -> & Hpre & Hall).
    simpl in Hs. destruct (cmp x h' <=? 0) eqn:E.
    + apply Z.leb_le in E. injection Hs as <- <-.
      exists [], (pre ++ h' :: post)%list. repeat split.
      * intros y [].
      * intros y [<-|Hy].
        -- destruct (Z.le_gt_cases (cmp x x) 0) as [H|H]; [exact H|]. apply Htot. lia.
        -- apply (Htrans x h' y); auto.
    + apply Z.leb_gt in E. injection Hs as <- <-.
      exists (x :: pre), post. repeat split.
      * intros y [<-|Hy]; [lia | now apply Hpre].
      * intros y [<-|Hy]; [apply Htot; lia | now apply Hall].
Qed.

End SortOnFacts.

(** ** The slot options *)

Section SlotOptionFacts.
Context {P : Platform} (localeCompareDefault : string -> string -> Z).

Lemma slotKeyForTrend_weekKey (t : Trend) : weekKey (slotKeyForTrend t ByWeek).
Proof.
  unfold slotKeyForTrend. destruct (week_number t) as [w|]; [|constructor].
  destruct (w =? 0); constructor.
Qed.

Lemma week_key_value (w : Z) :
  JS.endsWith ("week:" ++ JS.String_of w) ":unknown" = false
  /\ JS.Number (JS.at_or_empty (JS.split ":" ("week:" ++ JS.String_of w)) 1) = Some w.
Proof.
  split.
  - apply endsWith_week_key, String_of_numeric.
  - rewrite (split_week_key _ (String_of_numeric w)). simpl. apply Number_String_of.
Qed.

Lemma compareSlotKeys_known (w1 w2 : Z) :
  compareSlotKeys localeCompareDefault ByWeek
    ("week:" ++ JS.String_of w1) ("week:" ++ JS.String_of w2) = w2 - w1.
Proof.
  unfold compareSlotKeys.
  destruct (week_key_value w1) as [E1 N1]. destruct (week_key_value w2) as [E2 N2].
  rewrite E1, E2. cbn [andb negb]. cbv zeta. rewrite N1, N2. reflexivity.
Qed.

Lemma compareSlotKeys_known_unknown (w : Z) :
  compareSlotKeys localeCompareDefault ByWeek ("week:" ++ JS.String_of w) "week:unknown" = -1
  /\ compareSlotKeys localeCompareDefault ByWeek "week:unknown" ("week:" ++ JS.String_of w) = 1.
Proof.
  unfold compareSlotKeys. destruct (week_key_value w) as [E _].
  rewrite E. split; reflexivity.
Qed.

Lemma compareSlotKeys_unknown :
  compareSlotKeys localeCompareDefault ByWeek "week:unknown" "week:unknown" = 0.
Proof.
  reflexivity.
Qed.

Lemma slotOptionKeys_sorted (l : list Trend) :
  StronglySorted (fun a b => compareSlotKeys localeCompareDefault ByWeek a b <= 0)
                 (slotOptionKeys localeCompareDefault ByWeek l).
Proof.
  unfold slotOptionKeys. apply (sort_sorted_on _ weekKey).
  - intros a b Ha Hb. destruct Ha as [|w1], Hb as [|w2];
      rewrite ?compareSlotKeys_unknown, ?compareSlotKeys_known,
              ?(proj1 (compareSlotKeys_known_unknown _)),
              ?(proj2 (compareSlotKeys_known_unknown _)); lia.
  - intros a b c Ha Hb Hc. destruct Ha as [|w1], Hb as [|w2], Hc as [|w3];
      rewrite ?compareSlotKeys_unknown, ?compareSlotKeys_known,
              ?(proj1 (compareSlotKeys_known_unknown _)),
              ?(proj2 (compareSlotKeys_known_unknown _)); lia.
  - apply Forall_forall. intros k Hk.
    apply (Set_from_In String.eqb _ String_eqb_eq) in Hk.
    destruct Hk as [t [_ E]]. injection E as <-. apply slotKeyForTrend_weekKey.
Qed.

Lemma slotOptionKeys_In (groupBy : GroupBy) (l : list Trend) (k : string) :
  In k (slotOptionKeys localeCompareDefault groupBy l)
  <-> exists t, In t l /\ slotKeyForTrend t groupBy = k.
Proof.
  unfold slotOptionKeys. rewrite sort_In, (Set_from_In String.eqb _ String_eqb_eq).
  split; intros [t [Ht E]]; exists t; split; auto; congruence.
Qed.

Lemma slotOptionKeys_NoDup (groupBy : GroupBy) (l : list Trend) :
  NoDup (slotOptionKeys localeCompareDefault groupBy l).
Proof.
  unfold slotOptionKeys.
  eapply Permutation_NoDup; [symmetry; apply sort_perm|].
  apply (Set_from_NoDup String.eqb _ String_eqb_eq).
Qed.

End SlotOptionFacts.

(** X4. The slot dropdown offers every bucket key of the normalised
    records exactly once, each with the label of its key.  In week
    mode the keys come in strictly descending numeric order of the
    week (the sign included), and [week:unknown], if present, is the
    last one. *)
Theorem slotOptions_keys {P : Platform} (localeCompareDefault : string -> string -> Z)
    (groupBy : GroupBy) (normalizedTrends : list Trend) :
  NoDup (map fst (slotOptions localeCompareDefault groupBy normalizedTrends))
  /\ (forall k,
        In k (map fst (slotOptions localeCompareDefault groupBy normalizedTrends))
        <-> exists t, In t normalizedTrends /\ slotKeyForTrend t groupBy = k)
  /\ (forall o, In o (slotOptions localeCompareDefault groupBy normalizedTrends) ->
        snd o = slotLabelFromKey (fst o) groupBy)
  /\ (groupBy = ByWeek ->
      forall l1 k1 l2 k2 l3,
        map fst (slotOptions localeCompareDefault groupBy normalizedTrends)
        = (l1 ++ k1 :: l2 ++ k2 :: l3)%list ->
        k1 <> "week:unknown"
        /\ forall w1 w2, k1 = "week:" ++ JS.String_of w1 ->
                         k2 = "week:" ++ JS.String_of w2 -> w2 < w1).
Proof.
  assert (Hkeys : map fst (slotOptions localeCompareDefault groupBy normalizedTrends)
                  = slotOptionKeys localeCompareDefault groupBy normalizedTrends).
  { unfold slotOptions. rewrite map_map. simpl. apply map_id. }
  rewrite Hkeys.
  split; [apply slotOptionKeys_NoDup|].
  split; [apply slotOptionKeys_In|].
  split.
  - intros o Ho. unfold slotOptions in Ho. apply in_map_iff in Ho.
    destruct Ho as [k [<- _]]. reflexivity.
  - intros -> l1 k1 l2 k2 l3 Hsplit.
    pose proof (slotOptionKeys_sorted localeCompareDefault normalizedTrends) as Hs.
    pose proof (sorted_before _ _ l1 l2 l3 k1 k2 Hs Hsplit) as Hle. simpl in Hle.
    pose proof (nodup_before _ l1 l2 l3 k1 k2
                  (slotOptionKeys_NoDup localeCompareDefault ByWeek normalizedTrends)
                  Hsplit) as Hne.
    assert (Hk2 : weekKey k2).
    { assert (Hin : In k2 (slotOptionKeys localeCompareDefault ByWeek normalizedTrends)).
      { rewrite Hsplit. apply in_or_app. right. right. apply in_or_app. right. now left. }
      apply slotOptionKeys_In in Hin. destruct Hin as [t [_ <-]].
      apply slotKeyForTrend_weekKey. }
    split.
    + intros ->. destruct Hk2 as [|w2]; [now apply Hne|].
      rewrite (proj2 (compareSlotKeys_known_unknown localeCompareDefault w2)) in Hle. lia.
    + intros w1 w2 -> ->. rewrite compareSlotKeys_known in Hle.
      assert (w1 <> w2) by (intro; subst; now apply Hne). lia.
Qed.

(** X5. When a slot is selected, the filtered records form at most
    one bucket; it holds all of them, in their order, under the label
    of the selected key. *)
Theorem selected_slot_single_bucket {P : Platform} groupBy minScore cat slot searchQuery
    (l : list Trend) :
  slot <> "all" ->
  (List.length (grouped (filtered groupBy minScore cat slot searchQuery l) groupBy) <= 1)%nat
  /\ (forall b,
        In b (grouped (filtered groupBy minScore cat slot searchQuery l) groupBy) ->
        label b = slotLabelFromKey slot groupBy
        /\ items b = filtered groupBy minScore cat slot searchQuery l)
  /\ (filtered groupBy minScore cat slot searchQuery l <> [] ->
      grouped (filtered groupBy minScore cat slot searchQuery l) groupBy
      = [mkBucket (slotLabelFromKey slot groupBy)
                  (filtered groupBy minScore cat slot searchQuery l)]).
Proof.
  intro Hslot.
  set (fl := filtered groupBy minScore cat slot searchQuery l).
  assert (Hlab : forall t, In t fl -> labelOf groupBy t = slotLabelFromKey slot groupBy).
  { intros t Ht. unfold fl in Ht. rewrite filtered_as_filter in Ht.
    apply filter_In in Ht. destruct Ht as [_ Ht].
    rewrite !andb_true_iff in Ht. destruct Ht as [[[_ _] Hk] _].
    unfold slotMatch in Hk. apply orb_true_iff in Hk.
    destruct Hk as [Hk|Hk]; apply String.eqb_eq in Hk; [contradiction|].
    unfold labelOf. now rewrite Hk. }
  assert (Hall : forall k, In k (sortedLabels fl groupBy) -> k = slotLabelFromKey slot groupBy).
  { intros k Hk. apply sortedLabels_In in Hk. destruct Hk as [t [Ht <-]]. now apply Hlab. }
  assert (Hitems : filter (fun t => String.eqb (labelOf groupBy t)
                                       (slotLabelFromKey slot groupBy)) fl = fl).
  { clear Hall. induction fl as [|t fl' IH]; [reflexivity|]. simpl.
    rewrite (Hlab t (or_introl eq_refl)), String.eqb_refl. f_equal.
    apply IH. intros u Hu. apply Hlab. now right. }
  assert (Hshape : sortedLabels fl groupBy = []
                   \/ sortedLabels fl groupBy = [slotLabelFromKey slot groupBy]).
  { pose proof (sortedLabels_NoDup fl groupBy) as Hnd.
    destruct (sortedLabels fl groupBy) as [|k1 [|k2 ks]] eqn:E; [now left| |].
    - right. f_equal. apply Hall. now left.
    - exfalso. inversion Hnd as [|? ? Hnin _]; subst. apply Hnin.
      rewrite (Hall k1) by now left. rewrite (Hall k2) by (right; now left). now left. }
  rewrite grouped_buckets.
  split; [|split].
  - destruct Hshape as [-> | ->]; simpl; lia.
  - intros b Hb. apply in_map_iff in Hb. destruct Hb as [k [<- Hk]]. simpl.
    rewrite (Hall k Hk). split; [reflexivity | exact Hitems].
  - intro Hne. destruct Hshape as [E | E]; rewrite E; simpl.
    + exfalso. destruct fl as [|t fl']; [now apply Hne|].
      assert (Hin : In (labelOf groupBy t) (sortedLabels (t :: fl') groupBy)).
      { apply sortedLabels_In. exists t. split; [now left | reflexivity]. }
      rewrite E in Hin. destruct Hin.
    + now rewrite Hitems.
Qed.

(** Week 5 selected among the records of weeks 4, 5, 5 and 6. *)
Lemma selected_slot_single_bucket_witness :
  "week:5" <> "all"
  /\ grouped (P := RefPlatform)
       (filtered (P := RefPlatform) ByWeek 0 "all" "week:5" "" sampleWeeks) ByWeek
     = [mkBucket "KW 5" [dated 2 "2026-01-27" (Some 5); dated 3 "2026-01-28" (Some 5)]].
Proof.
  split; [discriminate|].
  apply (proj2 (proj2 (@selected_slot_single_bucket RefPlatform ByWeek 0 "all" "week:5" ""
                         sampleWeeks ltac:(discriminate)))).
  discriminate.
Defined.

(** ** Category, week and month options *)

Lemma sorted_strict {A : Type} (R : A -> A -> Prop) (l : list A) :
  StronglySorted R l -> NoDup l -> StronglySorted (fun a b => R a b /\ a <> b) l.
Proof.
  induction 1 as [|x l Hs IH Hall]; intro Hnd; constructor.
  - apply IH. now inversion Hnd.
  - inversion Hnd as [|? ? Hnin _]; subst.
    rewrite Forall_forall in *. intros y Hy. split; [now apply Hall|].
    intros ->. now apply Hnin.
Qed.

Section OptionFacts.
Context {P : Platform}.

Lemma exportData_week_filter (m : string) (w : Z) (l : list Trend) :
  exportData ScopeWeek m (JS.String_of w) l
  = filter (fun t => match week_number t with
                     | Some n => n =? w
                     | None => false
                     end) l.
Proof.
  unfold exportData.
  destruct (String.eqb_spec (JS.String_of w) "all") as [E|_];
    [now apply String_of_not_all in E|].
  simpl. apply filter_ext. intro t.
  destruct (week_number t) as [n|].
  - destruct (String.eqb_spec (JS.String_of n) (JS.String_of w)) as [E|E].
    + apply String_of_injective in E. subst. symmetry. apply Z.eqb_refl.
    + symmetry. apply Z.eqb_neq. intro; subst; now apply E.
  - destruct (String.eqb_spec EmptyString (JS.String_of w)) as [E|_]; [|reflexivity].
    symmetry in E. now apply String_of_not_empty in E.
Qed.

Lemma monthKey_not_all (d : Z) : monthKey d <> "all".
Proof.
  unfold monthKey.
  pose proof (String_of_not_empty (getFullYear d)) as Hne.
  pose proof (String_of_numeric (getFullYear d)) as Hnum.
  destruct (JS.String_of (getFullYear d)) as [|c s]; [contradiction|].
  simpl in Hnum. apply andb_true_iff in Hnum. destruct Hnum as [Hc _].
  simpl. intro E. injection E as -> _. discriminate Hc.
Qed.

End OptionFacts.

(** X6. The category dropdown lists exactly the trimmed non-blank
    categories of the normalised records, each once; every listed
    category matches at least one record; and when the collation is a
    consistent order the list is ascending in it. *)
Theorem categories_offered {P : Platform} (localeCompareDefault : string -> string -> Z)
    (normalizedTrends : list Trend) :
  NoDup (categories localeCompareDefault normalizedTrends)
  /\ (forall c,
        In c (categories localeCompareDefault normalizedTrends)
        <-> exists t s, In t normalizedTrends /\ category t = Some s
                        /\ s <> EmptyString /\ trim s = c /\ c <> EmptyString)
  /\ (forall c, In c (categories localeCompareDefault normalizedTrends) ->
        exists t, In t normalizedTrends /\ categoryMatch c t = true)
  /\ (consistent localeCompareDefault ->
      StronglySorted (fun a b => localeCompareDefault a b <= 0)
                     (categories localeCompareDefault normalizedTrends)).
Proof.
  assert (Hin : forall c,
             In c (categories localeCompareDefault normalizedTrends)
             <-> exists t s, In t normalizedTrends /\ category t = Some s
                             /\ s <> EmptyString /\ trim s = c /\ c <> EmptyString).
  { intro c. unfold categories.
    rewrite sort_In, (Set_from_In String.eqb _ String_eqb_eq). split.
    - intros [t [Ht E]]. destruct (category t) as [s|] eqn:Hc; [|discriminate].
      unfold nonEmpty in E.
      destruct (String.eqb_spec s "") as [->|Hs]; [discriminate|].
      destruct (String.eqb_spec (trim s) "") as [Hts|Hts]; [discriminate|].
      simpl in E. injection E as <-. exists t, s. auto.
    - intros (t & s & Ht & Hc & Hs & <- & Hts). exists t. split; [exact Ht|].
      rewrite Hc. unfold nonEmpty.
      destruct (String.eqb_spec s ""); [contradiction|].
      destruct (String.eqb_spec (trim s) ""); [contradiction|]. reflexivity. }
  split; [|split; [exact Hin|split]].
  - unfold categories. eapply Permutation_NoDup; [symmetry; apply sort_perm|].
    apply (Set_from_NoDup String.eqb _ String_eqb_eq).
  - intros c Hc. apply Hin in Hc. destruct Hc as (t & s & Ht & Hc & _ & Hts & _).
    exists t. split; [exact Ht|]. unfold categoryMatch. rewrite Hc. simpl.
    rewrite Hts, String.eqb_refl. apply orb_true_r.
  - intro Hcons. unfold categories. now apply sort_sorted.
Qed.

(** X7. The week dropdown of the export lists the positive week
    numbers of the normalised records in strictly descending order;
    exporting an offered week gives a non-empty list, all of whose
    records carry that week. *)
Theorem exportWeeks_offered {P : Platform} (normalizedTrends : list Trend) :
  StronglySorted (fun a b => b < a) (exportWeeks normalizedTrends)
  /\ (forall w, In w (exportWeeks normalizedTrends)
                <-> 0 < w /\ exists t, In t normalizedTrends /\ week_number t = Some w)
  /\ (forall w m, In w (exportWeeks normalizedTrends) ->
        exportData ScopeWeek m (JS.String_of w) normalizedTrends <> []
        /\ forall t, In t (exportData ScopeWeek m (JS.String_of w) normalizedTrends) ->
                     week_number t = Some w).
Proof.
  assert (Hin : forall w, In w (exportWeeks normalizedTrends)
                <-> 0 < w /\ exists t, In t normalizedTrends /\ week_number t = Some w).
  { intro w. unfold exportWeeks. rewrite sort_In, (Set_from_In Z.eqb _ Z.eqb_eq). split.
    - intros [t [Ht E]]. destruct (week_number t) as [n|] eqn:Hw; [|discriminate].
      destruct (Z.ltb_spec 0 n); [|discriminate]. injection E as <-.
      split; [assumption|]. now exists t.
    - intros [Hpos [t [Ht Hw]]]. exists t. split; [exact Ht|]. rewrite Hw.
      destruct (Z.ltb_spec 0 w); [reflexivity | lia]. }
  split; [|split; [exact Hin|]].
  - assert (Hnd : NoDup (exportWeeks normalizedTrends)).
    { unfold exportWeeks. eapply Permutation_NoDup; [symmetry; apply sort_perm|].
      apply (Set_from_NoDup Z.eqb _ Z.eqb_eq). }
    assert (Hs : StronglySorted (fun a b => b - a <= 0) (exportWeeks normalizedTrends)).
    { unfold exportWeeks. apply sort_sorted. split; intros; lia. }
    eapply sorted_weaken; [|exact (sorted_strict _ _ Hs Hnd)].
    intros a b [H1 H2]. lia.
  - intros w m Hw. apply Hin in Hw. destruct Hw as [_ [t [Ht Hwt]]].
    rewrite exportData_week_filter. split.
    + intro E.
      assert (Hi : In t (filter (fun t => match week_number t with
                                          | Some n => n =? w
                                          | None => false
                                          end) normalizedTrends)).
      { apply filter_In. split; [exact Ht|]. rewrite Hwt. apply Z.eqb_refl. }
      rewrite E in Hi. destruct Hi.
    + intros u Hu. apply filter_In in Hu. destruct Hu as [_ Hu].
      destruct (week_number u) as [n|]; [|discriminate].
      apply Z.eqb_eq in Hu. now subst.
Qed.

(** X8. The month dropdown of the export lists the month keys of the
    records whose date parses, each once; no key is the sentinel
    "all"; exporting an offered month gives a non-empty list, all of
    whose records fall in that month. *)
Theorem exportMonths_offered {P : Platform} (localeCompareDefault : string -> string -> Z)
    (normalizedTrends : list Trend) :
  NoDup (exportMonths localeCompareDefault normalizedTrends)
  /\ (forall m, In m (exportMonths localeCompareDefault normalizedTrends)
                <-> exists t d, In t normalizedTrends
                                /\ safeDate (published_date t) = Some d /\ monthKey d = m)
  /\ (forall m w, In m (exportMonths localeCompareDefault normalizedTrends) ->
        m <> "all"
        /\ exportData ScopeMonth m w normalizedTrends <> []
        /\ forall t, In t (exportData ScopeMonth m w normalizedTrends) ->
                     exists d, safeDate (published_date t) = Some d /\ monthKey d = m).
Proof.
  assert (Hin : forall m, In m (exportMonths localeCompareDefault normalizedTrends)
                <-> exists t d, In t normalizedTrends
                                /\ safeDate (published_date t) = Some d /\ monthKey d = m).
  { intro m. unfold exportMonths.
    rewrite sort_In, (Set_from_In String.eqb _ String_eqb_eq). split.
    - intros [t [Ht E]]. destruct (safeDate (published_date t)) as [d|] eqn:Hd;
        [|discriminate]. simpl in E. injection E as <-. now exists t, d.
    - intros (t & d & Ht & Hd & <-). exists t. split; [exact Ht|]. now rewrite Hd. }
  split; [|split; [exact Hin|]].
  - unfold exportMonths. eapply Permutation_NoDup; [symmetry; apply sort_perm|].
    apply (Set_from_NoDup String.eqb _ String_eqb_eq).
  - intros m w Hm. apply Hin in Hm. destruct Hm as (t & d & Ht & Hd & <-).
    pose proof (monthKey_not_all d) as Hna.
    split; [exact Hna|].
    unfold exportData.
    destruct (String.eqb_spec (monthKey d) "all") as [E|_]; [contradiction|].
    simpl. split.
    + intro E.
      assert (Hi : In t (filter (fun t => match safeDate (published_date t) with
                                          | Some d0 => String.eqb (monthKey d0) (monthKey d)
                                          | None => false
                                          end) normalizedTrends)).
      { apply filter_In. split; [exact Ht|]. rewrite Hd. apply String.eqb_refl. }
      rewrite E in Hi. destruct Hi.
    + intros u Hu. apply filter_In in Hu. destruct Hu as [_ Hu].
      destruct (safeDate (published_date u)) as [d0|]; [|discriminate].
      apply String.eqb_eq in Hu. now exists d0.
Qed.

(** ** Category counts *)

Section CountFacts.
Context {P : Platform}.

(** An entry of the grouping map, reduced to its count. *)
Let tallyEntry (kv : string * list Trend) : string * nat :=
  (fst kv, List.length (snd kv)).

Lemma Map_increment_push (m : JS.MapArr Trend) (k : string) (t : Trend) :
  Map_increment (map tallyEntry m) k = map tallyEntry (JS.Map_push m k t).
Proof.
  induction m as [|[k' vs] m IH]; simpl; [reflexivity|].
  destruct (String.eqb k' k); simpl.
  - unfold tallyEntry at 2. simpl. rewrite length_app. simpl.
    replace (List.length vs + 1)%nat with (S (List.length vs)) by lia. reflexivity.
  - now rewrite IH.
Qed.

Lemma categoryCount_tally (items : list Trend) :
  categoryCount items = map tallyEntry (groupBy_key categoryOrDefault items).
Proof.
  unfold categoryCount, groupBy_key.
  change (@nil (string * nat)) with (map tallyEntry []).
  generalize (@nil (string * list Trend)).
  induction items as [|t items IH]; intro m; simpl; [reflexivity|].
  rewrite (Map_increment_push m _ t). apply IH.
Qed.

Lemma categoryCount_keys (items : list Trend) :
  map fst (categoryCount items) = JS.Map_keys (groupBy_key categoryOrDefault items).
Proof.
  rewrite categoryCount_tally, map_map. reflexivity.
Qed.

Lemma categoryCount_entry (items : list Trend) (k : string) (n : nat) :
  In (k, n) (categoryCount items) -> n = categoryTally items k /\ (1 <= n)%nat.
Proof.
  rewrite categoryCount_tally. intro Hin. apply in_map_iff in Hin.
  destruct Hin as [[k' vs] [E Hin]]. unfold tallyEntry in E. simpl in E.
  injection E as -> <-.
  destruct (groupBy_key_inv categoryOrDefault items) as (_ & Hent & Hkeys).
  pose proof (Hent k vs Hin) as Hvs. split.
  - unfold categoryTally. now rewrite Hvs.
  - assert (Hk : In k (JS.Map_keys (groupBy_key categoryOrDefault items))).
    { unfold JS.Map_keys. apply in_map_iff. now exists (k, vs). }
    apply Hkeys in Hk. destruct Hk as [t [Ht Hkt]].
    assert (Hi : In t vs).
    { rewrite Hvs. apply filter_In. split; [exact Ht|]. subst. apply String.eqb_refl. }
    destruct vs; [destruct Hi | simpl; lia].
Qed.

Lemma categoryCount_has (items : list Trend) (t : Trend) :
  In t items ->
  In (categoryOrDefault t, categoryTally items (categoryOrDefault t)) (categoryCount items).
Proof.
  intro Ht.
  destruct (groupBy_key_inv categoryOrDefault items) as (_ & _ & Hkeys).
  assert (Hk : In (categoryOrDefault t) (map fst (categoryCount items))).
  { rewrite categoryCount_keys. apply Hkeys. now exists t. }
  apply in_map_iff in Hk. destruct Hk as [[k n] [E Hin]]. simpl in E. subst k.
  now rewrite <- (proj1 (categoryCount_entry _ _ _ Hin)).
Qed.

Lemma categoryCount_NoDup (items : list Trend) : NoDup (map fst (categoryCount items)).
Proof.
  rewrite categoryCount_keys.
  now destruct (groupBy_key_inv categoryOrDefault items) as (Hnd & _ & _).
Qed.

Lemma compareCounts_consistent : consistent compareCounts.
Proof.
  unfold consistent, compareCounts. split; intros; lia.
Qed.

Lemma categoryOrDefault_nonempty (t : Trend) : categoryOrDefault t <> EmptyString.
Proof.
  unfold categoryOrDefault, nonEmpty.
  destruct (String.eqb_spec (trim (orEmpty (category t))) "") as [E|E]; simpl.
  - discriminate.
  - exact E.
Qed.

End CountFacts.

(** The keys of the grouping map stand in the order in which they
    first occur among the records. *)
Lemma Map_push_keys {V : Type} (m : JS.MapArr V) (k : string) (v : V) :
  (In k (JS.Map_keys m) /\ JS.Map_keys (JS.Map_push m k v) = JS.Map_keys m)
  \/ (~ In k (JS.Map_keys m)
      /\ JS.Map_keys (JS.Map_push m k v) = (JS.Map_keys m ++ [k])%list).
Proof.
  unfold JS.Map_keys. induction m as [|[k' vs] m IH]; simpl.
  - right. split; [tauto | reflexivity].
  - destruct (String.eqb_spec k' k) as [->|Hne]; simpl.
    + left. split; [now left | reflexivity].
    + destruct IH as [[Hin E]|[Hnin E]].
      * left. split; [now right | now rewrite E].
      * right. split; [|now rewrite E]. intros [H|H]; [now apply Hne | now apply Hnin].
Qed.

Lemma groupBy_key_first_occurrence {V : Type} (key : V -> string) (l : list V)
    (pre post : list string) (k : string) :
  JS.Map_keys (groupBy_key key l) = (pre ++ k :: post)%list ->
  exists lpre t lpost,
    l = (lpre ++ t :: lpost)%list /\ key t = k /\ forall u, In u lpre -> In (key u) pre.
Proof.
  revert pre post. induction l as [|t l IH] using rev_ind; intros pre post Hk.
  - destruct pre; discriminate.
  - unfold groupBy_key in Hk. rewrite fold_left_app in Hk. simpl in Hk.
    fold (groupBy_key key l) in Hk.
    destruct (groupBy_key_inv key l) as (_ & _ & Hkeys).
    destruct (Map_push_keys (groupBy_key key l) (key t) t) as [[Hin E]|[Hnin E]];
      rewrite E in Hk.
    + destruct (IH pre post Hk) as (lpre & t0 & lpost & -> & Ht0 & Hpre).
      exists lpre, t0, (lpost ++ [t])%list. split; [|split; assumption].
      rewrite <- app_assoc. reflexivity.
    + destruct post as [|p post'] using rev_ind.
      * apply app_inj_tail in Hk. destruct Hk as [Hpre Hkt].
        exists l, t, []. split; [reflexivity|]. split; [exact Hkt|].
        intros u Hu. rewrite <- Hpre. apply Hkeys. now exists u.
      * clear IHpost'.
        replace (pre ++ k :: post' ++ [p])%list with ((pre ++ k :: post') ++ [p])%list in Hk
          by (rewrite <- app_assoc; reflexivity).
        apply app_inj_tail in Hk. destruct Hk as [Hk _].
        destruct (IH pre post' Hk) as (lpre & t0 & lpost & -> & Ht0 & Hpre).
        exists lpre, t0, (lpost ++ [t])%list. split; [|split; assumption].
        rewrite <- app_assoc. reflexivity.
Qed.

Lemma sorted_firstn {A : Type} (R : A -> A -> Prop) (n : nat) (l : list A) :
  StronglySorted R l -> StronglySorted R (firstn n l).
Proof.
  intro Hs. revert n. induction Hs as [|x l Hs IH Hall]; intros [|n]; simpl;
    try constructor.
  - apply IH.
  - rewrite Forall_forall in *. intros y Hy. apply Hall.
    rewrite <- (firstn_skipn n l). apply in_or_app. now left.
Qed.

(** The head of the sorted counts is the first category, in the order
    of the records, that no other category outnumbers. *)
Lemma topCat_first_maximum {P : Platform} (items : list Trend) :
  (items = [] -> topCat items = EmptyString)
  /\ (items <> [] ->
      topCat items <> EmptyString
      /\ exists pre t post,
           items = (pre ++ t :: post)%list
           /\ categoryOrDefault t = topCat items
           /\ (forall u, In u pre ->
                 (categoryTally items (categoryOrDefault u)
                  < categoryTally items (topCat items))%nat)
           /\ (forall u, In u items ->
                 (categoryTally items (categoryOrDefault u)
                  <= categoryTally items (topCat items))%nat)).
Proof.
  split; [intros ->; reflexivity|].
  intro Hne. unfold topCat.
  destruct (JS.sort compareCounts (categoryCount items)) as [|[k n] rest] eqn:Hs.
  - exfalso. destruct items as [|t items']; [now apply Hne|].
    pose proof (categoryCount_has (t :: items') t (or_introl eq_refl)) as Hin.
    apply (sort_In compareCounts) in Hin. rewrite Hs in Hin. destruct Hin.
  - simpl.
    destruct (sort_head compareCounts _ _ _ compareCounts_consistent Hs)
      as (cpre & cpost & Hsplit & Hbefore & Hall).
    assert (Hk : In (k, n) (categoryCount items)).
    { rewrite Hsplit. apply in_or_app. right. now left. }
    destruct (categoryCount_entry _ _ _ Hk) as [Hn _].
    assert (Hkeys : JS.Map_keys (groupBy_key categoryOrDefault items)
                    = (map fst cpre ++ k :: map fst cpost)%list).
    { rewrite <- categoryCount_keys, Hsplit, map_app. reflexivity. }
    destruct (groupBy_key_first_occurrence _ _ _ _ _ Hkeys)
      as (pre & t & post & Hitems & Ht & Hpre).
    split; [rewrite <- Ht; apply categoryOrDefault_nonempty|].
    exists pre, t, post. split; [exact Hitems|]. split; [exact Ht|]. split.
    + intros u Hu. apply Hpre in Hu. apply in_map_iff in Hu.
      destruct Hu as [[ku nu] [E Hin]]. simpl in E. subst ku.
      assert (Hc : In (categoryOrDefault u, nu) (categoryCount items)).
      { rewrite Hsplit. apply in_or_app. now left. }
      destruct (categoryCount_entry _ _ _ Hc) as [Hnu _].
      specialize (Hbefore _ Hin). unfold compareCounts in Hbefore. simpl in Hbefore.
      rewrite <- Hnu, <- Hn. lia.
    + intros u Hu. pose proof (categoryCount_has items u Hu) as Hc.
      specialize (Hall _ Hc). unfold compareCounts in Hall. simpl in Hall.
      rewrite <- Hn. lia.
Qed.

(** X9. The top category of a source group is the most frequent
    category of its records, blank categories counting as
    "Unkategorisiert"; among equally frequent categories it is the one
    met first.  It is empty only for an empty group. *)
Theorem topCat_most_frequent {P : Platform} (items : list Trend) :
  (items = [] -> topCat items = EmptyString)
  /\ (items <> [] ->
      topCat items <> EmptyString
      /\ exists pre t post,
           items = (pre ++ t :: post)%list
           /\ categoryOrDefault t = topCat items
           /\ (forall u, In u pre ->
                 (categoryTally items (categoryOrDefault u)
                  < categoryTally items (topCat items))%nat)
           /\ (forall u, In u items ->
                 (categoryTally items (categoryOrDefault u)
                  <= categoryTally items (topCat items))%nat)).
Proof.
  exact (topCat_first_maximum items).
Qed.

(** One blank category among two pairs: the first pair wins. *)
Lemma topCat_most_frequent_witness :
  sampleCategories <> []
  /\ topCat (P := RefPlatform) sampleCategories = "Audio"
  /\ (forall u, In u sampleCategories ->
        (categoryTally (P := RefPlatform) sampleCategories (categoryOrDefault u)
         <= categoryTally (P := RefPlatform) sampleCategories "Audio")%nat).
Proof.
  split; [discriminate|]. split; [reflexivity|].
  destruct (proj2 (@topCat_most_frequent RefPlatform sampleCategories) ltac:(discriminate))
    as (_ & pre & t & post & _ & _ & _ & Hall).
  exact Hall.
Defined.

(** X10. The bar chart shows at most six categories, each once, with
    the number of records counted under it (at least one), in
    descending order of that number; a category that is left out has
    no more records than any bar that is shown. *)
Theorem bars_top_six {P : Platform} (filtered : list Trend) :
  (List.length (bars filtered) <= 6)%nat
  /\ NoDup (map fst (bars filtered))
  /\ (forall name value, In (name, value) (bars filtered) ->
        value = categoryTally filtered name /\ (1 <= value)%nat)
  /\ StronglySorted (fun a b => (snd b <= snd a)%nat) (bars filtered)
  /\ (forall t, In t filtered ->
        In (categoryOrDefault t) (map fst (bars filtered))
        \/ forall b, In b (bars filtered) ->
                     (categoryTally filtered (categoryOrDefault t) <= snd b)%nat)
  /\ ((List.length (categoryCount filtered) <= 6)%nat ->
      forall t, In t filtered -> In (categoryOrDefault t) (map fst (bars filtered))).
Proof.
  unfold bars.
  set (s := JS.sort compareCounts (categoryCount filtered)).
  assert (Hsorted : StronglySorted (fun a b => compareCounts a b <= 0) s)
    by (apply sort_sorted, compareCounts_consistent).
  assert (Hsplit : s = (firstn 6 s ++ skipn 6 s)%list) by (symmetry; apply firstn_skipn).
  assert (Hin : forall e, In e (firstn 6 s) -> In e (categoryCount filtered)).
  { intros e He. apply (sort_In compareCounts). fold s. rewrite Hsplit.
    apply in_or_app. now left. }
  split; [apply firstn_le_length|]. split; [|split; [|split; [|split]]].
  - rewrite <- firstn_map.
    assert (Hnd : NoDup (map fst s)).
    { eapply Permutation_NoDup; [|apply (categoryCount_NoDup filtered)].
      apply Permutation_map. symmetry. apply sort_perm. }
    rewrite <- (firstn_skipn 6 (map fst s)) in Hnd.
    now apply NoDup_app_remove_r in Hnd.
  - intros name value He. apply categoryCount_entry. now apply Hin.
  - apply sorted_firstn. eapply sorted_weaken; [|exact Hsorted].
    intros a b. unfold compareCounts. lia.
  - intros t Ht. pose proof (categoryCount_has filtered t Ht) as Hc.
    apply (sort_In compareCounts) in Hc. fold s in Hc. rewrite Hsplit in Hc.
    apply in_app_or in Hc. destruct Hc as [Hc|Hc].
    + left. apply in_map_iff. now exists (categoryOrDefault t, categoryTally filtered (categoryOrDefault t)).
    + right. intros b Hb.
      apply in_split in Hb. destruct Hb as (l1 & l2 & Hb).
      apply in_split in Hc. destruct Hc as (m1 & m2 & Hc).
      assert (Hs' : s = (l1 ++ b :: (l2 ++ m1)
                         ++ (categoryOrDefault t, categoryTally filtered (categoryOrDefault t))
                         :: m2)%list).
      { transitivity (firstn 6 s ++ skipn 6 s)%list; [exact Hsplit|].
        rewrite Hb, Hc. repeat (rewrite <- app_assoc; simpl). reflexivity. }
      pose proof (sorted_before _ _ _ _ _ _ _ Hsorted Hs') as Hle.
      unfold compareCounts in Hle. simpl in Hle. lia.
  - intros Hlen t Ht. pose proof (categoryCount_has filtered t Ht) as Hc.
    apply (sort_In compareCounts) in Hc. fold s in Hc.
    assert (Hall : firstn 6 s = s).
    { apply firstn_all2. unfold s.
      rewrite (Permutation_length (sort_perm compareCounts (categoryCount filtered))).
      exact Hlen. }
    rewrite Hall. apply in_map_iff.
    now exists (categoryOrDefault t, categoryTally filtered (categoryOrDefault t)).
Qed.

Lemma filter_length_concat {A : Type} (p : A -> bool) (ll : list (list A)) :
  List.length (filter p (List.concat ll))
  = list_sum (map (fun l => List.length (filter p l)) ll).
Proof.
  induction ll as [|l ll IH]; simpl; [reflexivity|].
  now rewrite filter_app, length_app, IH.
Qed.

Lemma filter_length_perm {A : Type} (p : A -> bool) (l l' : list A) :
  Permutation l l' -> List.length (filter p l) = List.length (filter p l').
Proof.
  induction 1 as [|x l l' _ IH|x y l|l l' l'' _ IH1 _ IH2]; simpl.
  - reflexivity.
  - destruct (p x); simpl; now rewrite IH.
  - destruct (p x), (p y); reflexivity.
  - now rewrite IH1.
Qed.

Lemma sortedSources_count {P : Platform} (p : Trend -> bool) (items : list Trend) :
  list_sum (map (fun c => List.length (filter p (snd c))) (sortedSources items))
  = List.length (filter p items).
Proof.
  rewrite <- (map_map snd (fun l => List.length (filter p l))).
  rewrite <- filter_length_concat. apply filter_length_perm.
  transitivity (List.concat (map snd (bySource items))).
  - unfold sortedSources. rewrite <- !flat_map_concat_map.
    apply Permutation_flat_map. apply sort_perm.
  - apply bySource_permutation.
Qed.

(** X11. In the source-grouped layout of a bucket every group has a
    non-empty top category, which is the category of one of its own
    records, and the high and middle counts in the group headers add up
    to the high and middle bands that [kpis] counts for the same
    records. *)
Theorem sourceGroup_header {P : Platform} (items : list Trend) :
  (forall c, In c (sortedSources items) ->
     topCat (snd c) <> EmptyString
     /\ exists t, In t (snd c) /\ In t items /\ sourceDomain t = fst c
                  /\ categoryOrDefault t = topCat (snd c))
  /\ list_sum (map (fun c => sourceGroupHigh (snd c)) (sortedSources items))
     = distHigh (kpis items)
  /\ list_sum (map (fun c => sourceGroupMid (snd c)) (sortedSources items))
     = distMid (kpis items).
Proof.
  split; [|split].
  - intros c Hc. unfold sortedSources in Hc. apply sort_In in Hc.
    destruct (bySource_entries items c Hc) as [Hmem Hne].
    destruct (proj2 (topCat_first_maximum (snd c)) Hne)
      as (Htop & pre & t & post & Hsplit & Ht & _).
    split; [exact Htop|].
    exists t. assert (Hin : In t (snd c)).
    { rewrite Hsplit. apply in_or_app. right. now left. }
    split; [exact Hin|].
    rewrite Hmem in Hin. apply filter_In in Hin. destruct Hin as [Hin E].
    apply String.eqb_eq in E. auto.
  - unfold sourceGroupHigh. apply sortedSources_count.
  - unfold sourceGroupMid. apply sortedSources_count.
Qed.

(** ** Open and closed cards and source groups *)

Lemma State_get_set_same (state : OpenState) (k : string) (v : bool) :
  State_get (State_set state k v) k = Some v.
Proof.
  unfold State_get. induction state as [|[k' v'] state IH]; simpl.
  - now rewrite String.eqb_refl.
  - destruct (String.eqb k' k) eqn:E; simpl; rewrite E; [reflexivity | exact IH].
Qed.

Lemma State_get_set_other (state : OpenState) (k k' : string) (v : bool) :
  k' <> k -> State_get (State_set state k v) k' = State_get state k'.
Proof.
  intro Hne. unfold State_get. induction state as [|[k0 v0] state IH]; simpl.
  - destruct (String.eqb_spec k k'); [congruence | reflexivity].
  - destruct (String.eqb_spec k0 k) as [->|H0]; simpl.
    + destruct (String.eqb_spec k k'); [congruence | reflexivity].
    + destruct (String.eqb k0 k'); [reflexivity | exact IH].
Qed.

Lemma State_truthy_set_same (state : OpenState) (k : string) (v : bool) :
  State_has (State_set state k v) k = true
  /\ State_truthy (State_set state k v) k = v.
Proof.
  unfold State_has, State_truthy. now rewrite State_get_set_same.
Qed.

Lemma State_truthy_set_other (state : OpenState) (k k' : string) (v : bool) :
  k' <> k ->
  State_has (State_set state k v) k' = State_has state k'
  /\ State_truthy (State_set state k v) k' = State_truthy state k'.
Proof.
  intro Hne. unfold State_has, State_truthy. now rewrite State_get_set_other.
Qed.

Lemma freeOf_app (sep : ascii) (a b : string) :
  freeOf sep (a ++ b) = freeOf sep a && freeOf sep b.
Proof.
  unfold freeOf. induction a as [|c a IH]; simpl; [reflexivity|].
  now rewrite IH, andb_assoc.
Qed.

Lemma inherited_no_colon (k : string) : inherited k = true -> freeOf ":" k = true.
Proof.
  unfold inherited. intro H. apply existsb_exists in H.
  destruct H as [x [Hin E]]. apply String.eqb_eq in E. subst x.
  simpl in Hin.
  repeat (destruct Hin as [<-|Hin]; [reflexivity|]). destruct Hin.
Qed.

Lemma inherited_not_numeric (k : string) :
  inherited k = true -> allChars isNumeric k = false.
Proof.
  unfold inherited. intro H. apply existsb_exists in H.
  destruct H as [x [Hin E]]. apply String.eqb_eq in E. subst x.
  simpl in Hin.
  repeat (destruct Hin as [<-|Hin]; [reflexivity|]). destruct Hin.
Qed.

Lemma groupKey_not_inherited (label domain : string) :
  inherited (groupKey label domain) = false.
Proof.
  destruct (inherited (groupKey label domain)) eqn:E; [|reflexivity].
  apply inherited_no_colon in E. unfold groupKey in E.
  rewrite freeOf_app in E. apply andb_true_iff in E. destruct E as [_ E].
  discriminate E.
Qed.

Lemma cardIsOpen_toggle (expanded : OpenState) (i : TrendId) (t : Trend) :
  cardIsOpen (toggleExpanded expanded i) t
  = (if String.eqb (idKey (id t)) (idKey i) then negb (cardIsOpen expanded t)
     else cardIsOpen expanded t).
Proof.
  unfold cardIsOpen, toggleExpanded.
  destruct (String.eqb_spec (idKey (id t)) (idKey i)) as [->|Hne].
  - apply State_truthy_set_same.
  - now apply State_truthy_set_other.
Qed.

(** X12. Clicking a card flips the open state of exactly the cards
    whose id prints like the clicked one (so the ids 7 and "7" open and
    close together), a second click restores every card, and on a fresh
    page every card with a numeric id is closed. *)
Theorem toggleExpanded_flips (expanded : OpenState) (i : TrendId) (t : Trend) :
  cardIsOpen (toggleExpanded expanded i) t
  = (if String.eqb (idKey (id t)) (idKey i) then negb (cardIsOpen expanded t)
     else cardIsOpen expanded t)
  /\ cardIsOpen (toggleExpanded (toggleExpanded expanded i) i) t = cardIsOpen expanded t
  /\ (forall n, id t = IdNumber n -> cardIsOpen [] t = false).
Proof.
  split; [apply cardIsOpen_toggle|]. split.
  - rewrite !cardIsOpen_toggle.
    destruct (String.eqb (idKey (id t)) (idKey i)); [apply negb_involutive | reflexivity].
  - intros n Hn. unfold cardIsOpen, State_truthy. rewrite Hn. simpl.
    destruct (inherited (JS.String_of n)) eqn:E; [|reflexivity].
    apply inherited_not_numeric in E. now rewrite String_of_numeric in E.
Qed.

Lemma sourceGroupIsOpen_toggle (sourceGroupOpen : OpenState) (key : string) (d d' : bool) :
  sourceGroupIsOpen (toggleSourceGroup sourceGroupOpen key d) key d'
  = negb (sourceGroupIsOpen sourceGroupOpen key d).
Proof.
  unfold sourceGroupIsOpen, toggleSourceGroup.
  destruct (State_truthy_set_same sourceGroupOpen key
              (negb (if State_has sourceGroupOpen key
                     then State_truthy sourceGroupOpen key else d))) as [-> ->].
  reflexivity.
Qed.

(** X13. Clicking the header of a source group flips that group,
    whatever its default, and leaves every other group as it was; a
    second click restores it even if the default has changed in
    between.  On a fresh page a group is open exactly when it has at
    most three records. *)
Theorem toggleSourceGroup_flips (sourceGroupOpen : OpenState) (key other : string)
    (d d' d'' : bool) :
  sourceGroupIsOpen (toggleSourceGroup sourceGroupOpen key d) key d'
  = negb (sourceGroupIsOpen sourceGroupOpen key d)
  /\ (other <> key ->
      sourceGroupIsOpen (toggleSourceGroup sourceGroupOpen key d) other d'
      = sourceGroupIsOpen sourceGroupOpen other d')
  /\ sourceGroupIsOpen
       (toggleSourceGroup (toggleSourceGroup sourceGroupOpen key d) key d') key d''
     = sourceGroupIsOpen sourceGroupOpen key d
  /\ (forall label domain sourceItems,
        sourceGroupIsOpen [] (groupKey label domain) (defaultOpen sourceItems) = true
        <-> (List.length sourceItems <= 3)%nat).
Proof.
  split; [apply sourceGroupIsOpen_toggle|]. split; [|split].
  - intro Hne. unfold sourceGroupIsOpen, toggleSourceGroup.
    destruct (State_truthy_set_other sourceGroupOpen key other
                (negb (if State_has sourceGroupOpen key
                       then State_truthy sourceGroupOpen key else d)) Hne) as [-> ->].
    reflexivity.
  - rewrite !sourceGroupIsOpen_toggle. apply negb_involutive.
  - intros label domain sourceItems.
    unfold sourceGroupIsOpen, State_has, State_truthy. simpl.
    rewrite groupKey_not_inherited. unfold defaultOpen. apply Nat.leb_le.
Qed.

Lemma groupKey_injective (l1 d1 l2 d2 : string) :
  freeOf ":" l1 = true -> freeOf ":" l2 = true ->
  groupKey l1 d1 = groupKey l2 d2 -> l1 = l2 /\ d1 = d2.
Proof.
  unfold groupKey, freeOf. revert l2.
  induction l1 as [|c l1 IH]; intros [|c2 l2]; simpl.
  - intros _ _ E. injection E as ->. auto.
  - rewrite andb_true_iff. intros _ [Hc _] E. injection E as <- _. discriminate Hc.
  - rewrite andb_true_iff. intros [Hc _] _ E. injection E as -> _. discriminate Hc.
  - rewrite !andb_true_iff. intros [_ H1] [_ H2] E. injection E as -> E.
    destruct (IH l2 H1 H2 E) as [-> ->]. auto.
Qed.

Lemma labelOf_week_no_colon {P : Platform} (t : Trend) :
  freeOf ":" (labelOf ByWeek t) = true.
Proof.
  destruct (week_number t) as [w|] eqn:Hw.
  - destruct (Z.eq_dec w 0) as [->|Hnz].
    + rewrite labelOf_week_unknown; [reflexivity | now right].
    + rewrite (labelOf_week_known t w Hw Hnz), freeOf_app. simpl.
      apply numeric_no_colon, String_of_numeric.
  - rewrite labelOf_week_unknown; [reflexivity | now left].
Qed.

(** X14. In week mode two different source groups of the page, in the
    same bucket or in different ones, never share a state key: opening
    or closing one of them leaves the others alone. *)
Theorem groupKey_separates_week {P : Platform} (filtered : list Trend)
    (b1 b2 : Bucket) (c1 c2 : string * list Trend) :
  In b1 (grouped filtered ByWeek) -> In b2 (grouped filtered ByWeek) ->
  In c1 (sortedSources (items b1)) -> In c2 (sortedSources (items b2)) ->
  b1 <> b2 \/ c1 <> c2 ->
  groupKey (label b1) (fst c1) <> groupKey (label b2) (fst c2).
Proof.
  intros Hb1 Hb2 Hc1 Hc2 Hdiff E.
  assert (Hfree : forall b, In b (grouped filtered ByWeek) -> freeOf ":" (label b) = true).
  { intros b Hb. apply (in_map label) in Hb. rewrite grouped_labels in Hb.
    apply sortedLabels_In in Hb. destruct Hb as [t [_ <-]]. apply labelOf_week_no_colon. }
  destruct (groupKey_injective _ _ _ _ (Hfree b1 Hb1) (Hfree b2 Hb2) E) as [Hl Hd].
  assert (Hb : b1 = b2).
  { pose proof (grouped_bucket_items _ _ _ Hb1) as H1.
    pose proof (grouped_bucket_items _ _ _ Hb2) as H2.
    destruct b1 as [k1 i1], b2 as [k2 i2]. simpl in *. subst. reflexivity. }
  subst b2.
  assert (Hc : c1 = c2).
  { unfold sortedSources in Hc1, Hc2. apply sort_In in Hc1. apply sort_In in Hc2.
    destruct (bySource_entries _ _ Hc1) as [H1 _].
    destruct (bySource_entries _ _ Hc2) as [H2 _].
    destruct c1 as [k1 v1], c2 as [k2 v2]. simpl in *. subst. reflexivity. }
  destruct Hdiff as [H|H]; now apply H.
Qed.

(** The groups of weeks 4 and 5, both without a source. *)
Lemma groupKey_separates_week_witness :
  In (mkBucket "KW 4" [dated 1 "2026-01-20" (Some 4)])
     (grouped (P := RefPlatform) sampleWeeks ByWeek)
  /\ In (mkBucket "KW 5" [dated 2 "2026-01-27" (Some 5); dated 3 "2026-01-28" (Some 5)])
        (grouped (P := RefPlatform) sampleWeeks ByWeek)
  /\ groupKey "KW 4" "Unbekannte Quelle" <> groupKey "KW 5" "Unbekannte Quelle".
Proof.
  assert (H4 : In (mkBucket "KW 4" [dated 1 "2026-01-20" (Some 4)])
                  (grouped (P := RefPlatform) sampleWeeks ByWeek))
    by (vm_compute; tauto).
  assert (H5 : In (mkBucket "KW 5" [dated 2 "2026-01-27" (Some 5);
                                    dated 3 "2026-01-28" (Some 5)])
                  (grouped (P := RefPlatform) sampleWeeks ByWeek))
    by (vm_compute; tauto).
  split; [exact H4|]. split; [exact H5|].
  apply (@groupKey_separates_week RefPlatform sampleWeeks _ _
           ("Unbekannte Quelle", [dated 1 "2026-01-20" (Some 4)])
           ("Unbekannte Quelle", [dated 2 "2026-01-27" (Some 5);
                                  dated 3 "2026-01-28" (Some 5)]) H4 H5).
  - vm_compute. tauto.
  - vm_compute. tauto.
  - left. discriminate.
Defined.

(** ** Score badges *)

Lemma Qle_bool_clamp01 (c q : Q) :
  (0 < c)%Q -> (c <= 1)%Q -> Qle_bool c (clamp01 q) = Qle_bool c q.
Proof.
  intros Hpos Hle. unfold clamp01.
  destruct (Qle_bool c (Qmax 0 (Qmin 1 q))) eqn:E1; destruct (Qle_bool c q) eqn:E2;
    try reflexivity; exfalso.
  - apply Qle_bool_iff in E1. apply Q.max_le_iff in E1. destruct E1 as [E1|E1].
    + apply (Qlt_not_le _ _ Hpos E1).
    + apply Q.min_glb_iff in E1. destruct E1 as [_ E1].
      apply Qle_bool_iff in E1. congruence.
  - apply Qle_bool_iff in E2.
    assert (H : (c <= Qmax 0 (Qmin 1 q))%Q).
    { apply Q.max_le_iff. right. apply Q.min_glb; assumption. }
    apply Qle_bool_iff in H. congruence.
Qed.

Lemma hasBadge_bands (t : Trend) :
  hasBadge "text-score-high" t = Qle_bool (8 # 10) (scoreOr0 t)
  /\ hasBadge "text-score-mid" t
     = Qle_bool (6 # 10) (scoreOr0 t) && Qlt_bool (scoreOr0 t) (8 # 10)
  /\ match relevance_score t with
     | Some _ => hasBadge "text-score-low" t
     | None => true
     end = Qlt_bool (scoreOr0 t) (6 # 10).
Proof.
  unfold hasBadge, scoreBadge, scoreOr0, Qlt_bool.
  destruct (relevance_score t) as [q|]; [|repeat split].
  unfold scoreColor. cbv zeta.
  rewrite !Qle_bool_clamp01 by (reflexivity || discriminate).
  destruct (Qle_bool (8 # 10) q) eqn:E8; destruct (Qle_bool (6 # 10) q) eqn:E6;
    try (repeat split; fail).
  exfalso. apply Qle_bool_iff in E8.
  assert (H : (6 # 10 <= q)%Q) by (eapply Qle_trans; [|exact E8]; discriminate).
  apply Qle_bool_iff in H. congruence.
Qed.

Lemma filter_length_split {A : Type} (p q r : A -> bool) (l : list A) :
  (forall x, In x l -> p x = q x || r x) ->
  (forall x, In x l -> q x && r x = false) ->
  List.length (filter p l)
  = (List.length (filter q l) + List.length (filter r l))%nat.
Proof.
  induction l as [|x l IH]; intros Hp Hqr; simpl; [reflexivity|].
  rewrite (Hp x (or_introl eq_refl)).
  pose proof (Hqr x (or_introl eq_refl)) as Hx.
  assert (IH' : List.length (filter p l)
                = (List.length (filter q l) + List.length (filter r l))%nat).
  { apply IH; intros y Hy; [apply Hp | apply Hqr]; now right. }
  destruct (q x), (r x); simpl in *; try discriminate; lia.
Qed.

(** X15. The bands of the donut count the badge colours of the cards:
    the high band is the number of records whose badge is
    [text-score-high], the middle band the number whose badge is
    [text-score-mid], and the low band the number whose badge is
    [text-score-low] plus the number of records that have no score and
    hence no badge. *)
Theorem scoreBadge_bands (filtered : list Trend) :
  distHigh (kpis filtered) = List.length (filter (hasBadge "text-score-high") filtered)
  /\ distMid (kpis filtered) = List.length (filter (hasBadge "text-score-mid") filtered)
  /\ distLow (kpis filtered)
     = (List.length (filter (hasBadge "text-score-low") filtered)
        + List.length (filter (fun t => match scoreBadge t with
                                        | None => true
                                        | Some _ => false
                                        end) filtered))%nat.
Proof.
  unfold kpis. simpl. split; [|split].
  - f_equal. apply filter_ext. intro t. symmetry. apply hasBadge_bands.
  - f_equal. apply filter_ext. intro t. symmetry. apply hasBadge_bands.
  - apply filter_length_split.
    + intros t _. destruct (hasBadge_bands t) as (_ & _ & H). rewrite <- H.
      unfold hasBadge, scoreBadge. destruct (relevance_score t); simpl.
      * now rewrite orb_false_r.
      * reflexivity.
    + intros t _. unfold hasBadge, scoreBadge. destruct (relevance_score t); simpl.
      * apply andb_false_r.
      * reflexivity.
Qed.

(** ** The middleware *)

Lemma split_nonempty (sep : ascii) (s : string) : JS.split sep s <> [].
Proof.
  destruct s as [|c s]; simpl; [discriminate|].
  destruct (Ascii.eqb c sep); [discriminate|].
  destruct (JS.split sep s); discriminate.
Qed.

Lemma split_fields_free (sep : ascii) (s : string) :
  Forall (fun f => freeOf sep f = true) (JS.split sep s).
Proof.
  induction s as [|c s IH]; simpl.
  - repeat constructor.
  - destruct (Ascii.eqb c sep) eqn:E.
    + constructor; [reflexivity | exact IH].
    + destruct (JS.split sep s) as [|w ws].
      * constructor; [|constructor]. unfold freeOf. simpl. now rewrite E.
      * inversion IH as [|? ? Hw Hws]; subst. constructor; [|exact Hws].
        unfold freeOf in *. simpl. now rewrite E, Hw.
Qed.

Lemma join_split (sep : ascii) (s : string) : join sep (JS.split sep s) = s.
Proof.
  induction s as [|c s IH]; simpl; [reflexivity|].
  pose proof (split_nonempty sep s) as Hne.
  destruct (Ascii.eqb_spec c sep) as [->|Hc].
  - destruct (JS.split sep s) as [|w ws]; [contradiction|].
    change (join sep (EmptyString :: w :: ws)) with (String sep (join sep (w :: ws))).
    now rewrite IH.
  - destruct (JS.split sep s) as [|w ws]; [contradiction|].
    rewrite <- IH. destruct ws; reflexivity.
Qed.

Lemma split_app_sep (sep : ascii) (a s : string) :
  freeOf sep a = true -> JS.split sep (a ++ String sep s) = a :: JS.split sep s.
Proof.
  unfold freeOf. induction a as [|c a IH]; simpl.
  - intros _. now rewrite Ascii.eqb_refl.
  - rewrite andb_true_iff. intros [Hc Ha]. apply negb_true_iff in Hc.
    now rewrite Hc, (IH Ha).
Qed.

(** The first two fields of a split, in terms of the string. *)
Lemma split_two (sep : ascii) (s a b : string) :
  (exists rest, JS.split sep s = a :: b :: rest)
  <-> freeOf sep a = true /\ freeOf sep b = true
      /\ (s = a ++ String sep b \/ exists r, s = a ++ String sep (b ++ String sep r)).
Proof.
  split.
  - intros [rest E].
    pose proof (split_fields_free sep s) as Hf. rewrite E in Hf.
    inversion Hf as [|? ? Ha Hf']; subst. inversion Hf' as [|? ? Hb _]; subst.
    split; [exact Ha|]. split; [exact Hb|].
    rewrite <- (join_split sep s), E.
    destruct rest as [|r rest]; [now left|].
    right. exists (join sep (r :: rest)). reflexivity.
  - intros (Ha & Hb & [->| [r ->]]).
    + exists []. rewrite (split_app_sep _ _ _ Ha).
      now rewrite (split_without_separator _ _ Hb).
    + exists (JS.split sep r). now rewrite (split_app_sep _ _ _ Ha), (split_app_sep _ _ _ Hb).
Qed.

(** When the middleware lets a request through. *)
Lemma middleware_PassThrough_iff (atob : string -> option string)
    (user pass authHeader : option string) :
  middleware atob user pass authHeader = PassThrough
  <-> (truthy user = false \/ truthy pass = false)
      \/ exists u p h enc decoded,
           user = Some u /\ pass = Some p /\ u <> EmptyString /\ p <> EmptyString
           /\ authHeader = Some h
           /\ (h = "Basic " ++ enc \/ exists r, h = "Basic " ++ enc ++ " " ++ r)
           /\ enc <> EmptyString /\ freeOf " " enc = true
           /\ atob enc = Some decoded
           /\ freeOf ":" u = true /\ freeOf ":" p = true
           /\ (decoded = u ++ ":" ++ p \/ exists extra, decoded = u ++ ":" ++ p ++ ":" ++ extra).
Proof.
  unfold middleware.
  destruct (truthy user) eqn:Hu; [|simpl; split; auto].
  destruct (truthy pass) eqn:Hp; [|simpl; split; auto].
  simpl.
  destruct user as [u|]; [|discriminate]. destruct pass as [p|]; [|discriminate].
  simpl in Hu, Hp. unfold nonEmpty in Hu, Hp.
  apply negb_true_iff in Hu. apply negb_true_iff in Hp.
  apply String.eqb_neq in Hu. apply String.eqb_neq in Hp.
  split.
  - intro H. right.
    destruct authHeader as [h|]; [|discriminate].
    destruct (nonEmpty h); [|discriminate].
    destruct (JS.split " " h) as [|scheme [|enc rest]] eqn:Es;
      unfold JS.at_or_empty, nth, nth_error, truthy, orEmpty, nonEmpty in H.
    + discriminate.
    + rewrite andb_false_r in H. discriminate.
    + destruct (String.eqb_spec scheme "Basic") as [->|_]; [|discriminate].
      destruct (String.eqb_spec enc "") as [|Henc]; [discriminate|].
      cbn [negb andb] in H.
      destruct (atob enc) as [decoded|] eqn:Ea; [|discriminate].
      destruct (JS.split ":" decoded) as [|u' [|p' rest']] eqn:Ed;
        try discriminate.
      destruct (String.eqb_spec u' u) as [->|_]; [|discriminate].
      destruct (String.eqb_spec p' p) as [->|_]; [|discriminate].
      destruct (proj1 (split_two " " h "Basic" enc) (ex_intro _ rest Es))
        as (_ & Hfe & Hh).
      destruct (proj1 (split_two ":" decoded u p) (ex_intro _ rest' Ed))
        as (Hfu & Hfp & Hd).
      exists u, p, h, enc, decoded.
      split; [reflexivity|]. split; [reflexivity|]. split; [exact Hu|].
      split; [exact Hp|]. split; [reflexivity|]. split; [exact Hh|].
      split; [exact Henc|]. split; [exact Hfe|]. split; [exact Ea|].
      split; [exact Hfu|]. split; [exact Hfp|]. exact Hd.
  - intros [[H|H]|H]; try discriminate.
    destruct H as (u0 & p0 & h & enc & decoded & Eu & Ep & _ & _ & -> & Hh & Henc & Hfe
                   & Ea & Hfu & Hfp & Hd).
    injection Eu as <-. injection Ep as <-.
    destruct (proj2 (split_two " " h "Basic" enc)
                (conj eq_refl (conj Hfe Hh))) as [rest Es].
    destruct (proj2 (split_two ":" decoded u p) (conj Hfu (conj Hfp Hd))) as [rest' Ed].
    assert (Hne : nonEmpty h = true) by (destruct Hh as [->|[r ->]]; reflexivity).
    rewrite Hne, Es. simpl. unfold nonEmpty.
    destruct (String.eqb_spec enc ""); [contradiction|]. simpl.
    rewrite Ea, Ed. simpl. now rewrite !String.eqb_refl.
Qed.

(** X16. The middleware lets a request through in two cases only: one
    of the two environment variables is unset or empty, or the header
    is [Basic <enc>], optionally followed by a space and anything, the
    decoder turns [<enc>] into [user:pass], optionally followed by a
    colon and anything, and neither the user name nor the password
    contains a colon. *)
Theorem middleware_passes (atob : string -> option string)
    (user pass authHeader : option string) :
  middleware atob user pass authHeader = PassThrough
  <-> (truthy user = false \/ truthy pass = false)
      \/ exists u p h enc decoded,
           user = Some u /\ pass = Some p /\ u <> EmptyString /\ p <> EmptyString
           /\ authHeader = Some h
           /\ (h = "Basic " ++ enc \/ exists r, h = "Basic " ++ enc ++ " " ++ r)
           /\ enc <> EmptyString /\ freeOf " " enc = true
           /\ atob enc = Some decoded
           /\ freeOf ":" u = true /\ freeOf ":" p = true
           /\ (decoded = u ++ ":" ++ p \/ exists extra, decoded = u ++ ":" ++ p ++ ":" ++ extra).
Proof.
  exact (middleware_PassThrough_iff atob user pass authHeader).
Qed.

(** X17. When both environment variables are set and the user name or
    the password contains a colon, no request gets through, whatever
    the header and whatever the decoder returns. *)
Theorem middleware_colon_lockout (atob : string -> option string) (user pass : string)
    (authHeader : option string) :
  user <> EmptyString -> pass <> EmptyString ->
  freeOf ":" user = false \/ freeOf ":" pass = false ->
  middleware atob (Some user) (Some pass) authHeader <> PassThrough.
Proof.
  intros Hu Hp Hcolon H. apply middleware_PassThrough_iff in H.
  destruct H as [[H|H]|H].
  - simpl in H. unfold nonEmpty in H. apply negb_false_iff, String.eqb_eq in H.
    contradiction.
  - simpl in H. unfold nonEmpty in H. apply negb_false_iff, String.eqb_eq in H.
    contradiction.
  - destruct H as (u0 & p0 & h & enc & decoded & Eu & Ep & _ & _ & _ & _ & _ & _ & _
                   & Hfu & Hfp & _).
    injection Eu as <-. injection Ep as <-.
    destruct Hcolon; congruence.
Qed.

(** The password [a:b] is refused even when the request carries it. *)
Lemma middleware_colon_lockout_witness :
  "admin" <> EmptyString /\ "a:b" <> EmptyString
  /\ middleware (fun _ => Some "admin:a:b") (Some "admin") (Some "a:b")
       (Some "Basic YWRtaW46YTpi") <> PassThrough.
Proof.
  split; [discriminate|]. split; [discriminate|].
  apply middleware_colon_lockout; [discriminate | discriminate | right; reflexivity].
Defined.

(** ** Buckets and the slot dropdown *)

(** X18. Whatever the filter settings, every bucket the page shows has
    an entry in the slot dropdown: an option whose label is the label
    of the bucket and whose key is the slot key of a record of the
    bucket. *)
Theorem buckets_have_options {P : Platform} (localeCompareDefault : string -> string -> Z)
    groupBy minScore cat slot searchQuery (normalizedTrends : list Trend) (b : Bucket) :
  In b (grouped (filtered groupBy minScore cat slot searchQuery normalizedTrends) groupBy) ->
  exists o t,
    In o (slotOptions localeCompareDefault groupBy normalizedTrends)
    /\ snd o = label b
    /\ In t (items b) /\ In t normalizedTrends
    /\ fst o = slotKeyForTrend t groupBy.
Proof.
  intro Hb.
  pose proof (grouped_bucket_items _ _ _ Hb) as Hitems.
  assert (Hl : In (label b)
                  (sortedLabels (filtered groupBy minScore cat slot searchQuery
                                          normalizedTrends) groupBy)).
  { rewrite <- grouped_labels. now apply in_map. }
  apply sortedLabels_In in Hl. destruct Hl as [t [Ht Hlab]].
  assert (Hn : In t normalizedTrends).
  { rewrite filtered_as_filter in Ht. apply filter_In in Ht. tauto. }
  exists (slotKeyForTrend t groupBy, slotLabelFromKey (slotKeyForTrend t groupBy) groupBy), t.
  split; [|split; [exact Hlab|split; [|split; [exact Hn|reflexivity]]]].
  - unfold slotOptions. apply in_map_iff. exists (slotKeyForTrend t groupBy).
    split; [reflexivity|]. apply slotOptionKeys_In. now exists t.
  - rewrite Hitems. apply filter_In. split; [exact Ht|].
    rewrite Hlab. apply String.eqb_refl.
Qed.

(** The bucket of week 5 and the option [week:5]. *)
Lemma buckets_have_options_witness :
  In (mkBucket "KW 5" [dated 2 "2026-01-27" (Some 5); dated 3 "2026-01-28" (Some 5)])
     (grouped (P := RefPlatform)
        (filtered (P := RefPlatform) ByWeek 0 "all" "all" "" sampleWeeks) ByWeek)
  /\ exists o t,
       In o (slotOptions (P := RefPlatform) Ref.localeCompare ByWeek sampleWeeks)
       /\ snd o = "KW 5"
       /\ In t [dated 2 "2026-01-27" (Some 5); dated 3 "2026-01-28" (Some 5)]
       /\ In t sampleWeeks
       /\ fst o = slotKeyForTrend t ByWeek.
Proof.
  assert (H : In (mkBucket "KW 5" [dated 2 "2026-01-27" (Some 5);
                                   dated 3 "2026-01-28" (Some 5)])
                 (grouped (P := RefPlatform)
                    (filtered (P := RefPlatform) ByWeek 0 "all" "all" "" sampleWeeks)
                    ByWeek))
    by (vm_compute; tauto).
  split; [exact H|].
  exact (@buckets_have_options RefPlatform Ref.localeCompare ByWeek 0 "all" "all" ""
           sampleWeeks _ H).
Defined.

(** ** The week before the current one *)

Lemma newYear_step (y : Z) :
  newYear (y + 1) - newYear y = 365 \/ newYear (y + 1) - newYear y = 366.
Proof.
  unfold newYear, JS.days_from_civil. cbv zeta.
  replace (1 <=? 2) with true by reflexivity.
  div_lia.
Qed.

Lemma newYear_monotone (a b : Z) : a <= b -> newYear a <= newYear b.
Proof.
  intro Hab. replace b with (a + Z.of_nat (Z.to_nat (b - a))) by lia.
  induction (Z.to_nat (b - a)) as [|n IH].
  - simpl. replace (a + 0) with a by lia. lia.
  - replace (a + Z.of_nat (S n)) with (a + Z.of_nat n + 1) by lia.
    pose proof (newYear_step (a + Z.of_nat n)). lia.
Qed.

(** A day lies in the year [civil_from_days] gives it. *)
Lemma newYear_bounds (z : Z) :
  newYear (fst (fst (JS.civil_from_days z))) <= z
  < newYear (fst (fst (JS.civil_from_days z)) + 1).
Proof.
  pose proof (civil_month_range z) as Hm.
  pose proof (civil_day_range z) as Hd.
  pose proof (civil_from_days_inverse z) as Hinv.
  set (y := fst (fst (JS.civil_from_days z))) in *.
  set (m := snd (fst (JS.civil_from_days z))) in *.
  set (d := snd (JS.civil_from_days z)) in *.
  clearbody y m d. subst z.
  unfold newYear, JS.days_from_civil. cbv zeta.
  replace (1 <=? 2) with true by reflexivity.
  destruct (m <=? 2) eqn:E; [apply Z.leb_le in E | apply Z.leb_gt in E]; div_lia.
Qed.

Lemma year_of_interval (z y : Z) :
  newYear y <= z < newYear (y + 1) -> fst (fst (JS.civil_from_days z)) = y.
Proof.
  intro Hz. pose proof (newYear_bounds z) as Hb.
  set (y0 := fst (fst (JS.civil_from_days z))) in *. clearbody y0.
  destruct (Z.lt_trichotomy y0 y) as [H|[H|H]]; [|exact H|].
  - pose proof (newYear_monotone (y0 + 1) y ltac:(lia)). lia.
  - pose proof (newYear_monotone (y + 1) y0 ltac:(lia)). lia.
Qed.

Lemma isoWeekday_next_week (D : Z) : isoWeekday (D + 7) = isoWeekday D.
Proof.
  unfold isoWeekday.
  replace ((D + 7 + 4) mod 7) with ((D + 4) mod 7) by div_lia. reflexivity.
Qed.

Lemma getISOWeek_weekOfDay {P : Platform} (date : Z) :
  0 <= date + LocalTZA date ->
  getISOWeek date = weekOfDay (JS.Day (date + LocalTZA date)).
Proof.
  intro Hpos.
  destruct (getISOWeek_by_thursday date Hpos) as [E _]. rewrite E. clear E.
  unfold weekOfDay. cbv zeta.
  set (D := JS.Day (date + LocalTZA date)).
  assert (HD : 0 <= D) by (unfold D, JS.Day, JS.msPerDay; div_lia).
  clearbody D.
  pose proof (isoWeekday_range D) as Hr.
  set (T := D + 4 - isoWeekday D).
  assert (HT : thursdayOf D = T * JS.msPerDay) by reflexivity.
  rewrite HT. unfold JS.getUTCFullYear. rewrite !Day_of_midnight.
  assert (Hy : 1600 <= fst (fst (JS.civil_from_days T)))
    by (apply civil_year_lower; unfold T; lia).
  set (y := fst (fst (JS.civil_from_days T))) in *.
  assert (Hs : JS.Day (JS.Date_UTC y 0 1) = newYear y).
  { unfold JS.Date_UTC, JS.MakeDay, newYear. cbv zeta.
    replace ((0 <=? y) && (y <=? 99)) with false
      by (symmetry; apply andb_false_iff; right; apply Z.leb_gt; lia).
    rewrite Day_of_midnight. simpl.
    replace (y + 0 / 12) with y by (rewrite Z.div_0_l; lia). lia. }
  now rewrite Hs.
Qed.

(** From one week to the next the week number goes up by one, or
    starts again at 1 after week 52 or 53. *)
Lemma weekOfDay_next_week (D : Z) :
  (weekOfDay (D + 7) = weekOfDay D + 1 /\ 1 <= weekOfDay D <= 52)
  \/ (weekOfDay (D + 7) = 1 /\ (weekOfDay D = 52 \/ weekOfDay D = 53)).
Proof.
  unfold weekOfDay. cbv zeta. rewrite isoWeekday_next_week.
  set (T := D + 4 - isoWeekday D).
  replace (D + 7 + 4 - isoWeekday D) with (T + 7) by (unfold T; lia).
  clearbody T.
  pose proof (newYear_bounds T) as Hb.
  set (y := fst (fst (JS.civil_from_days T))) in *. clearbody y.
  pose proof (newYear_step y) as Hs.
  pose proof (newYear_step (y + 1)) as Hs'.
  destruct (Z.lt_ge_cases (T + 7) (newYear (y + 1))) as [Hin|Hout].
  - left. rewrite (year_of_interval (T + 7) y) by lia.
    set (n := newYear y) in *. clearbody n. div_lia.
  - right. rewrite (year_of_interval (T + 7) (y + 1))
      by (replace (y + 1 + 1) with (y + 2) by lia;
          replace (y + 1 + 1) with (y + 2) in Hs' by lia; lia).
    set (n := newYear y) in *. set (n' := newYear (y + 1)) in *.
    clearbody n n'. div_lia.
Qed.

(** X19. The page shows as last week the ISO week of the same weekday
    one week before today whenever today's week is above 1.  In week 1
    it shows 52 although the week before was week 52 or 53, so what it
    shows is always between 1 and 52. *)
Theorem previousWeek_of_week {P : Platform} (now before : Z) :
  0 <= before + LocalTZA before ->
  JS.Day (now + LocalTZA now) = JS.Day (before + LocalTZA before) + 7 ->
  (1 < getISOWeek now -> previousWeek (getISOWeek now) = getISOWeek before)
  /\ (getISOWeek now = 1 ->
      previousWeek (getISOWeek now) = 52
      /\ (getISOWeek before = 52 \/ getISOWeek before = 53))
  /\ 1 <= getISOWeek now
  /\ 1 <= previousWeek (getISOWeek now) <= 52.
Proof.
  intros Hpos Hday.
  assert (Hnow : 0 <= now + LocalTZA now).
  { unfold JS.Day, JS.msPerDay in Hday. div_lia. }
  rewrite (getISOWeek_weekOfDay now Hnow), (getISOWeek_weekOfDay before Hpos), Hday.
  unfold previousWeek.
  destruct (weekOfDay_next_week (JS.Day (before + LocalTZA before)))
    as [[-> Hr]|[-> Hlast]].
  - destruct (Z.ltb_spec 1 (weekOfDay (JS.Day (before + LocalTZA before)) + 1)); lia.
  - simpl. split; [lia|]. split; [auto|]. lia.
Qed.

(** Monday 4 January 2021 lies in week 1 and the Monday before in week
    53 of 2020, on the reference runtime. *)
Lemma previousWeek_of_week_witness :
  0 <= JS.Date_UTC 2020 11 28 + LocalTZA (Platform := RefPlatform) (JS.Date_UTC 2020 11 28)
  /\ JS.Day (JS.Date_UTC 2021 0 4 + LocalTZA (Platform := RefPlatform) (JS.Date_UTC 2021 0 4))
     = JS.Day (JS.Date_UTC 2020 11 28
               + LocalTZA (Platform := RefPlatform) (JS.Date_UTC 2020 11 28)) + 7
  /\ previousWeek (getISOWeek (P := RefPlatform) (JS.Date_UTC 2021 0 4)) = 52
  /\ getISOWeek (P := RefPlatform) (JS.Date_UTC 2020 11 28) = 53.
Proof.
  assert (H1 : 0 <= JS.Date_UTC 2020 11 28
                    + LocalTZA (Platform := RefPlatform) (JS.Date_UTC 2020 11 28))
    by (vm_compute; discriminate).
  assert (H2 : JS.Day (JS.Date_UTC 2021 0 4
                       + LocalTZA (Platform := RefPlatform) (JS.Date_UTC 2021 0 4))
               = JS.Day (JS.Date_UTC 2020 11 28
                         + LocalTZA (Platform := RefPlatform) (JS.Date_UTC 2020 11 28)) + 7)
    by (vm_compute; reflexivity).
  split; [exact H1|]. split; [exact H2|].
  destruct (@previousWeek_of_week RefPlatform _ _ H1 H2) as (_ & Hone & _).
  split; [|vm_compute; reflexivity].
  apply Hone. vm_compute. reflexivity.
Defined.

(** ** Month labels *)

Lemma allChars_app (p : ascii -> bool) (a b : string) :
  allChars p (a ++ b) = allChars p a && allChars p b.
Proof.
  induction a as [|c a IH]; simpl; [reflexivity|].
  now rewrite IH, andb_assoc.
Qed.

Lemma String_of_digits (n : Z) : 0 <= n -> allChars JS.isDigit (JS.String_of n) = true.
Proof.
  intro Hn. unfold JS.String_of.
  destruct n as [|p|p]; [reflexivity | apply string_of_uint_digits | lia].
Qed.

Lemma digits_free (sep : ascii) (s : string) :
  JS.isDigit sep = false -> allChars JS.isDigit s = true -> freeOf sep s = true.
Proof.
  intro Hsep. apply allChars_impl. intros c Hc.
  destruct (Ascii.eqb_spec c sep) as [->|_]; [congruence | reflexivity].
Qed.

Lemma pad2_month (m : Z) :
  1 <= m <= 12 -> allChars JS.isDigit (pad2 m) = true /\ JS.Number (pad2 m) = Some m.
Proof.
  intro Hm.
  assert (H : m = 1 \/ m = 2 \/ m = 3 \/ m = 4 \/ m = 5 \/ m = 6 \/ m = 7 \/ m = 8
              \/ m = 9 \/ m = 10 \/ m = 11 \/ m = 12) by lia.
  repeat (destruct H as [->|H]; [split; reflexivity|]). subst. split; reflexivity.
Qed.

Lemma endsWith_month_key (s : string) :
  allChars isNumeric s = true -> JS.endsWith ("month:" ++ s) ":unknown" = false.
Proof.
  intro Hs. simpl.
  rewrite (numeric_not_unknown s Hs), (numeric_not_endsWith_unknown s Hs). reflexivity.
Qed.

Lemma monthKey_fields {P : Platform} (d : Z) :
  0 <= getFullYear d ->
  allChars isNumeric (monthKey d) = true
  /\ JS.split "-" (monthKey d) = [JS.String_of (getFullYear d); pad2 (getMonth d + 1)]
  /\ JS.Number (pad2 (getMonth d + 1)) = Some (getMonth d + 1).
Proof.
  intro Hy.
  assert (Hm : 1 <= getMonth d + 1 <= 12).
  { unfold getMonth, JS.getUTCMonth.
    pose proof (civil_month_range (JS.Day (d + LocalTZA d))). lia. }
  destruct (pad2_month _ Hm) as [Hdig Hnum].
  pose proof (String_of_digits _ Hy) as Hyd.
  split; [|split; [|exact Hnum]].
  - unfold monthKey. rewrite !allChars_app. rewrite String_of_numeric. simpl.
    apply (allChars_impl JS.isDigit); [|exact Hdig].
    intros c Hc. unfold isNumeric. now rewrite Hc.
  - unfold monthKey.
    change (JS.String_of (getFullYear d) ++ "-" ++ pad2 (getMonth d + 1))
      with (JS.String_of (getFullYear d) ++ String "-" (pad2 (getMonth d + 1))).
    rewrite split_app_sep by (apply digits_free; [reflexivity | exact Hyd]).
    rewrite split_without_separator by (apply (digits_free "-"); [reflexivity | exact Hdig]).
    reflexivity.
Qed.

(** X20. In month mode the label of a record whose date parses, in a
    year that is not negative, is the month-and-year text of the first
    day of the month of that date: the label decodes the year and the
    month that the key encodes. *)
Theorem month_label_round_trip {P : Platform} (t : Trend) (d : Z) :
  safeDate (published_date t) = Some d ->
  0 <= getFullYear d ->
  slotKeyForTrend t ByMonth = "month:" ++ monthKey d
  /\ labelOf ByMonth t
     = toLocaleDateString_monthYear
         (Date_local (Some (getFullYear d)) (Some (getMonth d)) 1).
Proof.
  intros Hd Hy.
  assert (Hk : slotKeyForTrend t ByMonth = "month:" ++ monthKey d).
  { unfold slotKeyForTrend. now rewrite Hd. }
  split; [exact Hk|].
  destruct (monthKey_fields d Hy) as (Hnum & Hsplit & Hm).
  unfold labelOf. rewrite Hk. unfold slotLabelFromKey.
  rewrite (endsWith_month_key _ Hnum).
  assert (Hraw : JS.at_or_empty (JS.split ":" ("month:" ++ monthKey d)) 1 = monthKey d).
  { change ("month:" ++ monthKey d) with ("month" ++ String ":" (monthKey d)).
    rewrite split_app_sep by reflexivity.
    rewrite (split_without_separator ":" _ (numeric_no_colon _ Hnum)). reflexivity. }
  rewrite Hraw. cbv zeta. rewrite Hsplit.
  unfold JS.at_or_empty, nth, nth_error.
  rewrite Number_String_of, Hm. simpl.
  replace (getMonth d + 1 - 1) with (getMonth d) by lia. reflexivity.
Qed.

(** A record of 9 March 2026 on the reference runtime. *)
Lemma month_label_round_trip_witness :
  safeDate (P := RefPlatform) (published_date (dated 2 "2026-03-09" None))
  = Some (JS.Date_UTC 2026 2 9)
  /\ 0 <= getFullYear (P := RefPlatform) (JS.Date_UTC 2026 2 9)
  /\ labelOf (P := RefPlatform) ByMonth (dated 2 "2026-03-09" None)
     = toLocaleDateString_monthYear (Platform := RefPlatform)
         (Date_local (Platform := RefPlatform) (Some 2026) (Some 2) 1).
Proof.
  assert (H1 : safeDate (P := RefPlatform) (published_date (dated 2 "2026-03-09" None))
               = Some (JS.Date_UTC 2026 2 9)) by (vm_compute; reflexivity).
  assert (H2 : 0 <= getFullYear (P := RefPlatform) (JS.Date_UTC 2026 2 9))
    by (vm_compute; discriminate).
  split; [exact H1|]. split; [exact H2|].
  exact (proj2 (@month_label_round_trip RefPlatform _ _ H1 H2)).
Defined.

(** ** The order of the buckets and of the slot dropdown *)

Lemma sorted_weaken_in {A : Type} (R R' : A -> A -> Prop) (l : list A) :
  (forall a b, In a l -> In b l -> R a b -> R' a b) ->
  StronglySorted R l -> StronglySorted R' l.
Proof.
  intros Himp Hs. induction Hs as [|x l Hs IH Hall]; constructor.
  - apply IH. intros a b Ha Hb. apply Himp; now right.
  - rewrite Forall_forall in *. intros y Hy.
    apply Himp; [now left | now right | now apply Hall].
Qed.

(** A sorted list without repetitions whose elements all occur in
    another such list is a subsequence of it. *)
Lemma sorted_subseq {A : Type} (R : A -> A -> Prop) (l1 l2 : list A) :
  (forall x y, In x l2 -> In y l2 -> R x y -> R y x -> x = y) ->
  StronglySorted R l1 -> StronglySorted R l2 -> NoDup l1 -> NoDup l2 ->
  incl l1 l2 -> subseq l1 l2.
Proof.
  intros Hanti Hs1 Hs2. revert l1 Hs1.
  induction Hs2 as [|y l2 Hs2 IH Hall2]; intros l1 Hs1 Hnd1 Hnd2 Hincl.
  - destruct l1 as [|x l1]; [constructor|]. destruct (Hincl x (or_introl eq_refl)).
  - assert (Hanti' : forall a b, In a l2 -> In b l2 -> R a b -> R b a -> a = b).
    { intros a b Ha Hb. apply Hanti; now right. }
    inversion Hnd2 as [|? ? Hy Hnd2']; subst.
    rewrite Forall_forall in Hall2.
    destruct l1 as [|x l1].
    + apply subseq_skip. apply (IH Hanti'); [constructor | constructor | exact Hnd2' |].
      intros z Hz. destruct Hz.
    + inversion Hs1 as [|? ? Hs1' Hall1]; subst.
      inversion Hnd1 as [|? ? Hx Hnd1']; subst.
      rewrite Forall_forall in Hall1.
      assert (Htail : incl l1 l2).
      { intros z Hz. destruct (Hincl z (or_intror Hz)) as [E|Hin]; [|exact Hin].
        subst z. destruct (Hincl x (or_introl eq_refl)) as [E|Hin].
        - subst x. contradiction.
        - exfalso. apply Hx. rewrite (Hanti x y); auto.
          + now right.
          + now left. }
      destruct (Hincl x (or_introl eq_refl)) as [E|Hin].
      * subst x. apply subseq_keep. now apply (IH Hanti').
      * apply subseq_skip. apply (IH Hanti'); [exact Hs1 | exact Hnd1 | exact Hnd2' |].
        intros z [E|Hz]; [now subst z | now apply Htail].
Qed.

Lemma subseq_In {A : Type} (l1 l2 : list A) (x : A) :
  subseq l1 l2 -> In x l1 -> In x l2.
Proof.
  induction 1 as [|y l1 l2 _ IH|y l1 l2 _ IH]; simpl; intro Hx.
  - exact Hx.
  - right. now apply IH.
  - destruct Hx as [E|Hx]; [now left | right; now apply IH].
Qed.

Lemma subseq_all {A : Type} (l1 l2 : list A) :
  subseq l1 l2 -> NoDup l2 -> incl l2 l1 -> l1 = l2.
Proof.
  induction 1 as [|y l1 l2 Hsub IH|y l1 l2 Hsub IH]; intros Hnd Hincl.
  - reflexivity.
  - exfalso. inversion Hnd as [|? ? Hy _]; subst. apply Hy.
    apply (subseq_In l1); [exact Hsub|]. apply Hincl. now left.
  - inversion Hnd as [|? ? Hy Hnd']; subst. f_equal. apply IH; [exact Hnd'|].
    intros z Hz. destruct (Hincl z (or_intror Hz)) as [E|Hin]; [|exact Hin].
    subst z. contradiction.
Qed.

Section WeekOrderFacts.
Context {P : Platform} (localeCompareDefault : string -> string -> Z).

(** Key and label of a record in week mode. *)
Lemma week_key_label (t : Trend) :
  (slotKeyForTrend t ByWeek = "week:unknown" /\ labelOf ByWeek t = "Ohne KW")
  \/ exists w, week_number t = Some w /\ w <> 0
               /\ slotKeyForTrend t ByWeek = "week:" ++ JS.String_of w
               /\ labelOf ByWeek t = "KW " ++ JS.String_of w.
Proof.
  destruct (week_number t) as [w|] eqn:Hw.
  - destruct (Z.eq_dec w 0) as [->|Hnz].
    + left. split; [|apply labelOf_week_unknown; now right].
      unfold slotKeyForTrend. now rewrite Hw.
    + right. exists w. split; [reflexivity|]. split; [exact Hnz|].
      split; [|now apply labelOf_week_known].
      unfold slotKeyForTrend. rewrite Hw.
      destruct (Z.eqb_spec w 0); [contradiction | reflexivity].
  - left. split; [|apply labelOf_week_unknown; now left].
    unfold slotKeyForTrend. now rewrite Hw.
Qed.

Lemma compareLabels_known (w1 w2 : Z) :
  compareLabels ByWeek ("KW " ++ JS.String_of w1) ("KW " ++ JS.String_of w2)
  = Z.abs w2 - Z.abs w1.
Proof.
  unfold compareLabels.
  replace (JS.startsWith ("KW " ++ JS.String_of w1) "Ohne") with false by reflexivity.
  replace (JS.startsWith ("KW " ++ JS.String_of w2) "Ohne") with false by reflexivity.
  cbn [andb negb].
  pose proof (labelNumber_week w1) as E1. pose proof (labelNumber_week w2) as E2.
  unfold labelNumber in E1, E2. rewrite E1, E2. reflexivity.
Qed.

Lemma compareLabels_known_unknown (w : Z) :
  compareLabels ByWeek ("KW " ++ JS.String_of w) "Ohne KW" = -1
  /\ compareLabels ByWeek "Ohne KW" ("KW " ++ JS.String_of w) = 1.
Proof.
  split; reflexivity.
Qed.

Lemma week_label_key (t1 t2 : Trend) :
  labelOf ByWeek t1 = labelOf ByWeek t2 ->
  slotKeyForTrend t1 ByWeek = slotKeyForTrend t2 ByWeek.
Proof.
  destruct (week_key_label t1) as [[K1 L1]|(w1 & _ & _ & K1 & L1)];
    destruct (week_key_label t2) as [[K2 L2]|(w2 & _ & _ & K2 & L2)];
    rewrite K1, K2, L1, L2; intro E.
  - reflexivity.
  - discriminate E.
  - discriminate E.
  - injection E as E. now rewrite E.
Qed.

Lemma week_orders_agree (t1 t2 : Trend) :
  (forall w, week_number t1 = Some w -> 0 <= w) ->
  (forall w, week_number t2 = Some w -> 0 <= w) ->
  (compareSlotKeys localeCompareDefault ByWeek
     (slotKeyForTrend t1 ByWeek) (slotKeyForTrend t2 ByWeek) <= 0 ->
   compareLabels ByWeek (labelOf ByWeek t1) (labelOf ByWeek t2) <= 0)
  /\ (compareLabels ByWeek (labelOf ByWeek t1) (labelOf ByWeek t2) <= 0 ->
      compareLabels ByWeek (labelOf ByWeek t2) (labelOf ByWeek t1) <= 0 ->
      labelOf ByWeek t1 = labelOf ByWeek t2).
Proof.
  intros H1 H2.
  destruct (week_key_label t1) as [[K1 L1]|(w1 & Hw1 & _ & K1 & L1)];
    destruct (week_key_label t2) as [[K2 L2]|(w2 & Hw2 & _ & K2 & L2)];
    rewrite K1, K2, L1, L2.
  - split; [intros _; vm_compute; discriminate | reflexivity].
  - rewrite (proj2 (compareSlotKeys_known_unknown localeCompareDefault w2)).
    rewrite (proj2 (compareLabels_known_unknown w2)). split; intros; lia.
  - rewrite (proj1 (compareLabels_known_unknown w1)),
            (proj2 (compareLabels_known_unknown w1)). split; intros; lia.
  - rewrite compareSlotKeys_known, !compareLabels_known.
    specialize (H1 _ Hw1). specialize (H2 _ Hw2). split.
    + lia.
    + intros A B. replace w2 with w1 by lia. reflexivity.
Qed.

End WeekOrderFacts.

(** X21. In week mode, when no record has a negative week number, the
    buckets of the page stand in the order of the slot dropdown: the
    bucket labels are a subsequence of the option labels whatever the
    filter settings, and for the unfiltered records the two lists are
    equal. *)
Theorem buckets_in_dropdown_order {P : Platform}
    (localeCompareDefault : string -> string -> Z) minScore cat slot searchQuery
    (normalizedTrends : list Trend) :
  (forall t w, In t normalizedTrends -> week_number t = Some w -> 0 <= w) ->
  subseq (map label (grouped (filtered ByWeek minScore cat slot searchQuery normalizedTrends)
                             ByWeek))
         (map snd (slotOptions localeCompareDefault ByWeek normalizedTrends))
  /\ map label (grouped normalizedTrends ByWeek)
     = map snd (slotOptions localeCompareDefault ByWeek normalizedTrends).
Proof.
  intro Hweeks.
  assert (Hopts : map snd (slotOptions localeCompareDefault ByWeek normalizedTrends)
                  = map (fun k => slotLabelFromKey k ByWeek)
                        (slotOptionKeys localeCompareDefault ByWeek normalizedTrends)).
  { unfold slotOptions. now rewrite map_map. }
  rewrite Hopts, !grouped_labels.
  set (K := slotOptionKeys localeCompareDefault ByWeek normalizedTrends).
  set (f := fun k => slotLabelFromKey k ByWeek).
  assert (HK : forall k, In k K -> exists t, In t normalizedTrends
                                             /\ slotKeyForTrend t ByWeek = k).
  { intros k Hk. now apply slotOptionKeys_In in Hk. }
  assert (HfK : forall x, In x (map f K) <-> exists t, In t normalizedTrends
                                                       /\ labelOf ByWeek t = x).
  { intro x. rewrite in_map_iff. split.
    - intros (k & <- & Hk). destruct (HK k Hk) as (t & Ht & <-). now exists t.
    - intros (t & Ht & <-). exists (slotKeyForTrend t ByWeek). split; [reflexivity|].
      apply slotOptionKeys_In. now exists t. }
  assert (Hanti : forall x y, In x (map f K) -> In y (map f K) ->
                    compareLabels ByWeek x y <= 0 -> compareLabels ByWeek y x <= 0 -> x = y).
  { intros x y Hx Hy. apply HfK in Hx. apply HfK in Hy.
    destruct Hx as (t1 & Ht1 & <-). destruct Hy as (t2 & Ht2 & <-).
    apply (week_orders_agree localeCompareDefault t1 t2).
    - intros w. now apply Hweeks.
    - intros w. now apply Hweeks. }
  assert (Hs2 : StronglySorted (fun a b => compareLabels ByWeek a b <= 0) (map f K)).
  { apply sorted_map.
    apply (sorted_weaken_in
             (fun a b => compareSlotKeys localeCompareDefault ByWeek a b <= 0)).
    - intros a b Ha Hb. destruct (HK a Ha) as (t1 & Ht1 & <-).
      destruct (HK b Hb) as (t2 & Ht2 & <-).
      apply (week_orders_agree localeCompareDefault t1 t2).
      + intros w. now apply Hweeks.
      + intros w. now apply Hweeks.
    - apply slotOptionKeys_sorted. }
  assert (Hnd2 : NoDup (map f K)).
  { pose proof (slotOptionKeys_NoDup localeCompareDefault ByWeek normalizedTrends) as Hnd.
    fold K in Hnd. clear - Hnd HK.
    induction K as [|k K IH]; simpl; [constructor|].
    inversion Hnd as [|? ? Hk HndK]; subst. constructor.
    - intro Hin. apply in_map_iff in Hin. destruct Hin as (k' & E & Hk').
      destruct (HK k (or_introl eq_refl)) as (t1 & _ & <-).
      destruct (HK k' (or_intror Hk')) as (t2 & _ & <-).
      apply Hk. rewrite (week_label_key t1 t2); [exact Hk'|]. symmetry. exact E.
    - apply IH; [|exact HndK]. intros k' Hk'. apply HK. now right. }
  assert (Hs1 : forall fl, StronglySorted (fun a b => compareLabels ByWeek a b <= 0)
                                          (sortedLabels fl ByWeek)).
  { intro fl. unfold sortedLabels. apply sort_sorted, compareLabels_consistent. now left. }
  split.
  - apply (sorted_subseq (fun a b => compareLabels ByWeek a b <= 0));
      [exact Hanti | apply Hs1 | exact Hs2 | apply sortedLabels_NoDup | exact Hnd2 |].
    intros x Hx. apply sortedLabels_In in Hx. destruct Hx as (t & Ht & <-).
    apply HfK. exists t. split; [|reflexivity].
    rewrite filtered_as_filter in Ht. apply filter_In in Ht. tauto.
  - apply subseq_all; [|exact Hnd2|].
    + apply (sorted_subseq (fun a b => compareLabels ByWeek a b <= 0));
        [exact Hanti | apply Hs1 | exact Hs2 | apply sortedLabels_NoDup | exact Hnd2 |].
      intros x Hx. apply sortedLabels_In in Hx. apply HfK. exact Hx.
    + intros x Hx. apply HfK in Hx. apply sortedLabels_In. exact Hx.
Qed.

(** Weeks 4, 5, 5 and 6: three buckets and three options. *)
Lemma buckets_in_dropdown_order_witness :
  (forall t w, In t sampleWeeks -> week_number t = Some w -> 0 <= w)
  /\ map label (grouped (P := RefPlatform) sampleWeeks ByWeek)
     = map snd (slotOptions (P := RefPlatform) Ref.localeCompare ByWeek sampleWeeks).
Proof.
  assert (H : forall t w, In t sampleWeeks -> week_number t = Some w -> 0 <= w).
  { intros t w Ht Hw. simpl in Ht.
    repeat (destruct Ht as [<-|Ht]; [injection Hw as <-; lia|]). destruct Ht. }
  split; [exact H|].
  exact (proj2 (@buckets_in_dropdown_order RefPlatform Ref.localeCompare 0 "all" "all" ""
                  sampleWeeks H)).
Defined.
